(** * Stylized-fact literature review: model of the assessment loop

    A shallow embedding of the retrieval-augmented assessment pipeline
    (package [literature_review]): the document chunker, the cosine
    similarity retriever, the judge client with its JSON recovery, the
    assessment agent, the checkpoint manager and the review pipeline that
    drives them.

    Python values are modelled as follows.
    - [int] is [Z]; [float] is the kernel's binary64 [float], which is
      what Python and numpy's float64 are.
    - [str] is [string]; where the code indexes or slices a string, the
      string is read as its list of characters ([list ascii], code points
      below 256) and indices are [Z] with Python's rules for negative and
      out-of-range values written out.
    - a [dict] with string keys is [gmap string value].
    - an exception is a value of [exn]; a function that can raise returns
      a [result].
    - the outside world (embedding service, judge, clock, disk, database
      server) is a record of oracles indexed by a logical clock. *)

From Stdlib Require Import ZArith List String Ascii Bool Lia PrimFloat.
From Stdlib Require Import Sorted Permutation.
From stdpp Require Import gmap strings list fin_maps pretty.

Open Scope Z_scope.
Set Warnings "-register-all".

(** ** Python values *)

Inductive value : Type :=
  | VNone
  | VBool (b : bool)
  | VInt (z : Z)
  | VFloat (x : float)
  | VStr (s : string)
  | VList (l : list value)
  | VDict (d : gmap string value).

Abbreviation dict := (gmap string value).

Record exn : Type := Exn { exn_type : string; exn_msg : string }.

Inductive result (A : Type) : Type :=
  | Ok (a : A)
  | Raise (e : exn).
Arguments Ok {A} a.
Arguments Raise {A} e.

(** ** Python string primitives *)

Module Py.

(** One index of a slice, adjusted as CPython does: a negative index
    counts from the end, and the result is clamped to [0, len]. *)
Definition clamp_index (len i : Z) : Z :=
  if i <? 0 then Z.max 0 (i + len) else Z.min i len.

(** [s[start:stop]] *)
Definition slice {A : Type} (s : list A) (start stop : Z) : list A :=
  let len := Z.of_nat (List.length s) in
  let a := clamp_index len start in
  let b := clamp_index len stop in
  take (Z.to_nat (b - a)) (drop (Z.to_nat a) s).

Fixpoint starts_with (sub s : list ascii) : bool :=
  match sub, s with
  | [], _ => true
  | _ :: _, [] => false
  | c :: sub', d :: s' => Ascii.eqb c d && starts_with sub' s'
  end.

(** The start index of a search, adjusted as CPython does: a negative
    index counts from the end and stops at 0; an index beyond the end
    stays where it is, and the search then finds nothing. *)
Definition adjust_start (len i : Z) : Z :=
  if i <? 0 then Z.max 0 (i + len) else i.

(** [s[i:i+len(sub)] == sub] for an index [i] inside the string. *)
Definition occurs_at (sub s : list ascii) (i : Z) : bool :=
  (0 <=? i) && starts_with sub (drop (Z.to_nat i) s).

(** The highest of the [n] positions [lo, lo+1, .., lo+n-1] at which
    [sub] occurs, or -1. *)
Fixpoint rscan (sub s : list ascii) (lo : Z) (n : nat) : Z :=
  match n with
  | O => -1
  | S n' =>
      let i := lo + Z.of_nat n' in
      if occurs_at sub s i then i else rscan sub s lo n'
  end.

(** [s.rfind(sub, start, stop)] *)
Definition rfind (s sub : list ascii) (start stop : Z) : Z :=
  let len := Z.of_nat (List.length s) in
  let a := adjust_start len start in
  let b := clamp_index len stop in
  rscan sub s a (Z.to_nat (b - a - Z.of_nat (List.length sub) + 1)).

(** The lowest of the [n] positions from [lo] on at which [sub] occurs,
    or -1. *)
Fixpoint scan (sub s : list ascii) (lo : Z) (n : nat) : Z :=
  match n with
  | O => -1
  | S n' => if occurs_at sub s lo then lo else scan sub s (lo + 1) n'
  end.

(** [s.find(sub, start)] *)
Definition find (s sub : list ascii) (start : Z) : Z :=
  let len := Z.of_nat (List.length s) in
  let a := adjust_start len start in
  scan sub s a (Z.to_nat (len - a - Z.of_nat (List.length sub) + 1)).

(** [c.isspace()] on the code points below 256. *)
Definition isspace (c : ascii) : bool :=
  let n := Z.of_N (N_of_ascii c) in
  ((9 <=? n) && (n <=? 13)) || ((28 <=? n) && (n <=? 32))
  || (n =? 133) || (n =? 160).

Fixpoint lstrip (s : list ascii) : list ascii :=
  match s with
  | [] => []
  | c :: s' => if isspace c then lstrip s' else s
  end.

Definition rstrip (s : list ascii) : list ascii := rev (lstrip (rev s)).

(** [s.strip()] *)
Definition strip (s : list ascii) : list ascii := rstrip (lstrip s).

Definition chars (s : string) : list ascii := list_ascii_of_string s.
Definition str (l : list ascii) : string := string_of_list_ascii l.

(** [len(s)] *)
Definition len (s : string) : Z := Z.of_nat (String.length s).

End Py.

(** ** Phase 2: the document chunker ([document_processor.py]) *)

Module Chunker.

Record DocumentChunker : Type := {
  chunk_size : Z;
  chunk_overlap : Z
}.

(** [DocumentChunker()] with the constructor's defaults. *)
Definition default : DocumentChunker :=
  {| chunk_size := 1000; chunk_overlap := 200 |}.

Record chunk : Type := {
  chunk_id : Z;
  text : string;
  char_start : Z;
  char_end : Z;
  metadata : option dict
}.

(** The sentence end markers, in the order the loop tries them. *)
Definition markers : list (list ascii) :=
  [ Py.chars ". "; [ "."%char; "010"%char ]; Py.chars "! "; Py.chars "? " ].

(** The [for marker in ..] loop: the first marker whose last occurrence
    in the window lies after [start] moves the end; [break] leaves the
    loop there. *)
Fixpoint break_at (ms : list (list ascii)) (txt : list ascii)
    (start end_ : Z) : Z :=
  match ms with
  | [] => end_
  | marker :: ms' =>
      let pos := Py.rfind txt marker start end_ in
      if start <? pos then pos + 1 else break_at ms' txt start end_
  end.

(** The value of [end] when the chunk is extracted. *)
Definition chunk_end (self : DocumentChunker) (txt : list ascii)
    (start : Z) : Z :=
  let end_ := start + chunk_size self in
  if end_ <? Z.of_nat (List.length txt)
  then break_at markers txt start end_
  else end_.

(** [start = end - self.chunk_overlap if end < len(text) else end] *)
Definition next_start (self : DocumentChunker) (txt : list ascii)
    (start : Z) : Z :=
  let end_ := chunk_end self txt start in
  if end_ <? Z.of_nat (List.length txt)
  then end_ - chunk_overlap self
  else end_.

(** The loop variables. *)
Record state : Type := {
  start : Z;
  next_id : Z;
  chunks : list chunk
}.

(** Truth value of the [metadata] argument: [None] and the empty dict
    are false. *)
Definition truthy (metadata : option dict) : bool :=
  match metadata with
  | None => false
  | Some d => negb (bool_decide (d = ∅))
  end.

(** One pass through the body of the [while] loop. *)
Definition step (self : DocumentChunker) (txt : list ascii)
    (metadata : option dict) (st : state) : state :=
  let end_ := chunk_end self txt (start st) in
  let chunk_text := Py.strip (Py.slice txt (start st) end_) in
  let emitted :=
    match chunk_text with
    | [] => None
    | _ :: _ =>
        Some {| chunk_id := next_id st;
                text := Py.str chunk_text;
                char_start := start st;
                char_end := end_;
                metadata := if truthy metadata then metadata else None |}
    end in
  {| start := next_start self txt (start st);
     next_id := match emitted with
                | Some _ => next_id st + 1
                | None => next_id st
                end;
     chunks := match emitted with
               | Some c => chunks st ++ [c]
               | None => chunks st
               end |}.

(** [while start < len(text)], run for at most [fuel] passes.  [None]
    means the loop is still running when the fuel is spent. *)
Fixpoint loop (fuel : nat) (self : DocumentChunker) (txt : list ascii)
    (metadata : option dict) (st : state) : option (list chunk) :=
  if start st <? Z.of_nat (List.length txt) then
    match fuel with
    | O => None
    | S fuel' => loop fuel' self txt metadata (step self txt metadata st)
    end
  else Some (chunks st).

Definition initial : state := {| start := 0; next_id := 0; chunks := [] |}.

(** [DocumentChunker.chunk_text] *)
Definition chunk_text (fuel : nat) (self : DocumentChunker) (text : string)
    (metadata : option dict) : option (list chunk) :=
  match text with
  | EmptyString => Some []
  | _ => loop fuel self (Py.chars text) metadata initial
  end.



End Chunker.

(** ** Configuration ([config.py]) *)

Module Config.
Definition TOP_K_RETRIEVAL : Z := 20.
Definition LLM_MODEL : string := "gpt-oss:120b".
Definition CHUNK_SIZE : Z := 1000.
Definition CHUNK_OVERLAP : Z := 200.
End Config.

(** ** The outside world *)

(** One message of a chat request: role and content. *)
Record message : Type := { role : string; content : string }.

(** A document of the [document_chunks] collection. *)
Record chunk_doc : Type := {
  doc_id : string;
  chunk_id : Z;
  text : string;
  metadata : option dict;
  embedding : option (list float)
}.

(** One row of a catalogue table: the [Number] column, the claim text and
    the remaining cells by column name. *)
Record csv_row : Type := {
  Number : Z;
  fact_column : string;
  cells : dict
}.

(** One catalogue table; [rows = None] is a file that [pd.read_csv]
    cannot read. *)
Record csv_file : Type := {
  name : string;
  stem : string;
  rows : option (list csv_row)
}.

(** The checkpoint file on disk. *)
Inductive file : Type :=
  | Missing
  | Unreadable
  | Contents (d : dict).

(** What the review loop did, in order.  The trace is not program state:
    it records the calls the pipeline makes so that statements can refer
    to them. *)
Inductive event : Type :=
  | Assess (fact_number : Z)
  | Upsert (fact_number : Z)
  | Mirror (fact_number : Z)
  | Advance (fact_number : Z) (success : bool).

(** The services the code calls.  Each answer depends on the logical time
    of the call, so a service may answer differently each time. *)
Record env : Type := {
  (** [np.dot] on two vectors; numpy raises when the shapes differ *)
  np_dot : list float -> list float -> result float;
  (** [np.linalg.norm] *)
  np_norm : list float -> float;
  (** the embedding endpoint *)
  embeddings : nat -> string -> result (list float);
  (** the chat endpoint: the judge *)
  chat : nat -> list message -> result string;
  (** [json.loads]; [None] is [json.JSONDecodeError] *)
  json_loads : string -> option value;
  (** [time.time()] *)
  time_time : nat -> float;
  (** [datetime.now().isoformat()] *)
  isoformat_now : nat -> string;
  (** [datetime.now().strftime("%Y-%m-%d %H:%M:%S")] *)
  strftime_now : nat -> string;
  (** the database server: [Some e] when the operation raises [e] *)
  mongo : nat -> option exn;
  (** whether the checkpoint file can be written *)
  disk : nat -> bool;
  (** [f"{x:.3f}"] *)
  format_3f : float -> string;
  (** [str(v)] for the values whose rendering is not written out below *)
  py_repr : value -> string;
  (** [n > x] for an [int] and a [float] *)
  int_gt_float : Z -> float -> bool;
  (** [str.title] *)
  title : string -> string
}.

Record world : Type := {
  (** the logical clock: the number of calls made to the services *)
  now : nat;
  (** every request sent to the judge, oldest first *)
  judge_log : list (list message);
  chunks_coll : list chunk_doc;
  assessments_coll : list dict;
  csv_dir : list csv_file;
  checkpoint_file : file;
  trace : list event
}.

Definition tick (w : world) : world :=
  {| now := S (now w); judge_log := judge_log w;
     chunks_coll := chunks_coll w; assessments_coll := assessments_coll w;
     csv_dir := csv_dir w; checkpoint_file := checkpoint_file w;
     trace := trace w |}.

Definition log_request (msgs : list message) (w : world) : world :=
  {| now := now w; judge_log := judge_log w ++ [msgs];
     chunks_coll := chunks_coll w; assessments_coll := assessments_coll w;
     csv_dir := csv_dir w; checkpoint_file := checkpoint_file w;
     trace := trace w |}.

Definition set_assessments (c : list dict) (w : world) : world :=
  {| now := now w; judge_log := judge_log w;
     chunks_coll := chunks_coll w; assessments_coll := c;
     csv_dir := csv_dir w; checkpoint_file := checkpoint_file w;
     trace := trace w |}.

Definition set_csv_dir (d : list csv_file) (w : world) : world :=
  {| now := now w; judge_log := judge_log w;
     chunks_coll := chunks_coll w; assessments_coll := assessments_coll w;
     csv_dir := d; checkpoint_file := checkpoint_file w;
     trace := trace w |}.

Definition set_checkpoint_file (f : file) (w : world) : world :=
  {| now := now w; judge_log := judge_log w;
     chunks_coll := chunks_coll w; assessments_coll := assessments_coll w;
     csv_dir := csv_dir w; checkpoint_file := f;
     trace := trace w |}.

Definition emit (e : event) (w : world) : world :=
  {| now := now w; judge_log := judge_log w;
     chunks_coll := chunks_coll w; assessments_coll := assessments_coll w;
     csv_dir := csv_dir w; checkpoint_file := checkpoint_file w;
     trace := trace w ++ [e] |}.

(** Computations that read and change the world and may raise. *)
Definition M (A : Type) : Type := world -> result A * world.

Definition ret {A : Type} (a : A) : M A := fun w => (Ok a, w).

Definition raise {A : Type} (e : exn) : M A := fun w => (Raise e, w).

Definition bind {A B : Type} (m : M A) (k : A -> M B) : M B :=
  fun w =>
    match m w with
    | (Ok a, w') => k a w'
    | (Raise e, w') => (Raise e, w')
    end.

(** [try: m except Exception as e: handler e] *)
Definition try_except {A : Type} (m : M A) (handler : exn -> M A) : M A :=
  fun w =>
    match m w with
    | (Ok a, w') => (Ok a, w')
    | (Raise e, w') => handler e w'
    end.

Notation "'let*' x ':=' m 'in' k" := (bind m (fun x => k))
  (at level 10, x binder, k at level 200).

(** A database operation: the server answers or the driver raises. *)
Definition mongo_call (E : env) : M unit :=
  fun w =>
    match mongo E (now w) with
    | None => (Ok tt, tick w)
    | Some e => (Raise e, tick w)
    end.

(** ** numpy on lists of floats, accumulating from left to right *)

Module Np.

Fixpoint dot_from (acc : float) (a b : list float) : result float :=
  match a, b with
  | [], [] => Ok acc
  | x :: a', y :: b' => dot_from (acc + x * y)%float a' b'
  | _, _ => Raise (Exn "ValueError" "shapes not aligned")
  end.

Definition dot (a b : list float) : result float := dot_from 0%float a b.

Definition norm (a : list float) : float :=
  PrimFloat.sqrt (fold_left (fun acc x => acc + x * x)%float a 0%float).

End Np.

(** ** Phase 3: the retriever ([rag_retriever.py]) *)

Module Retriever.

(** One entry of the list [retrieve] returns. *)
Record retrieved : Type := {
  r_doc_id : string;
  r_chunk_id : Z;
  r_text : string;
  r_metadata : dict;
  similarity_score : float
}.

(** [chunks.find({"embedding": {"$exists": True}})], each chunk with
    its embedding, in the collection's order. *)
Definition with_embedding (coll : list chunk_doc)
    : list (chunk_doc * list float) :=
  omap (fun c => match embedding c with
                 | Some v => Some (c, v)
                 | None => None
                 end) coll.

(** The loop that fills [similarities]. *)
Fixpoint similarities (E : env) (query_vec : list float) (query_norm : float)
    (chunks : list (chunk_doc * list float))
    : result (list (chunk_doc * float)) :=
  match chunks with
  | [] => Ok []
  | (chunk, chunk_vec) :: rest =>
      let chunk_norm := np_norm E chunk_vec in
      if (0 <? chunk_norm)%float && (0 <? query_norm)%float then
        match np_dot E query_vec chunk_vec with
        | Raise e => Raise e
        | Ok d =>
            match similarities E query_vec query_norm rest with
            | Raise e => Raise e
            | Ok l => Ok ((chunk, d / (query_norm * chunk_norm))%float :: l)
            end
        end
      else similarities E query_vec query_norm rest
  end.

(** Where [x] goes in a list already sorted by descending score: after
    every entry that is not smaller, so before the entries it ties
    with. *)
Fixpoint insert_desc (x : chunk_doc * float) (l : list (chunk_doc * float))
    : list (chunk_doc * float) :=
  match l with
  | [] => [x]
  | y :: l' =>
      if (x.2 <? y.2)%float then y :: insert_desc x l' else x :: y :: l'
  end.

(** [similarities.sort(key=lambda x: x[1], reverse=True)].  Python's
    sort is stable, also with [reverse=True]; the stable sorting of a
    list is unique, and this computes it. *)
Definition sort_desc (l : list (chunk_doc * float))
    : list (chunk_doc * float) :=
  fold_right insert_desc [] l.

Definition to_result (x : chunk_doc * float) : retrieved :=
  {| r_doc_id := doc_id x.1;
     r_chunk_id := chunk_id x.1;
     r_text := text x.1;
     r_metadata := default ∅ (metadata x.1);
     similarity_score := x.2 |}.

(** The part of [_cosine_similarity_search] after the query. *)
Definition rank (E : env) (query_embedding : list float) (top_k : Z)
    (chunks : list (chunk_doc * list float)) : result (list retrieved) :=
  match chunks with
  | [] => Ok []
  | _ :: _ =>
      let query_norm := np_norm E query_embedding in
      match similarities E query_embedding query_norm chunks with
      | Raise e => Raise e
      | Ok sims => Ok (List.map to_result (Py.slice (sort_desc sims) 0 top_k))
      end
  end.

(** [RAGRetriever._cosine_similarity_search] *)
Definition cosine_similarity_search (E : env) (query_embedding : list float)
    (top_k : Z) : M (list retrieved) :=
  let* _ := mongo_call E in
  fun w => (rank E query_embedding top_k (with_embedding (chunks_coll w)), w).

(** [EmbeddingGenerator.embed_text]: the exception is logged and raised
    again. *)
Definition embed_text (E : env) (text : string) : M (list float) :=
  fun w => (embeddings E (now w) text, tick w).

(** [RAGRetriever.retrieve] *)
Definition retrieve (E : env) (fact_text : string) (top_k : option Z)
    : M (list retrieved) :=
  let top_k := default Config.TOP_K_RETRIEVAL top_k in
  let* query_embedding := embed_text E fact_text in
  cosine_similarity_search E query_embedding top_k.

End Retriever.

(** ** Text helpers *)

Definition dq : string := String "034"%char EmptyString.
Definition nl : string := String "010"%char EmptyString.

(** [sep.join(parts)] *)
Fixpoint join (sep : string) (parts : list string) : string :=
  match parts with
  | [] => EmptyString
  | [p] => p
  | p :: rest => p +:+ sep +:+ join sep rest
  end.

(** [str(v)], as an f-string renders a value. *)
Definition fstr (E : env) (v : value) : string :=
  match v with
  | VStr s => s
  | VInt z => pretty z
  | VNone => "None"
  | VBool true => "True"
  | VBool false => "False"
  | _ => py_repr E v
  end.

(** ** Phase 3: the judge client ([ollama_client.py]) *)

Module Ollama.

Definition fence : list ascii := Py.chars "```".
Definition fence_json : list ascii := Py.chars "```json".

(** [sub in s] *)
Definition contains (s sub : list ascii) : bool :=
  negb (Py.find s sub 0 =? -1).

(** The [messages] list of one request: the system prompt is sent only
    when it is given and not empty. *)
Definition request (prompt : string) (system_prompt : option string)
    : list message :=
  match system_prompt with
  | None | Some EmptyString => []
  | Some s => [ {| role := "system"; content := s |} ]
  end ++ [ {| role := "user"; content := prompt |} ].

(** [OllamaClient.generate]: an exception of the service is logged and
    raised again. *)
Definition generate (E : env) (prompt : string)
    (system_prompt : option string) : M string :=
  fun w =>
    let msgs := request prompt system_prompt in
    (chat E (now w) msgs, tick (log_request msgs w)).

(** The text handed to [json.loads]: the inside of the first fenced
    block when there is one, the whole response otherwise. *)
Definition json_text (response_text : string) : string :=
  let s := Py.chars response_text in
  if contains s fence_json then
    let start := Py.find s fence_json 0 + 7 in
    let end_ := Py.find s fence start in
    Py.str (Py.strip (Py.slice s start end_))
  else if contains s fence then
    let start := Py.find s fence 0 + 3 in
    let end_ := Py.find s fence start in
    Py.str (Py.strip (Py.slice s start end_))
  else Py.str (Py.strip s).

(** The structure returned when the last attempt does not decode. *)
Definition parse_failure : dict :=
  <["score" := VInt 50]>
  (<["confidence" := VStr "low"]>
  (<["num_supporting_sources" := VInt 0]>
  (<["num_contradicting_sources" := VInt 0]>
  (<["key_evidence" := VStr "Failed to parse LLM response"]>
  (<["supporting_papers" := VList []]>
  (<["contradicting_papers" := VList []]> ∅)))))).

(** The passes of [for attempt in range(max_retries)] from [attempt]
    on, [n] of them; after the last pass the function returns [{}]. *)
Fixpoint attempts (E : env) (prompt : string) (system_prompt : option string)
    (max_retries attempt : Z) (n : nat) : M value :=
  match n with
  | O => ret (VDict ∅)
  | S n' =>
      let* response_text := generate E prompt system_prompt in
      match json_loads E (json_text response_text) with
      | Some result => ret result
      | None =>
          if attempt =? max_retries - 1
          then ret (VDict parse_failure)
          else attempts E prompt system_prompt max_retries (attempt + 1) n'
      end
  end.

(** [OllamaClient.generate_json] *)
Definition generate_json (E : env) (prompt : string)
    (system_prompt : option string) (max_retries : Z) : M value :=
  attempts E prompt system_prompt max_retries 0 (Z.to_nat max_retries).

(** The default of the [max_retries] parameter. *)
Definition default_max_retries : Z := 3.

End Ollama.

(** ** The claim catalogue ([fact_loader.py]) *)

Record fact : Type := {
  fact_number : Z;
  fact_text : string;
  section : string;
  csv_file_name : string
}.

Module FactLoader.

(** [stem.replace("_", " ")] *)
Fixpoint underscores_to_spaces (s : string) : string :=
  match s with
  | EmptyString => EmptyString
  | String c s' =>
      String (if Ascii.eqb c "_"%char then " "%char else c)
             (underscores_to_spaces s')
  end.

Definition get_section_name (E : env) (stem : string) : string :=
  title E (underscores_to_spaces stem).

Definition facts_of_file (E : env) (f : csv_file) : list fact :=
  if String.eqb (name f) "README.md" then []
  else
    match rows f with
    | None => []
    | Some rs =>
        List.map (fun r => {| fact_number := Number r;
                              fact_text := fact_column r;
                              section := get_section_name E (stem f);
                              csv_file_name := name f |}) rs
    end.

(** [FactLoader.load_all_facts]: the files in name order, the rows of
    each in file order. *)
Definition load_all_facts (E : env) : M (list fact) :=
  fun w => (Ok (flat_map (facts_of_file E) (csv_dir w)), w).

(** [FactLoader.load_sample_facts] *)
Definition load_sample_facts (E : env) (n : Z) : M (list fact) :=
  let* all_facts := load_all_facts E in
  let len := Z.of_nat (List.length all_facts) in
  if len <=? n then ret all_facts
  else if n =? 0
  then raise (Exn "ZeroDivisionError" "integer division or modulo by zero")
  else
    let step := len / n in
    ret (omap (fun i => all_facts !! Z.to_nat (Z.of_nat i * step))
              (seq 0 (Z.to_nat n))).

End FactLoader.

(** ** Phase 3: the assessment agent ([assessment_agent.py]) *)

Module Agent.

Definition SYSTEM_PROMPT : string :=
  "You are a scientific literature reviewer assessing evidence for Dynamic Energy Budget (DEB) theory statements.

TASK: Assess the literature support for the given stylized fact based ONLY on the provided scientific literature excerpts.

CRITICAL RULES:
1. Base your assessment ONLY on the provided literature - do NOT use your prior knowledge
2. If literature doesn't address the fact, score appropriately low
3. Look for: direct support, indirect support, contradictions, empirical evidence, theoretical backing

SCORING SCALE (1-100):
- 1-20: No evidence or contradictory evidence found
- 21-40: Weak/indirect support, tangential mentions
- 41-60: Moderate support, some direct evidence
- 61-80: Strong support, multiple sources with good evidence
- 81-100: Very strong support, extensive evidence across multiple sources

OUTPUT FORMAT (JSON):
{
  " +:+ dq +:+ "score" +:+ dq +:+ ": <integer 1-100>,
  " +:+ dq +:+ "confidence" +:+ dq +:+ ": <" +:+ dq +:+ "low" +:+ dq
    +:+ "|" +:+ dq +:+ "medium" +:+ dq +:+ "|" +:+ dq +:+ "high" +:+ dq +:+ ">,
  " +:+ dq +:+ "num_supporting_sources" +:+ dq +:+ ": <integer>,
  " +:+ dq +:+ "num_contradicting_sources" +:+ dq +:+ ": <integer>,
  " +:+ dq +:+ "key_evidence" +:+ dq +:+ ": " +:+ dq
    +:+ "<brief summary, max 200 words>" +:+ dq +:+ ",
  " +:+ dq +:+ "supporting_papers" +:+ dq +:+ ": [" +:+ dq +:+ "<filename1>"
    +:+ dq +:+ ", " +:+ dq +:+ "<filename2>" +:+ dq +:+ ", ...],
  " +:+ dq +:+ "contradicting_papers" +:+ dq +:+ ": [" +:+ dq +:+ "<filename1>"
    +:+ dq +:+ ", ...] (if any)
}".

(** [AssessmentAgent._default_assessment] *)
Definition default_assessment (reason : string) : dict :=
  <["score" := VInt 0]>
  (<["confidence" := VStr "low"]>
  (<["num_supporting_sources" := VInt 0]>
  (<["num_contradicting_sources" := VInt 0]>
  (<["key_evidence" := VStr reason]>
  (<["supporting_papers" := VList []]>
  (<["contradicting_papers" := VList []]> ∅)))))).

(** One entry of the context, for the chunk numbered [i]. *)
Definition context_part (E : env) (i : Z) (chunk : Retriever.retrieved)
    : string :=
  let filename :=
    default (VStr "Unknown") (Retriever.r_metadata chunk !! "filename") in
  "[Document " +:+ pretty i +:+ ": " +:+ fstr E filename
    +:+ " (similarity: " +:+ format_3f E (Retriever.similarity_score chunk)
    +:+ ")]" +:+ nl +:+ Retriever.r_text chunk +:+ nl.

Fixpoint context_parts (E : env) (i : Z) (chunks : list Retriever.retrieved)
    : list string :=
  match chunks with
  | [] => []
  | chunk :: rest => context_part E i chunk :: context_parts E (i + 1) rest
  end.

(** [AssessmentAgent._build_context] *)
Definition build_context (E : env) (chunks : list Retriever.retrieved)
    : string :=
  join nl (context_parts E 1 chunks).

(** [AssessmentAgent._create_prompt] *)
Definition create_prompt (fact_number : Z) (fact_text context : string)
    : string :=
  "STYLIZED FACT #" +:+ pretty fact_number +:+ ":" +:+ nl
    +:+ dq +:+ fact_text +:+ dq +:+ nl +:+ nl
    +:+ "RELEVANT LITERATURE EXCERPTS:" +:+ nl +:+ nl
    +:+ context +:+ nl +:+ nl
    +:+ "Please assess the literature support for this fact and provide your analysis in JSON format.".

(** What [assessment["fact_number"] = ..] raises when the decoded JSON
    is not an object. *)
Definition item_assignment_error (v : value) : exn :=
  Exn "TypeError"
    match v with
    | VList _ => "list indices must be integers or slices, not str"
    | VStr _ => "'str' object does not support item assignment"
    | VInt _ => "'int' object does not support item assignment"
    | VFloat _ => "'float' object does not support item assignment"
    | VBool _ => "'bool' object does not support item assignment"
    | _ => "'NoneType' object does not support item assignment"
    end.

(** The metadata added to the judge's verdict. *)
Definition add_metadata (assessment : value) (fact_number : Z)
    (relevant_chunks : list Retriever.retrieved)
    (top : Retriever.retrieved) : M dict :=
  match assessment with
  | VDict d =>
      ret (<["top_similarity_score" :=
               VFloat (Retriever.similarity_score top)]>
           (<["retrieved_chunks_count" :=
                VInt (Z.of_nat (List.length relevant_chunks))]>
            (<["fact_number" := VInt fact_number]> d)))
  | other => raise (item_assignment_error other)
  end.

(** [AssessmentAgent.assess_fact] *)
Definition assess_fact (E : env) (f : fact) : M dict :=
  let* relevant_chunks := Retriever.retrieve E (fact_text f) None in
  match relevant_chunks with
  | [] => ret (default_assessment "No relevant literature found")
  | top :: _ =>
      let context := build_context E relevant_chunks in
      let prompt := create_prompt (fact_number f) (fact_text f) context in
      try_except
        (let* assessment :=
           Ollama.generate_json E prompt (Some SYSTEM_PROMPT)
             Ollama.default_max_retries in
         add_metadata assessment (fact_number f) relevant_chunks top)
        (fun e => ret (default_assessment ("Error: " +:+ exn_msg e)))
  end.

End Agent.

(** ** Phase 3: the checkpoint manager ([checkpoint_manager.py]) *)

Module Checkpoint.

(** [CheckpointManager.load_checkpoint]: a missing file and a file
    that does not load as a JSON object both give [None]. *)
Definition load_checkpoint : M (option dict) :=
  fun w =>
    match checkpoint_file w with
    | Contents d => (Ok (Some d), w)
    | Missing | Unreadable => (Ok None, w)
    end.

(** [CheckpointManager.save_checkpoint].  The dict is changed in place,
    so the changed dict is returned to the caller; a failed write is
    logged and leaves the file as it was. *)
Definition save_checkpoint (E : env) (checkpoint : dict) : world -> dict * world :=
  fun w =>
    let checkpoint := <["last_updated" := VStr (isoformat_now E (now w))]> checkpoint in
    let w := tick w in
    if disk E (now w)
    then (checkpoint, tick (set_checkpoint_file (Contents checkpoint) w))
    else (checkpoint, tick w).

(** [CheckpointManager.create_initial_checkpoint] *)
Definition create_initial_checkpoint (E : env) (total_facts : Z) : M dict :=
  fun w =>
    (Ok (<["last_completed_fact" := VInt 0]>
         (<["total_facts" := VInt total_facts]>
         (<["facts_processed" := VInt 0]>
         (<["failed_facts" := VList []]>
         (<["started_at" := VStr (isoformat_now E (now w))]>
         (<["last_updated" := VStr (isoformat_now E (S (now w)))]> ∅)))))),
     tick (tick w)).

(** [checkpoint["facts_processed"] += 1] *)
Definition increment (checkpoint : dict) : result dict :=
  match checkpoint !! "facts_processed" with
  | None => Raise (Exn "KeyError" "'facts_processed'")
  | Some (VInt c) => Ok (<["facts_processed" := VInt (c + 1)]> checkpoint)
  | Some (VBool b) =>
      Ok (<["facts_processed" := VInt ((if b then 1 else 0) + 1)]> checkpoint)
  | Some (VFloat x) =>
      Ok (<["facts_processed" := VFloat (x + 1)%float]> checkpoint)
  | Some _ =>
      Raise (Exn "TypeError" "unsupported operand type(s) for +=")
  end.

(** The [if not success:] block. *)
Definition record_failure (checkpoint : dict) (fact_number : Z)
    : dict * result unit :=
  let checkpoint :=
    match checkpoint !! "failed_facts" with
    | None => <["failed_facts" := VList []]> checkpoint
    | Some _ => checkpoint
    end in
  match checkpoint !! "failed_facts" with
  | Some (VList l) =>
      (<["failed_facts" := VList (l ++ [VInt fact_number])]> checkpoint, Ok tt)
  | _ =>
      (checkpoint, Raise (Exn "AttributeError" "object has no attribute 'append'"))
  end.

(** [CheckpointManager.update_checkpoint].  The dict is changed in
    place: the result carries the dict as the call leaves it, also when
    the call raises. *)
Definition update_checkpoint (E : env) (checkpoint : dict) (fact_number : Z)
    (success : bool) : world -> (dict * result unit) * world :=
  fun w =>
    let checkpoint := <["last_completed_fact" := VInt fact_number]> checkpoint in
    match increment checkpoint with
    | Raise e => ((checkpoint, Raise e), w)
    | Ok checkpoint =>
        match (if success then (checkpoint, Ok tt)
               else record_failure checkpoint fact_number) with
        | (checkpoint, Raise e) => ((checkpoint, Raise e), w)
        | (checkpoint, Ok _) =>
            let (checkpoint, w) := save_checkpoint E checkpoint w in
            ((checkpoint, Ok tt), w)
        end
    end.

End Checkpoint.

(** ** The assessments collection ([mongodb_client.py], [review_pipeline.py]) *)

Module Assessments.

(** A document matches the filter [{"fact_number": n}]. *)
Definition keyed (fact_number : Z) (doc : dict) : bool :=
  match doc !! "fact_number" with
  | Some (VInt z) => z =? fact_number
  | _ => false
  end.

(** The fields of the [$set] of the pipeline's [update_one]. *)
Definition fields (fact_number : Z) (assessment : dict)
    (fact_time : float) (created_at : string) : list (string * value) :=
  [ ("fact_number", VInt fact_number);
    ("assessment_result", VDict assessment);
    ("processing_time_seconds", VFloat fact_time);
    ("llm_model", VStr Config.LLM_MODEL);
    ("created_at", VStr created_at) ].

(** [$set]: the listed fields are written, the others stay. *)
Definition set_fields (fs : list (string * value)) (doc : dict) : dict :=
  fold_right (fun kv d => <[kv.1 := kv.2]> d) doc fs.

(** [update_one(filter, {"$set": fs}, upsert=True)] on the filter
    [{"fact_number": n}]: the first matching document is updated; when
    none matches, a document made of the filter and the fields is
    inserted at the end. *)
Fixpoint update_one (fact_number : Z) (fs : list (string * value))
    (coll : list dict) : list dict :=
  match coll with
  | [] => [set_fields fs (<["fact_number" := VInt fact_number]> ∅)]
  | doc :: rest =>
      if keyed fact_number doc
      then set_fields fs doc :: rest
      else doc :: update_one fact_number fs rest
  end.

(** The pipeline's write of one assessment. *)
Definition upsert (E : env) (fact_number : Z) (assessment : dict)
    (fact_time : float) : M unit :=
  fun w =>
    let created_at := isoformat_now E (now w) in
    let w := tick w in
    match mongo_call E w with
    | (Raise e, w) => (Raise e, w)
    | (Ok _, w) =>
        (Ok tt,
         set_assessments
           (update_one fact_number
              (fields fact_number assessment fact_time created_at)
              (assessments_coll w)) w)
    end.

(** [count_documents({"fact_number": n})] *)
Definition count (fact_number : Z) (coll : list dict) : nat :=
  List.length (List.filter (keyed fact_number) coll).

End Assessments.

(** ** The tabular report ([csv_updater.py]) *)

Module CsvUpdater.

Definition required_columns : list string :=
  [ "Literature Support Score (1-100)";
    "Number of Papers Reviewed";
    "Supporting Papers";
    "Key Evidence Summary";
    "Assessment Confidence";
    "Last Updated" ].

(** [CSVUpdater._ensure_columns], on one row. *)
Definition ensure_columns (r : csv_row) : csv_row :=
  {| Number := Number r;
     fact_column := fact_column r;
     cells := fold_right
                (fun col d => match d !! col with
                              | None => <[col := VStr EmptyString]> d
                              | Some _ => d
                              end)
                (cells r) required_columns |}.

(** [", ".join(v)]: the strings of a list, the characters of a string,
    the keys of a dict (here in the map's order); raises on anything
    else. *)
Definition join_papers (v : value) : option string :=
  match v with
  | VList l =>
      match mapM (fun x => match x with VStr s => Some s | _ => None end) l with
      | Some names => Some (join ", " names)
      | None => None
      end
  | VStr s =>
      Some (join ", " (List.map (fun c => String c EmptyString) (Py.chars s)))
  | VDict d => Some (join ", " (List.map fst (map_to_list d)))
  | _ => None
  end.

(** The cells written for one assessment. *)
Definition write_cells (assessment : dict) (papers stamp : string)
    (r : csv_row) : csv_row :=
  {| Number := Number r;
     fact_column := fact_column r;
     cells :=
       <["Last Updated" := VStr stamp]>
       (<["Assessment Confidence" :=
            default (VStr "low") (assessment !! "confidence")]>
       (<["Key Evidence Summary" :=
            default (VStr EmptyString) (assessment !! "key_evidence")]>
       (<["Supporting Papers" := VStr papers]>
       (<["Number of Papers Reviewed" :=
            default (VInt 0) (assessment !! "retrieved_chunks_count")]>
       (<["Literature Support Score (1-100)" :=
            default (VInt 0) (assessment !! "score")]> (cells r)))))) |}.

(** The first row whose [Number] is the claim's is rewritten. *)
Fixpoint update_first (fact_number : Z) (f : csv_row -> csv_row)
    (rs : list csv_row) : list csv_row :=
  match rs with
  | [] => []
  | r :: rest =>
      if Number r =? fact_number then f r :: rest
      else r :: update_first fact_number f rest
  end.

Definition has_fact (fact_number : Z) (f : csv_file) : bool :=
  negb (String.eqb (name f) "README.md") &&
  match rows f with
  | Some rs => existsb (fun r => Number r =? fact_number) rs
  | None => false
  end.

(** The first table that has the claim is rewritten
    ([_find_csv_for_fact], then the update). *)
Fixpoint update_dir (fact_number : Z) (f : csv_row -> csv_row)
    (dir : list csv_file) : list csv_file :=
  match dir with
  | [] => []
  | file :: rest =>
      if has_fact fact_number file
      then {| name := name file; stem := stem file;
              rows := option_map
                        (fun rs => update_first fact_number f
                                     (List.map ensure_columns rs))
                        (rows file) |} :: rest
      else file :: update_dir fact_number f rest
  end.

(** [CSVUpdater.update_fact].  Every exception is caught and logged
    inside, so the call returns in all cases; an assessment whose
    papers cannot be joined leaves the tables as they were. *)
Definition update_fact (E : env) (fact_number : Z) (assessment : dict)
    : world -> world :=
  fun w =>
    if existsb (has_fact fact_number) (csv_dir w) then
      match join_papers (default (VList []) (assessment !! "supporting_papers")) with
      | None => w
      | Some papers =>
          tick (set_csv_dir
                  (update_dir fact_number
                     (write_cells assessment papers (strftime_now E (now w)))
                     (csv_dir w)) w)
      end
    else w.

End CsvUpdater.

(** ** Phase 3: the review pipeline ([review_pipeline.py]) *)

Module Pipeline.

(** [n > last_completed] for an [int] and a value read from the
    checkpoint. *)
Definition greater (E : env) (n : Z) (last_completed : value) : result bool :=
  match last_completed with
  | VInt c => Ok (c <? n)
  | VBool b => Ok ((if b then 1 else 0) <? n)
  | VFloat x => Ok (int_gt_float E n x)
  | _ => Raise (Exn "TypeError" "'>' not supported between instances")
  end.

(** [[f for f in facts if f["fact_number"] > last_completed]] *)
Fixpoint facts_to_process (E : env) (facts : list fact)
    (last_completed : value) : result (list fact) :=
  match facts with
  | [] => Ok []
  | f :: rest =>
      match greater E (fact_number f) last_completed with
      | Raise e => Raise e
      | Ok keep =>
          match facts_to_process E rest last_completed with
          | Raise e => Raise e
          | Ok l => Ok (if keep then f :: l else l)
          end
      end
  end.

(** [time.time()] *)
Definition read_clock (E : env) : world -> float * world :=
  fun w => (time_time E (now w), tick w).

(** The body of the [try] block for one claim.  The checkpoint is the
    dict as the block leaves it. *)
Definition try_block (E : env) (f : fact) (checkpoint : dict)
    : world -> (dict * result unit) * world :=
  fun w =>
    let fact_number := fact_number f in
    let (fact_start, w) := read_clock E w in
    match Agent.assess_fact E f (emit (Assess fact_number) w) with
    | (Raise e, w) => ((checkpoint, Raise e), w)
    | (Ok assessment, w) =>
        let (t, w) := read_clock E w in
        let fact_time := (t - fact_start)%float in
        match Assessments.upsert E fact_number assessment fact_time
                (emit (Upsert fact_number) w) with
        | (Raise e, w) => ((checkpoint, Raise e), w)
        | (Ok _, w) =>
            let w := CsvUpdater.update_fact E fact_number assessment
                       (emit (Mirror fact_number) w) in
            Checkpoint.update_checkpoint E checkpoint fact_number true
              (emit (Advance fact_number true) w)
        end
    end.

(** One pass of [for fact in facts_to_process]: the [try] block and,
    when it raises, the [except Exception] handler. *)
Definition process_fact (E : env) (f : fact) (checkpoint : dict)
    : world -> (dict * result unit) * world :=
  fun w =>
    match try_block E f checkpoint w with
    | ((checkpoint, Ok _), w) => ((checkpoint, Ok tt), w)
    | ((checkpoint, Raise _), w) =>
        Checkpoint.update_checkpoint E checkpoint (fact_number f) false
          (emit (Advance (fact_number f) false) w)
    end.

(** The [for] loop.  An exception raised by the handler itself leaves
    the loop and the run. *)
Fixpoint review_loop (E : env) (facts : list fact) (checkpoint : dict)
    : M dict :=
  match facts with
  | [] => ret checkpoint
  | f :: rest =>
      fun w =>
        match process_fact E f checkpoint w with
        | ((checkpoint, Ok _), w) => review_loop E rest checkpoint w
        | ((_, Raise e), w) => (Raise e, w)
        end
  end.

(** Whether [last_completed + 1], which the first log line of the run
    prints, is defined. *)
Definition can_add_one (last_completed : value) : bool :=
  match last_completed with
  | VInt _ | VBool _ | VFloat _ => true
  | _ => false
  end.

(** [len(checkpoint.get('failed_facts', []))] in the final summary. *)
Definition failed_count (checkpoint : dict) : result Z :=
  match default (VList []) (checkpoint !! "failed_facts") with
  | VList l => Ok (Z.of_nat (List.length l))
  | VStr s => Ok (Py.len s)
  | VDict d => Ok (Z.of_nat (size d))
  | _ => Raise (Exn "TypeError" "object has no len()")
  end.

(** The run from the loaded catalogue on.  It returns the checkpoint
    dict as the run leaves it. *)
Definition run_on (E : env) (facts : list fact) : M dict :=
  let* loaded := Checkpoint.load_checkpoint in
  let* checkpoint :=
    match loaded with
    | Some c => ret c
    | None =>
        Checkpoint.create_initial_checkpoint E (Z.of_nat (List.length facts))
    end in
  let last_completed :=
    default (VInt 0) (checkpoint !! "last_completed_fact") in
  match facts_to_process E facts last_completed with
  | Raise e => raise e
  | Ok pending =>
      if negb (can_add_one last_completed)
      then raise (Exn "TypeError" "unsupported operand type(s) for +")
      else
        let* start_time := fun w => let (t, w) := read_clock E w in (Ok t, w) in
        let* checkpoint := review_loop E pending checkpoint in
        let* end_time := fun w => let (t, w) := read_clock E w in (Ok t, w) in
        match failed_count checkpoint with
        | Raise e => raise e
        | Ok _ =>
            let* _ := mongo_call E in
            ret checkpoint
        end
  end.

(** [ReviewPipeline.run] *)
Definition run (E : env) (test_mode : bool) (test_count : Z) : M dict :=
  let* facts :=
    if test_mode then FactLoader.load_sample_facts E test_count
    else FactLoader.load_all_facts E in
  run_on E facts.

End Pipeline.

(** ** Example environments *)

Module Example.

(** The one JSON document the examples decode. *)
Definition verdict_text : string :=
  "{" +:+ dq +:+ "score" +:+ dq +:+ ": 80}".

Definition verdict : value := VDict (<["score" := VInt 80]> ∅).

(** A decoder that knows [verdict_text] and rejects every other text
    the examples hand to it, none of which is JSON. *)
Definition loads (s : string) : option value :=
  if String.eqb s verdict_text then Some verdict else None.

(** An environment in which every service answers: the embedding of
    every text is [(1, 0)], the judge answers [judge t] to the request
    made at time [t]. *)
Definition services (judge : nat -> result string) : env :=
  {| np_dot := Np.dot;
     np_norm := Np.norm;
     embeddings := fun _ _ => Ok [1%float; 0%float];
     chat := fun t _ => judge t;
     json_loads := loads;
     time_time := fun t => Nat.iter t (fun x => x + 1)%float 0%float;
     isoformat_now := fun t => "T" +:+ pretty (Z.of_nat t);
     strftime_now := fun t => "T" +:+ pretty (Z.of_nat t);
     mongo := fun _ => None;
     disk := fun _ => true;
     format_3f := fun _ => "0.000";
     py_repr := fun _ => "?";
     int_gt_float := fun _ _ => false;
     title := fun s => s |}.

(** A judge that never produces JSON. *)
Definition rambling : env := services (fun _ => Ok "I cannot say.").

(** A judge that answers with the verdict in a fenced block. *)
Definition fenced : env :=
  services (fun _ => Ok ("```json" +:+ nl +:+ verdict_text +:+ nl +:+ "```")).


Definition chunk_of (id : Z) (text : string) (v : list float) : chunk_doc :=
  {| doc_id := "doc"; chunk_id := id; text := text;
     metadata := Some (<["filename" := VStr "paper.pdf"]> ∅);
     embedding := Some v |}.

(** Four indexed chunks: one with a zero vector, two with the same
    direction, one at an angle. *)
Definition indexed : list chunk_doc :=
  [ chunk_of 0 "zero" [0%float; 0%float];
    chunk_of 1 "aligned" [2%float; 0%float];
    chunk_of 2 "angle" [3%float; 4%float];
    chunk_of 3 "aligned too" [5%float; 0%float] ].

Definition row (n : Z) : csv_row :=
  {| Number := n; fact_column := "fact " +:+ pretty n; cells := ∅ |}.

(** A catalogue of one table with the claims 1 to 10. *)
Definition catalogue : list csv_file :=
  [ {| name := "energy.csv"; stem := "energy";
       rows := Some (List.map row [1; 2; 3; 4; 5; 6; 7; 8; 9; 10]) |} ].

(** The checkpoint of a run that was stopped after claim 5. *)
Definition after_five : dict :=
  <["last_completed_fact" := VInt 5]>
  (<["total_facts" := VInt 10]>
  (<["facts_processed" := VInt 5]>
  (<["failed_facts" := VList []]>
  (<["started_at" := VStr "T0"]>
  (<["last_updated" := VStr "T9"]> ∅))))).

Definition initial (chunks : list chunk_doc) (f : file) : world :=
  {| now := 0; judge_log := []; chunks_coll := chunks;
     assessments_coll := []; csv_dir := catalogue;
     checkpoint_file := f; trace := [] |}.

Definition claim (n : Z) : fact :=
  {| fact_number := n; fact_text := "fact " +:+ pretty n;
     section := "energy"; csv_file_name := "energy.csv" |}.

End Example.

(** ** Phases 1 and 2: the corpus in the database *)

(** [range(start, stop, step)] *)
Definition py_range (start stop step : Z) : result (list Z) :=
  if step =? 0 then Raise (Exn "ValueError" "range() arg 3 must not be zero")
  else
    let count :=
      if 0 <? step then (stop - start + step - 1) / step
      else (start - stop - step - 1) / (- step) in
    Ok (List.map (fun k => start + Z.of_nat k * step) (seq 0 (Z.to_nat count))).

Module Corpus.

Inductive status : Type := Pending | Success | Failed.

(** A document of the [documents] collection, with the keys
    [extract_text] gives it. *)
Record document : Type := {
  filepath : string;
  filename : string;
  doc_id : string;
  extracted_text : string;
  page_count : Z;
  extraction_status : status;
  error_message : option string;
  created_at : string
}.

(** A chunk as [chunk_document] returns it: the chunk of [chunk_text]
    with the document's id. *)
Record doc_chunk : Type := {
  piece : Chunker.chunk;
  owner : string
}.

(** A document of the [document_chunks] collection: its [_id], the
    chunk, and the embedding once it is set. *)
Record stored_chunk : Type := {
  oid : nat;
  body : doc_chunk;
  vector : option (list float)
}.

(** A document of the [facts] collection. *)
Record stored_fact : Type := {
  indexed : fact;
  fact_vector : option (list float)
}.

(** The database as phases 1 and 2 see it, and the logical clock. *)
Record library : Type := {
  clock : nat;
  documents : list document;
  (** whether the unique index on [documents.doc_id] exists *)
  unique_doc_id : bool;
  chunks : list stored_chunk;
  (** the next [_id] the driver gives to a chunk *)
  next_oid : nat;
  facts : list stored_fact
}.

Definition tick (s : library) : library :=
  {| clock := S (clock s); documents := documents s;
     unique_doc_id := unique_doc_id s; chunks := chunks s;
     next_oid := next_oid s; facts := facts s |}.

Definition set_documents (d : list document) (s : library) : library :=
  {| clock := clock s; documents := d;
     unique_doc_id := unique_doc_id s; chunks := chunks s;
     next_oid := next_oid s; facts := facts s |}.

Definition set_chunks (c : list stored_chunk) (n : nat) (s : library)
    : library :=
  {| clock := clock s; documents := documents s;
     unique_doc_id := unique_doc_id s; chunks := c;
     next_oid := n; facts := facts s |}.

Definition set_facts (f : list stored_fact) (s : library) : library :=
  {| clock := clock s; documents := documents s;
     unique_doc_id := unique_doc_id s; chunks := chunks s;
     next_oid := next_oid s; facts := f |}.

(** Computations on the library that may raise. *)
Definition L (A : Type) : Type := library -> result A * library.

Definition ret {A : Type} (a : A) : L A := fun s => (Ok a, s).

Definition raise {A : Type} (e : exn) : L A := fun s => (Raise e, s).

Definition bind {A B : Type} (m : L A) (k : A -> L B) : L B :=
  fun s =>
    match m s with
    | (Ok a, s') => k a s'
    | (Raise e, s') => (Raise e, s')
    end.

Notation "'let+' x ':=' m 'in' k" := (bind m (fun x => k))
  (at level 10, x binder, k at level 200).

(** [for x in l: body x] *)
Fixpoint for_each {A : Type} (l : list A) (body : A -> L unit) : L unit :=
  match l with
  | [] => ret tt
  | x :: rest => let+ _ := body x in for_each rest body
  end.

(** A database operation: the server answers or the driver raises. *)
Definition db (E : env) : L unit :=
  fun s =>
    match mongo E (clock s) with
    | None => (Ok tt, tick s)
    | Some e => (Raise e, tick s)
    end.

(** The chunk documents as phase 3 reads them. *)
Definition as_chunk_doc (c : stored_chunk) : chunk_doc :=
  Build_chunk_doc (owner (body c)) (Chunker.chunk_id (piece (body c)))
    (Chunker.text (piece (body c))) (Chunker.metadata (piece (body c)))
    (vector c).

End Corpus.

(** ** Phase 1: extraction ([pdf_extractor.py], [extraction_pipeline.py]) *)

Module Extraction.
Import Corpus.

(** A path, by what the code reads of it: [str(p)], [p.name] and
    [p.parent.name]. *)
Record pdf_path : Type := {
  path_str : string;
  path_name : string;
  parent_name : string
}.

(** The PDF library: [fitz.open] on a path raises or gives the pages,
    and [get_text] on a page raises or gives its text. *)
Definition reader : Type := string -> result (list (result string)).

(** [f"[Page {page_num + 1}]\n{text}"] *)
Definition page_part (number : Z) (text : string) : string :=
  "[Page " +:+ pretty number +:+ "]" +:+ nl +:+ text.

(** [text.strip()] is empty. *)
Definition blank (text : string) : bool :=
  match Py.strip (Py.chars text) with
  | [] => true
  | _ :: _ => false
  end.

(** The loop over the pages, from the page numbered [number] on. *)
Fixpoint read_pages (pages : list (result string)) (number : Z)
    : result (list string) :=
  match pages with
  | [] => Ok []
  | Raise e :: _ => Raise e
  | Ok text :: rest =>
      match read_pages rest (number + 1) with
      | Raise e => Raise e
      | Ok parts =>
          Ok (if blank text then parts else page_part number text :: parts)
      end
  end.

(** [PDFExtractor.extract_text].  It catches every exception, so it
    returns in all cases. *)
Definition extract_text (E : env) (R : reader) (p : pdf_path)
    : library -> document * library :=
  fun s =>
    let result text pages status message :=
      {| filepath := path_str p; filename := path_name p;
         doc_id := parent_name p; extracted_text := text;
         page_count := pages; extraction_status := status;
         error_message := message;
         created_at := isoformat_now E (clock s) |} in
    (match R (path_str p) with
     | Raise e => result EmptyString 0 Failed (Some (exn_msg e))
     | Ok pages =>
         let count := Z.of_nat (List.length pages) in
         match read_pages pages 1 with
         | Raise e => result EmptyString count Failed (Some (exn_msg e))
         | Ok parts => result (join (nl +:+ nl) parts) count Success None
         end
     end, tick s).

(** [PDFExtractor.extract_batch] *)
Fixpoint extract_batch (E : env) (R : reader) (paths : list pdf_path)
    : library -> list document * library :=
  fun s =>
    match paths with
    | [] => ([], s)
    | p :: rest =>
        let (d, s) := extract_text E R p s in
        let (ds, s) := extract_batch E R rest s in
        (d :: ds, s)
    end.

(** The server's part of [insert_many]: the documents are written in
    order, and the first one whose [doc_id] the unique index refuses
    stops the write. *)
Fixpoint insert_ordered (batch : list document) : L unit :=
  match batch with
  | [] => ret tt
  | d :: rest =>
      fun s =>
        if unique_doc_id s
           && existsb (fun d' => String.eqb (doc_id d') (doc_id d)) (documents s)
        then (Raise (Exn "BulkWriteError" "batch op errors occurred"), s)
        else insert_ordered rest (set_documents (documents s ++ [d]) s)
  end.

(** [documents.insert_many(batch)]: the driver refuses an empty list. *)
Definition insert_many (E : env) (batch : list document) : L unit :=
  match batch with
  | [] => raise (Exn "TypeError" "documents must be a non-empty list")
  | _ :: _ => let+ _ := db E in insert_ordered batch
  end.

Definition succeeded (d : document) : bool :=
  match extraction_status d with
  | Success => true
  | Pending | Failed => false
  end.

(** [find_one({"filepath": str(pdf_path)})] finds a document. *)
Definition stored (p : pdf_path) (s : library) : bool :=
  existsb (fun d => String.eqb (filepath d) (path_str p)) (documents s).

(** The loop of [extract_and_store]; it returns the batch not yet
    written. *)
Fixpoint store_loop (E : env) (R : reader) (paths : list pdf_path)
    (batch_size : Z) (batch : list document) : L (list document) :=
  match paths with
  | [] => ret batch
  | p :: rest =>
      let+ _ := db E in
      fun s =>
        if stored p s then store_loop E R rest batch_size batch s
        else
          let (result, s) := extract_text E R p s in
          let batch := if succeeded result then batch ++ [result] else batch in
          if batch_size <=? Z.of_nat (List.length batch)
          then (let+ _ := insert_many E batch in
                store_loop E R rest batch_size []) s
          else store_loop E R rest batch_size batch s
  end.

(** [ExtractionPipeline.extract_and_store]; the last database call is
    the count of the final log lines. *)
Definition extract_and_store (E : env) (R : reader) (paths : list pdf_path)
    (batch_size : Z) : L unit :=
  let+ batch := store_loop E R paths batch_size [] in
  let+ _ := match batch with
            | [] => ret tt
            | _ :: _ => insert_many E batch
            end in
  db E.

(** The default of the [batch_size] parameter. *)
Definition default_batch_size : Z := 10.

End Extraction.

(** ** Phase 2: indexing ([document_processor.py],
    [embedding_generator.py], [indexing_pipeline.py]) *)

Module Indexing.
Import Corpus.

(** The [metadata] dict [chunk_document] builds. *)
Definition metadata_of (d : document) : dict :=
  <["doc_id" := VStr (doc_id d)]>
  (<["filename" := VStr (filename d)]>
  (<["filepath" := VStr (filepath d)]>
  (<["page_count" := VInt (page_count d)]> ∅))).

(** [DocumentChunker.chunk_document], with the fuel of [chunk_text]. *)
Definition chunk_document (fuel : nat) (self : Chunker.DocumentChunker)
    (d : document) : option (list doc_chunk) :=
  match extracted_text d with
  | EmptyString => Some []
  | text =>
      option_map
        (List.map (fun c => {| piece := c; owner := doc_id d |}))
        (Chunker.chunk_text fuel self text (Some (metadata_of d)))
  end.

(** [EmbeddingGenerator.embed_text] *)
Definition embed_text (E : env) (text : string) : L (list float) :=
  fun s => (embeddings E (clock s) text, tick s).

(** [[0.0] * 768] *)
Definition zero_vector : list float := repeat 0%float 768.

(** The inner loop of [embed_batch]: a text whose embedding raises
    gets the zero vector. *)
Fixpoint embed_into (E : env) (batch : list string)
    (embeddings : list (list float)) : L (list (list float)) :=
  match batch with
  | [] => ret embeddings
  | text :: rest =>
      fun s =>
        match embed_text E text s with
        | (Ok v, s) => embed_into E rest (embeddings ++ [v]) s
        | (Raise _, s) => embed_into E rest (embeddings ++ [zero_vector]) s
        end
  end.

(** The outer loop of [embed_batch], over the starts of the batches. *)
Fixpoint embed_batches (E : env) (texts : list string) (batch_size : Z)
    (starts : list Z) (embeddings : list (list float))
    : L (list (list float)) :=
  match starts with
  | [] => ret embeddings
  | i :: rest =>
      let+ embeddings :=
        embed_into E (Py.slice texts i (i + batch_size)) embeddings in
      embed_batches E texts batch_size rest embeddings
  end.

(** [EmbeddingGenerator.embed_batch] *)
Definition embed_batch (E : env) (texts : list string) (batch_size : Z)
    : L (list (list float)) :=
  match py_range 0 (Z.of_nat (List.length texts)) batch_size with
  | Raise e => raise e
  | Ok starts => embed_batches E texts batch_size starts []
  end.

(** [EmbeddingGenerator.get_embedding_dimension] *)
Definition get_embedding_dimension (E : env) : L Z :=
  let+ v := embed_text E "test" in ret (Z.of_nat (List.length v)).

(** [count_documents({"doc_id": id}) > 0] on the chunks. *)
Definition chunked (id : string) (s : library) : bool :=
  existsb (fun c => String.eqb (owner (body c)) id) (chunks s).

(** [chunks.insert_many(new)]: the driver gives each chunk the next
    [_id]; none has an embedding yet. *)
Definition insert_chunks (E : env) (new : list doc_chunk) : L unit :=
  let+ _ := db E in
  fun s =>
    (Ok tt,
     set_chunks
       (chunks s
        ++ imap (fun i c => {| oid := next_oid s + i; body := c;
                                vector := None |}) new)
       (next_oid s + List.length new) s).

(** The loop of [chunk_documents].  [None]: the chunker is still
    running on some document when its fuel is spent. *)
Fixpoint chunk_each (E : env) (fuel : nat) (self : Chunker.DocumentChunker)
    (docs : list document) (s : library) : option (result unit * library) :=
  match docs with
  | [] => Some (Ok tt, s)
  | d :: rest =>
      match db E s with
      | (Raise e, s) => Some (Raise e, s)
      | (Ok _, s) =>
          if chunked (doc_id d) s then chunk_each E fuel self rest s
          else
            match chunk_document fuel self d with
            | None => None
            | Some [] => chunk_each E fuel self rest s
            | Some new =>
                match insert_chunks E new s with
                | (Raise e, s) => Some (Raise e, s)
                | (Ok _, s) => chunk_each E fuel self rest s
                end
            end
      end
  end.

(** [IndexingPipeline.chunk_documents] *)
Definition chunk_documents (E : env) (fuel : nat)
    (self : Chunker.DocumentChunker) (s : library)
    : option (result unit * library) :=
  match db E s with
  | (Raise e, s) => Some (Raise e, s)
  | (Ok _, s) =>
      chunk_each E fuel self (List.filter Extraction.succeeded (documents s)) s
  end.

Definition pending (c : stored_chunk) : bool :=
  match vector c with
  | None => true
  | Some _ => false
  end.

(** [update_one({"_id": id}, {"$set": {"embedding": v}})] on the
    documents: the first one with the [_id] gets the embedding. *)
Fixpoint set_vector (id : nat) (v : list float) (coll : list stored_chunk)
    : list stored_chunk :=
  match coll with
  | [] => []
  | c :: rest =>
      if Nat.eqb (oid c) id
      then {| oid := oid c; body := body c; vector := Some v |} :: rest
      else c :: set_vector id v rest
  end.

Definition update_vector (E : env) (id : nat) (v : list float) : L unit :=
  let+ _ := db E in
  fun s => (Ok tt, set_chunks (set_vector id v (chunks s)) (next_oid s) s).

(** One pass of the loop of [generate_chunk_embeddings], on the batch
    that starts at [i]. *)
Definition embed_chunks (E : env) (todo : list stored_chunk)
    (batch_size i : Z) : L unit :=
  let batch := Py.slice todo i (i + batch_size) in
  let texts := List.map (fun c => Chunker.text (piece (body c))) batch in
  let+ embeddings := embed_batch E texts 10 in
  for_each (zip batch embeddings)
    (fun ce => update_vector E (oid ce.1) ce.2).

(** [IndexingPipeline.generate_chunk_embeddings] *)
Definition generate_chunk_embeddings (E : env) (batch_size : Z) : L unit :=
  let+ _ := db E in
  fun s =>
    match List.filter pending (chunks s) with
    | [] => (Ok tt, s)
    | todo =>
        match py_range 0 (Z.of_nat (List.length todo)) batch_size with
        | Raise e => (Raise e, s)
        | Ok starts => for_each starts (embed_chunks E todo batch_size) s
        end
    end.

(** The default of its [batch_size] parameter. *)
Definition default_batch_size : Z := 50.

(** [facts.find_one({"fact_number": n})] *)
Definition find_fact (n : Z) (coll : list stored_fact) : option stored_fact :=
  List.find (fun f => fact_number (indexed f) =? n) coll.

(** [update_one({"fact_number": n}, {"$set": fact}, upsert=True)] with
    the embedding among the fields set. *)
Fixpoint upsert_fact (f : fact) (v : list float) (coll : list stored_fact)
    : list stored_fact :=
  match coll with
  | [] => [ {| indexed := f; fact_vector := Some v |} ]
  | g :: rest =>
      if fact_number (indexed g) =? fact_number f
      then {| indexed := f; fact_vector := Some v |} :: rest
      else g :: upsert_fact f v rest
  end.

(** One pass of the loop of [index_facts]: an exception of the
    embedding call is not caught. *)
Definition index_fact (E : env) (f : fact) : L unit :=
  let+ _ := db E in
  fun s =>
    match find_fact (fact_number f) (facts s) with
    | Some {| fact_vector := Some _ |} => (Ok tt, s)
    | _ =>
        (let+ v := embed_text E (fact_text f) in
         let+ _ := db E in
         fun s => (Ok tt, set_facts (upsert_fact f v (facts s)) s)) s
    end.

(** [IndexingPipeline.index_facts], from the loaded catalogue on. *)
Definition index_facts (E : env) (catalogue : list fact) : L unit :=
  for_each catalogue (index_fact E).

End Indexing.

(** * Vocabulary of the statements *)

Section ChunkerTerms.
Import Chunker.


Definition looping_text : string := "xxxxxxxx. xxxxxxxxxxxxxxxx".

Definition looping_chunker : DocumentChunker :=
  {| chunk_size := 10; chunk_overlap := 3 |}.

(** A text of 1203 characters whose only sentence end is at offset 1. *)
Definition one_early_sentence : string :=
  Py.str (Py.chars "a. " ++ repeat "x"%char 1200).

End ChunkerTerms.

Section CheckpointTerms.
Import Checkpoint.

(** The failed facts a checkpoint records: none when the key is
    absent; undefined when the key holds something else than a list. *)
Definition failed_list (cp : dict) : option (list value) :=
  match cp !! "failed_facts" with
  | None => Some []
  | Some (VList l) => Some l
  | Some _ => None
  end.

(** The keys [update_checkpoint] writes. *)
Definition touched : list string :=
  [ "last_completed_fact"; "facts_processed"; "failed_facts"; "last_updated" ].

(** The dict [update_checkpoint] leaves when it returns. *)
Definition advanced (E : env) (cp : dict) (n : Z) (success : bool)
    (c : Z) (l : list value) (w : world) : dict :=
  let cp := <["facts_processed" := VInt (c + 1)]>
              (<["last_completed_fact" := VInt n]> cp) in
  <["last_updated" := VStr (isoformat_now E (now w))]>
    (if success then cp else <["failed_facts" := VList (l ++ [VInt n])]> cp).

End CheckpointTerms.

Section JudgeTerms.
Import Ollama.

(** The judge answers every request with a text that does not decode. *)
Definition undecodable (E : env) : Prop :=
  forall t msgs, exists text,
    chat E t msgs = Ok text /\ json_loads E (json_text text) = None.

(** C8 as the specification words it: after the first call the judge is
    called again [max_retries] times before the default is returned. *)
Definition retries_after_first_call : Prop :=
  forall (E : env) (prompt : string) (sys : option string)
         (max_retries : Z) (w : world),
    undecodable E -> 0 <= max_retries ->
    let (r, w') := generate_json E prompt sys max_retries w in
    r = Ok (VDict parse_failure) /\
    List.length (judge_log w')
      = (List.length (judge_log w) + 1 + Z.to_nat max_retries)%nat.

End JudgeTerms.

Abbreviation scored := (chunk_doc * float)%type.

Section RankingTerms.
Import Retriever.

(** [x] may stand before [y] in a descending list: it is not smaller. *)
Definition not_below (x y : scored) : Prop := (x.2 <? y.2)%float = false.

(** Two scores tie: neither is smaller than the other. *)
Definition ties (s : float) (x : scored) : bool :=
  negb (s <? x.2)%float && negb (x.2 <? s)%float.

(** [<] orders the scores of the list: it is asymmetric, and a score
    between two others is above the lower or below the higher.  This
    is so for every list of numbers; it fails only when a score is not a
    number. *)
Definition ordered_scores (l : list float) : bool :=
  forallb (fun x =>
    forallb (fun y =>
      implb (x <? y)%float (negb (y <? x)%float) &&
      forallb (fun z =>
        implb (x <? z)%float ((x <? y)%float || (y <? z)%float)) l) l) l.

End RankingTerms.

Section IndexTerms.
Import Retriever.


Definition example_index : world := Example.initial Example.indexed Missing.

End IndexTerms.

Section AgentTerms.
Import Agent.

(** The verdict of the judge with the metadata of the retrieval. *)
Definition with_metadata (d : dict) (f : fact)
    (chunks : list Retriever.retrieved) (top : Retriever.retrieved) : dict :=
  <["top_similarity_score" := VFloat (Retriever.similarity_score top)]>
    (<["retrieved_chunks_count" := VInt (Z.of_nat (List.length chunks))]>
       (<["fact_number" := VInt (fact_number f)]> d)).

End AgentTerms.

(** How the processing of one claim ended. *)
Inductive outcome : Type :=
  | Completed       (* assessed, stored, mirrored, advanced as a success *)
  | StoreFailed     (* assessed; the write to the collection raised *)
  | AssessFailed.   (* the assessment raised *)

(** The calls the loop makes for a claim, by outcome. *)
Definition events_of (n : Z) (o : outcome) : list event :=
  match o with
  | Completed => [Assess n; Upsert n; Mirror n; Advance n true]
  | StoreFailed => [Assess n; Upsert n; Advance n false]
  | AssessFailed => [Assess n; Advance n false]
  end.

(** The failed facts after a claim with the given outcome. *)
Definition failed_after (l : list value) (n : Z) (o : outcome) : list value :=
  match o with
  | Completed => l
  | StoreFailed | AssessFailed => l ++ [VInt n]
  end.

(** A checkpoint record: the counter is an integer and the failed facts
    are a list (or not there yet). *)
Definition well_formed (cp : dict) : Prop :=
  (exists c, cp !! "facts_processed" = Some (VInt c)) /\
  (exists l, failed_list cp = Some l).

(** The database server answers every call, and the embedding service
    answers every call with a vector that has the shape of the indexed
    vectors, so that every dot product is defined.  The judge is not part
    of this. *)
Definition services_answer (E : env) (index : list chunk_doc) : Prop :=
  (forall t, mongo E t = None) /\
  (forall t s, exists v,
      embeddings E t s = Ok v /\
      forall c u, In c index -> embedding c = Some u ->
                  exists d, np_dot E v u = Ok d).

Section BoundaryTerms.
Import Chunker.


End BoundaryTerms.

Section RunTerms.
Import Pipeline.

(** The catalogue of claims 1 to 10, the four indexed chunks and the
    checkpoint left after claim 5. *)
Definition resumed : world :=
  Example.initial Example.indexed (Contents Example.after_five).


(** An environment in which the database refuses every operation. *)
Definition database_down : env :=
  {| np_dot := Np.dot; np_norm := Np.norm;
     embeddings := fun _ _ => Ok [1%float; 0%float];
     chat := fun _ _ => Ok Example.verdict_text;
     json_loads := Example.loads;
     time_time := fun _ => 0%float;
     isoformat_now := fun t => "T" +:+ pretty (Z.of_nat t);
     strftime_now := fun t => "T" +:+ pretty (Z.of_nat t);
     mongo := fun _ => Some (Exn "ServerSelectionTimeoutError" "no server");
     disk := fun _ => true;
     format_3f := fun _ => "0.000";
     py_repr := fun _ => "?";
     int_gt_float := fun _ _ => false;
     title := fun s => s |}.

End RunTerms.

Section QueryTerms.
Import Retriever.

Definition example_query : list float := [1%float; 0%float].

(** The candidates of [example_query] on the four indexed chunks, in
    the order of the collection: the zero vector is not among them. *)
Definition example_sims : list scored :=
  [ (Example.chunk_of 1 "aligned" [2; 0]%float, 1%float);
    (Example.chunk_of 2 "angle" [3; 4]%float, (3 / 5)%float);
    (Example.chunk_of 3 "aligned too" [5; 0]%float, 1%float) ].

End QueryTerms.

Section RetryTerms.
Import Ollama.

(** The world after [k] more requests [msgs] to the judge: the clock has
    advanced by [k] and the log has [k] more entries; nothing else has
    changed. *)
Definition after_requests (msgs : list message) (k : nat) (w : world) : world :=
  {| now := now w + k; judge_log := judge_log w ++ repeat msgs k;
     chunks_coll := chunks_coll w; assessments_coll := assessments_coll w;
     csv_dir := csv_dir w; checkpoint_file := checkpoint_file w;
     trace := trace w |}.

(** The [k] answers of the judge to [msgs] from time [t] on are texts
    that do not decode. *)
Definition undecodable_until (E : env) (msgs : list message) (t k : nat)
    : Prop :=
  forall i, (i < k)%nat ->
    exists text,
      chat E (t + i) msgs = Ok text /\ json_loads E (json_text text) = None.

(** A judge that rambles [k] times and then answers [answer]. *)
Definition eventually (k : nat) (answer : result string) : env :=
  Example.services
    (fun t => if (t <? k)%nat then Ok "I cannot say." else answer).

End RetryTerms.

Section VerdictTerms.
Import Agent.

(** The prompt [assess_fact] sends for a claim and its retrieved
    chunks. *)
Definition judge_prompt (E : env) (f : fact)
    (chunks : list Retriever.retrieved) : string :=
  create_prompt (fact_number f) (fact_text f) (build_context E chunks).

(** The call to the judge that [assess_fact] makes. *)
Definition judge_call (E : env) (f : fact)
    (chunks : list Retriever.retrieved) : M value :=
  Ollama.generate_json E (judge_prompt E f chunks) (Some SYSTEM_PROMPT)
    Ollama.default_max_retries.

(** The keys [assess_fact] adds to the verdict. *)
Definition retrieval_keys : list string :=
  [ "fact_number"; "retrieved_chunks_count"; "top_similarity_score" ].

End VerdictTerms.

Section StoreTerms.

(** What a call leaves alone when it only talks to the services: the
    collections, the tables, the checkpoint file and the trace. *)
Definition kept (w w' : world) : Prop :=
  chunks_coll w' = chunks_coll w /\
  assessments_coll w' = assessments_coll w /\
  csv_dir w' = csv_dir w /\
  checkpoint_file w' = checkpoint_file w /\
  trace w' = trace w.

(** The claims a directory of tables lists. *)
Definition listed (E : env) (dir : list csv_file) : list fact :=
  flat_map (FactLoader.facts_of_file E) dir.


End StoreTerms.

Section LoopTerms.
Import Pipeline.

Definition completed (o : outcome) : bool :=
  match o with
  | Completed => true
  | StoreFailed | AssessFailed => false
  end.

(** The numbers of the claims whose outcome is a failure, in order. *)
Fixpoint failed_numbers (numbers : list Z) (outs : list outcome) : list Z :=
  match numbers, outs with
  | n :: numbers', o :: outs' =>
      (if completed o then [] else [n]) ++ failed_numbers numbers' outs'
  | _, _ => []
  end.

(** The world after [save_checkpoint] has run in [w] and left the dict
    [cp]: the file holds [cp] when the disk took the write. *)
Definition saved (E : env) (cp : dict) (w : world) : world :=
  if disk E (S (now w))
  then tick (set_checkpoint_file (Contents cp) (tick w))
  else tick (tick w).

(** The cursor a run reads from a checkpoint. *)
Definition cursor (cp : dict) : value :=
  default (VInt 0) (cp !! "last_completed_fact").

(** The dict [create_initial_checkpoint] returns at time [t]. *)
Definition fresh_checkpoint (E : env) (total_facts : Z) (t : nat) : dict :=
  <["last_completed_fact" := VInt 0]>
  (<["total_facts" := VInt total_facts]>
  (<["facts_processed" := VInt 0]>
  (<["failed_facts" := VList []]>
  (<["started_at" := VStr (isoformat_now E t)]>
  (<["last_updated" := VStr (isoformat_now E (S t))]> ∅))))).

(** The checkpoint file, when there is one that loads, holds a
    checkpoint record with an integer cursor. *)
Definition resumable (w : world) : Prop :=
  match checkpoint_file w with
  | Contents cp => (exists c, cursor cp = VInt c) /\ well_formed cp
  | Missing | Unreadable => True
  end.

(** The claims above the cursor [c], in the order of the list. *)
Definition above (c : Z) (facts : list fact) : list fact :=
  List.filter (fun f => c <? fact_number f) facts.

(** The claim an event is about. *)
Definition event_number (e : event) : Z :=
  match e with
  | Assess n | Upsert n | Mirror n | Advance n _ => n
  end.

Definition ascending (numbers : list Z) : Prop := StronglySorted Z.le numbers.

End LoopTerms.

Section SampleTerms.

(** The positions [load_sample_facts] reads: [i * step] for [i] below
    [n]. *)
Definition sample_positions (n step : Z) : list nat :=
  List.map (fun i => Z.to_nat (Z.of_nat i * step)) (seq 0 (Z.to_nat n)).

End SampleTerms.

Section ChunkTerms.
Import Chunker.

(** A text that is not empty and neither starts nor ends with white
    space. *)
Definition trimmed (s : list ascii) : Prop :=
  s <> [] /\
  (forall c, head s = Some c -> Py.isspace c = false) /\
  (forall c, last s = Some c -> Py.isspace c = false).

(** The chunk [c] is what a pass of the loop that starts at
    [char_start c] emits. *)
Definition pass_chunk (self : DocumentChunker) (txt : list ascii)
    (metadata : option dict) (c : chunk) : Prop :=
  char_end c = chunk_end self txt (char_start c) /\
  Py.chars (text c) = Py.strip (Py.slice txt (char_start c) (char_end c)) /\
  trimmed (Py.chars (text c)) /\
  Chunker.metadata c = (if truthy metadata then metadata else None).

End ChunkTerms.

Section FenceTerms.

Definition backtick : ascii := "`"%char.

(** A text without a backtick. *)
Definition no_backtick (l : list ascii) : Prop := ~ In backtick l.

End FenceTerms.

Section IndexingTerms.
Import Corpus Indexing.

(** The library [k] calls later: only the clock has moved. *)
Definition later (k : nat) (s : library) : library :=
  {| clock := clock s + k; documents := documents s;
     unique_doc_id := unique_doc_id s; chunks := chunks s;
     next_oid := next_oid s; facts := facts s |}.

(** The vector kept for a text embedded at time [t]: the answer of the
    service, or the zero vector when the call raises. *)
Definition answer (E : env) (t : nat) (text : string) : list float :=
  match embeddings E t text with
  | Ok v => v
  | Raise _ => zero_vector
  end.

(** The vectors of texts embedded one after the other from time [t]
    on. *)
Fixpoint vectors_from (E : env) (t : nat) (texts : list string)
    : list (list float) :=
  match texts with
  | [] => []
  | text :: rest => answer E t text :: vectors_from E (S t) rest
  end.

(** The chunks without an embedding get the vectors of [vs], in the
    order of the collection. *)
Fixpoint fill (coll : list stored_chunk) (vs : list (list float))
    : list stored_chunk :=
  match coll with
  | [] => []
  | c :: rest =>
      if pending c then
        match vs with
        | [] => c :: rest
        | v :: vs' =>
            {| oid := oid c; body := body c; vector := Some v |}
            :: fill rest vs'
        end
      else c :: fill rest vs
  end.

(** The text of a stored chunk. *)
Definition chunk_text_of (c : stored_chunk) : string :=
  Chunker.text (piece (body c)).

(** The by-[_id] updates of a list of assignments. *)
Definition assign (coll : list stored_chunk)
    (l : list (stored_chunk * list float)) : list stored_chunk :=
  fold_left (fun coll ce => set_vector (oid ce.1) ce.2 coll) l coll.

(** The state after a call that only wrote embeddings. *)
Definition embedded (s s' : library) (l : list (stored_chunk * list float))
    : Prop :=
  chunks s' = assign (chunks s) l /\
  documents s' = documents s /\ facts s' = facts s /\
  next_oid s' = next_oid s /\ unique_doc_id s' = unique_doc_id s.

(** The vectors are answers of the embedding service for the texts of
    the chunks, or zero vectors. *)
Definition answers (E : env) (todo : list stored_chunk)
    (vs : list (list float)) : Prop :=
  Forall2 (fun c v => exists t, v = answer E t (chunk_text_of c)) todo vs.

(** An environment whose embedding service is down. *)
Definition embedding_down : env :=
  {| np_dot := Np.dot; np_norm := Np.norm;
     embeddings := fun _ _ => Raise (Exn "ConnectionError" "connection refused");
     chat := fun _ _ => Ok Example.verdict_text;
     json_loads := Example.loads;
     time_time := fun _ => 0%float;
     isoformat_now := fun t => "T" +:+ pretty (Z.of_nat t);
     strftime_now := fun t => "T" +:+ pretty (Z.of_nat t);
     mongo := fun _ => None;
     disk := fun _ => true;
     format_3f := fun _ => "0.000";
     py_repr := fun _ => "?";
     int_gt_float := fun _ _ => false;
     title := fun s => s |}.

Definition plain_chunk (id : Z) (text : string) : doc_chunk :=
  {| piece := {| Chunker.chunk_id := id; Chunker.text := text;
                 Chunker.char_start := 0; Chunker.char_end := 1000;
                 Chunker.metadata := None |};
     owner := "a" |}.

(** A library of two chunks, the first of which has its embedding. *)
Definition half_embedded : library :=
  {| clock := 0; documents := []; unique_doc_id := false;
     chunks := [ {| oid := 0; body := plain_chunk 0 "first";
                    vector := Some [1%float; 0%float] |};
                 {| oid := 1; body := plain_chunk 1 "second";
                    vector := None |} ];
     next_oid := 2; facts := [] |}.

End IndexingTerms.

Section ChunkingTerms.
Import Corpus Indexing.

(** The chunk documents [insert_many] makes of new chunks. *)
Definition fresh (new : list doc_chunk) (s : library) : list stored_chunk :=
  imap (fun i c => {| oid := next_oid s + i; body := c; vector := None |}) new.

(** The chunk comes from the document [d]. *)
Definition chunk_of_document (d : document) (c : doc_chunk) : Prop :=
  owner c = doc_id d /\
  Chunker.metadata (piece c) = Some (metadata_of d).

(** A paper that fits in one window. *)
Definition short_paper (path folder : string) : document :=
  {| filepath := path; filename := "paper.pdf"; doc_id := folder;
     extracted_text := "[Page 1]" +:+ nl +:+ "Growth follows reserve.";
     page_count := 1; extraction_status := Success;
     error_message := None; created_at := "T0" |}.

(** A library with two papers of one folder and no chunk. *)
Definition two_in_one_folder : library :=
  {| clock := 0;
     documents := [ short_paper "/files/a/one.pdf" "a";
                    short_paper "/files/a/two.pdf" "a" ];
     unique_doc_id := false; chunks := []; next_oid := 0; facts := [] |}.

End ChunkingTerms.

Section FactIndexTerms.
Import Corpus Indexing.

(** The claim has a document with an embedding. *)
Definition fact_indexed (n : Z) (coll : list stored_fact) : Prop :=
  exists g, In g coll /\ fact_number (indexed g) = n /\ fact_vector g <> None.

(** An empty library. *)
Definition empty_library : library :=
  {| clock := 0; documents := []; unique_doc_id := false;
     chunks := []; next_oid := 0; facts := [] |}.

End FactIndexTerms.

Section ExtractionTerms.
Import Corpus Extraction.

(** The part of the extracted text for the page at position [i]
    (counted from 0) of a document, when the page is not blank. *)
Definition labelled_page (i : nat) (text : string) : option string :=
  if blank text then None else Some (page_part (Z.of_nat i + 1) text).

(** The parts of a document, by the position of the pages. *)
Definition labelled (texts : list string) : list string :=
  omap id (imap labelled_page texts).

(** Every page of the file at [p] can be read, and [texts] are their
    texts. *)
Definition readable (R : reader) (p : pdf_path) (texts : list string) : Prop :=
  R (path_str p) = Ok (List.map Ok texts).

(** The document [extract_text] makes of the path [p] at the time
    stamp [stamp]. *)
Definition extracted (R : reader) (p : pdf_path) (stamp : string) : document :=
  let result text pages status message :=
    {| filepath := path_str p; filename := path_name p;
       doc_id := parent_name p; extracted_text := text;
       page_count := pages; extraction_status := status;
       error_message := message; created_at := stamp |} in
  match R (path_str p) with
  | Raise e => result EmptyString 0 Failed (Some (exn_msg e))
  | Ok pages =>
      let count := Z.of_nat (List.length pages) in
      match read_pages pages 1 with
      | Raise e => result EmptyString count Failed (Some (exn_msg e))
      | Ok parts => result (join (nl +:+ nl) parts) count Success None
      end
  end.

(** The extraction of [p] succeeds. *)
Definition extracts (R : reader) (p : pdf_path) : bool :=
  succeeded (extracted R p EmptyString).

(** The paths a run extracts and stores: those not stored yet whose
    extraction succeeds. *)
Definition to_store (R : reader) (s : library) (paths : list pdf_path)
    : list pdf_path :=
  List.filter (fun p => negb (stored p s) && extracts R p) paths.

(** A folder with a paper of three pages, the second blank, and a file
    that does not open. *)
Definition shelf : reader :=
  fun path =>
    if String.eqb path "/files/a/one.pdf"
    then Ok [Ok "Growth."; Ok "  "; Ok "Reserve."]
    else Raise (Exn "FileDataError" "cannot open broken document").

Definition one_pdf : pdf_path :=
  {| path_str := "/files/a/one.pdf"; path_name := "one.pdf";
     parent_name := "a" |}.

Definition broken_pdf : pdf_path :=
  {| path_str := "/files/b/broken.pdf"; path_name := "broken.pdf";
     parent_name := "b" |}.

End ExtractionTerms.

Section PlaceholderTerms.
Import Corpus Indexing.

(** The index phase 3 searches is the chunk collection phase 2 left. *)
Definition searches (w : world) (s : library) : Prop :=
  chunks_coll w = List.map as_chunk_doc (chunks s).

(** The entry of a result made of the stored chunk [c]. *)
Definition entry_of (r : Retriever.retrieved) (c : stored_chunk) : Prop :=
  Retriever.r_doc_id r = owner (body c) /\
  Retriever.r_chunk_id r = Chunker.chunk_id (piece (body c)) /\
  Retriever.r_text r = chunk_text_of c.

(** A library of two chunks: one with the vector of a text, one with
    the vector [embed_batch] keeps for a failed call. *)
Definition one_placeholder : library :=
  {| clock := 0; documents := []; unique_doc_id := false;
     chunks := [ {| oid := 0; body := plain_chunk 0 "first";
                    vector := Some zero_vector |};
                 {| oid := 1; body := plain_chunk 1 "second";
                    vector := Some [1%float; 0%float] |} ];
     next_oid := 2; facts := [] |}.

End PlaceholderTerms.

(** * Verification *)

(** ** Facts about the string primitives *)

Section PyFacts.
Import Py.




End PyFacts.

(** ** Facts about the chunker *)

Section ChunkerFacts.
Import Chunker.


(** From [start = 6] the loop on [looping_text] comes back to
    [start = 6]: the sentence end at offset 8 pulls [end] back to 9, and
    the overlap of 3 undoes the two characters gained. *)
Lemma looping_fixpoint (fuel : nat) (metadata : option dict) (st : state) :
  start st = 6 ->
  loop fuel looping_chunker (Py.chars looping_text) metadata st = None.
Proof.
  revert st. induction fuel as [|fuel IH]; intros st Hst; cbn [loop];
    rewrite Hst; change (6 <? _) with true; cbn iota; [reflexivity |].
  apply IH. cbn [step start]. rewrite Hst. vm_compute. reflexivity.
Qed.

(** With the default sizes the same loop reaches [start = -200] and
    stays there. *)
Lemma default_fixpoint (fuel : nat) (metadata : option dict) (st : state) :
  start st = -200 ->
  loop fuel default (Py.chars one_early_sentence) metadata st = None.
Proof.
  revert st. induction fuel as [|fuel IH]; intros st Hst; cbn [loop];
    rewrite Hst.
  - vm_compute. reflexivity.
  - replace (-200 <? _) with true by (vm_compute; reflexivity).
    apply IH. cbn [step start]. rewrite Hst. vm_compute. reflexivity.
Qed.

End ChunkerFacts.

Example chunk_two_sentences :
  Chunker.chunk_text 10
    {| Chunker.chunk_size := 6; Chunker.chunk_overlap := 1 |}
    "Ab. Cd. Ef" None
  = Some
      [ {| Chunker.chunk_id := 0; Chunker.text := "Ab.";
           Chunker.char_start := 0; Chunker.char_end := 3;
           Chunker.metadata := None |};
        {| Chunker.chunk_id := 1; Chunker.text := ". Cd.";
           Chunker.char_start := 2; Chunker.char_end := 7;
           Chunker.metadata := None |};
        {| Chunker.chunk_id := 2; Chunker.text := ". Ef";
           Chunker.char_start := 6; Chunker.char_end := 12;
           Chunker.metadata := None |} ].
Proof. vm_compute. reflexivity. Qed.

Example chunk_three_sentences :
  Chunker.chunk_text 10
    {| Chunker.chunk_size := 4; Chunker.chunk_overlap := 1 |}
    "A. B. C." None
  = Some
      [ {| Chunker.chunk_id := 0; Chunker.text := "A.";
           Chunker.char_start := 0; Chunker.char_end := 2;
           Chunker.metadata := None |};
        {| Chunker.chunk_id := 1; Chunker.text := ". B.";
           Chunker.char_start := 1; Chunker.char_end := 5;
           Chunker.metadata := None |};
        {| Chunker.chunk_id := 2; Chunker.text := ". C.";
           Chunker.char_start := 4; Chunker.char_end := 8;
           Chunker.metadata := None |} ].
Proof. vm_compute. reflexivity. Qed.

(** ** Facts about the checkpoint manager *)

Section CheckpointFacts.
Import Checkpoint.

Lemma save_checkpoint_trace (E : env) (cp : dict) (w : world) :
  trace (save_checkpoint E cp w).2 = trace w /\
  (save_checkpoint E cp w).1 = <["last_updated" := VStr (isoformat_now E (now w))]> cp.
Proof.
  unfold save_checkpoint. cbn. destruct (disk E (S (now w))); cbn; auto.
Qed.

Lemma record_failure_list (cp : dict) (n : Z) (l : list value) :
  failed_list cp = Some l ->
  record_failure cp n = (<["failed_facts" := VList (l ++ [VInt n])]> cp, Ok tt).
Proof.
  unfold failed_list, record_failure. intros H.
  destruct (cp !! "failed_facts") as [v|] eqn:Hff.
  - destruct v; try discriminate. injection H as ->. rewrite Hff. reflexivity.
  - injection H as <-. rewrite lookup_insert_eq. cbn.
    rewrite insert_insert_eq. reflexivity.
Qed.

Lemma update_checkpoint_returns (E : env) (cp : dict) (n : Z)
    (success : bool) (w : world) (c : Z) (l : list value) :
  cp !! "facts_processed" = Some (VInt c) ->
  success = true \/ failed_list cp = Some l ->
  exists w',
    update_checkpoint E cp n success w
      = ((advanced E cp n success c l w, Ok tt), w') /\
    trace w' = trace w.
Proof.
  intros Hc Hl. unfold update_checkpoint, increment, advanced.
  rewrite lookup_insert_ne by discriminate. rewrite Hc.
  destruct success.
  - destruct (save_checkpoint_trace E
                (<["facts_processed" := VInt (c + 1)]>
                   (<["last_completed_fact" := VInt n]> cp)) w) as [Ht Hd].
    destruct (save_checkpoint E _ w) as [cp' w'] eqn:Hs. cbn in Ht, Hd.
    exists w'. subst cp'. auto.
  - destruct Hl as [Hl | Hl]; [discriminate |].
    rewrite (record_failure_list _ n l).
    2:{ unfold failed_list in *.
        rewrite !lookup_insert_ne by discriminate. exact Hl. }
    destruct (save_checkpoint_trace E
                (<["failed_facts" := VList (l ++ [VInt n])]>
                   (<["facts_processed" := VInt (c + 1)]>
                      (<["last_completed_fact" := VInt n]> cp))) w) as [Ht Hd].
    destruct (save_checkpoint E _ w) as [cp' w'] eqn:Hs. cbn in Ht, Hd.
    exists w'. subst cp'. auto.
Qed.

(** C10: [update_checkpoint] on a checkpoint record (one whose
    [facts_processed] is a counter and whose [failed_facts], when a
    failure is recorded, is a list or absent) returns and changes only
    [last_completed_fact] (set to the fact number), [facts_processed]
    (one more, whatever the success flag), [failed_facts] (the fact
    number appended, and only when the flag is false) and
    [last_updated] (set by the save); [total_facts], [started_at] and
    every other key keep their values. *)
Theorem update_checkpoint_frame (E : env) (cp : dict) (n : Z)
    (success : bool) (w : world) (c : Z) (l : list value) :
  cp !! "facts_processed" = Some (VInt c) ->
  success = true \/ failed_list cp = Some l ->
  exists cp' w',
    update_checkpoint E cp n success w = ((cp', Ok tt), w') /\
    cp' !! "last_completed_fact" = Some (VInt n) /\
    cp' !! "facts_processed" = Some (VInt (c + 1)) /\
    cp' !! "failed_facts"
      = (if success then cp !! "failed_facts"
         else Some (VList (l ++ [VInt n]))) /\
    cp' !! "last_updated" = Some (VStr (isoformat_now E (now w))) /\
    cp' !! "total_facts" = cp !! "total_facts" /\
    cp' !! "started_at" = cp !! "started_at" /\
    (forall k, ~ In k touched -> cp' !! k = cp !! k).
Proof.
  intros Hc Hl.
  destruct (update_checkpoint_returns E cp n success w c l Hc Hl)
    as (w' & Hrun & _).
  exists (advanced E cp n success c l w), w'.
  split; [exact Hrun |]. unfold advanced.
  assert (Hframe : forall k, ~ In k touched ->
    (<["last_updated" := VStr (isoformat_now E (now w))]>
       (if success
        then <["facts_processed" := VInt (c + 1)]>
               (<["last_completed_fact" := VInt n]> cp)
        else <["failed_facts" := VList (l ++ [VInt n])]>
               (<["facts_processed" := VInt (c + 1)]>
                  (<["last_completed_fact" := VInt n]> cp)))) !! k = cp !! k).
  { intros k Hk. unfold touched in Hk. cbn in Hk.
    destruct success; rewrite !lookup_insert_ne; auto; intros <-; tauto. }
  repeat split.
  - destruct success; rewrite !lookup_insert_ne by discriminate;
      apply lookup_insert_eq.
  - destruct success; rewrite !lookup_insert_ne by discriminate;
      apply lookup_insert_eq.
  - destruct success.
    + rewrite !lookup_insert_ne by discriminate. reflexivity.
    + rewrite lookup_insert_ne by discriminate. apply lookup_insert_eq.
  - apply lookup_insert_eq.
  - apply Hframe. cbn. intros [H|[H|[H|[H|[]]]]]; discriminate.
  - apply Hframe. cbn. intros [H|[H|[H|[H|[]]]]]; discriminate.
  - exact Hframe.
Qed.

End CheckpointFacts.

(** ** Facts about the assessments collection *)

Section AssessmentsFacts.
Import Assessments.

Lemma keyed_fields (n : Z) (a : dict) (t : float) (s : string) (doc : dict) :
  keyed n (set_fields (fields n a t s) doc) = true.
Proof.
  unfold keyed, set_fields, fields. cbn.
  rewrite lookup_insert_eq. apply Z.eqb_refl.
Qed.

Lemma result_fields (n : Z) (a : dict) (t : float) (s : string) (doc : dict) :
  set_fields (fields n a t s) doc !! "assessment_result" = Some (VDict a).
Proof.
  unfold set_fields, fields. cbn.
  rewrite lookup_insert_ne by discriminate. apply lookup_insert_eq.
Qed.

(** An upsert adds a document only when none has the key. *)
Lemma count_update_one (n : Z) (a : dict) (t : float) (s : string)
    (coll : list dict) :
  count n (update_one n (fields n a t s) coll) = Nat.max 1 (count n coll).
Proof.
  unfold count. induction coll as [|doc rest IH].
  - cbn [update_one List.filter]. rewrite keyed_fields. reflexivity.
  - cbn [update_one]. destruct (keyed n doc) eqn:Hk.
    + cbn [List.filter]. rewrite keyed_fields, Hk. cbn [List.length].
      destruct (List.length (List.filter (keyed n) rest)); reflexivity.
    + cbn [List.filter]. rewrite Hk. exact IH.
Qed.

(** When at most one document has the key, the document that has it
    after an upsert is the one just written. *)
Lemma keyed_after_update_one (n : Z) (a : dict) (t : float) (s : string)
    (coll : list dict) (doc : dict) :
  (count n coll <= 1)%nat ->
  In doc (update_one n (fields n a t s) coll) ->
  keyed n doc = true ->
  doc !! "assessment_result" = Some (VDict a).
Proof.
  unfold count. induction coll as [|d rest IH]; cbn [update_one]; intros Hc Hin Hk.
  - destruct Hin as [<- | []]. apply result_fields.
  - cbn [List.filter] in Hc. destruct (keyed n d) eqn:Hd.
    + destruct Hin as [<- | Hin]; [apply result_fields |].
      cbn in Hc.
      assert (Hnone : List.filter (keyed n) rest = []).
      { destruct (List.filter (keyed n) rest); [reflexivity | cbn in Hc; lia]. }
      assert (Hdoc : In doc (List.filter (keyed n) rest))
        by (apply filter_In; auto).
      rewrite Hnone in Hdoc. destruct Hdoc.
    + destruct Hin as [<- | Hin]; [congruence |]. now apply IH.
Qed.

Lemma upsert_returns (E : env) (n : Z) (a : dict) (t : float) (w w' : world) :
  upsert E n a t w = (Ok tt, w') ->
  assessments_coll w'
    = update_one n (fields n a t (isoformat_now E (now w))) (assessments_coll w).
Proof.
  unfold upsert, mongo_call. cbn.
  destruct (mongo E (S (now w))); cbn; intros H; inversion H. reflexivity.
Qed.

(** C9: two upserts for the same fact number, the first with the
    assessment [a1] and the second with [a2], on a collection that holds
    at most one document for that number (the collection's unique index)
    leave exactly one document for the number, and its
    [assessment_result] is [a2]. *)
Theorem upsert_twice (E : env) (n : Z) (a1 a2 : dict) (t1 t2 : float)
    (w w1 w2 : world) :
  (count n (assessments_coll w) <= 1)%nat ->
  upsert E n a1 t1 w = (Ok tt, w1) ->
  upsert E n a2 t2 w1 = (Ok tt, w2) ->
  count n (assessments_coll w2) = 1%nat /\
  forall doc, In doc (assessments_coll w2) -> keyed n doc = true ->
              doc !! "assessment_result" = Some (VDict a2).
Proof.
  intros Hc H1 H2.
  apply upsert_returns in H1. apply upsert_returns in H2.
  assert (Hc1 : count n (assessments_coll w1) = 1%nat)
    by (rewrite H1, count_update_one; lia).
  split.
  - rewrite H2, count_update_one. lia.
  - intros doc Hin Hk. rewrite H2 in Hin.
    apply (keyed_after_update_one n a2 t2 (isoformat_now E (now w1))
             (assessments_coll w1));
      [lia | exact Hin | exact Hk].
Qed.

End AssessmentsFacts.

(** ** Facts about the judge client *)

Section OllamaFacts.
Import Ollama.

Lemma generate_log (E : env) (prompt : string) (sys : option string) (w : world) :
  judge_log (generate E prompt sys w).2 = judge_log w ++ [request prompt sys] /\
  trace (generate E prompt sys w).2 = trace w /\
  assessments_coll (generate E prompt sys w).2 = assessments_coll w.
Proof. unfold generate. cbn. auto. Qed.

(** Whatever the judge does, the passes of the retry loop send the same
    request each time, at most once per pass. *)
Lemma attempts_log (E : env) (prompt : string) (sys : option string)
    (m attempt : Z) (n : nat) (w : world) :
  exists k, (k <= n)%nat /\
    judge_log (attempts E prompt sys m attempt n w).2
      = judge_log w ++ repeat (request prompt sys) k /\
    trace (attempts E prompt sys m attempt n w).2 = trace w /\
    assessments_coll (attempts E prompt sys m attempt n w).2
      = assessments_coll w.
Proof.
  revert attempt w. induction n as [|n IH]; intros attempt w.
  - exists 0%nat. cbn. rewrite app_nil_r. auto.
  - cbn [attempts]. unfold bind.
    destruct (generate_log E prompt sys w) as (Hlog & Htr & Has).
    destruct (generate E prompt sys w) as [[text | e] w1] eqn:Hgen;
      cbn [snd] in Hlog, Htr, Has.
    + destruct (json_loads E (json_text text)).
      * exists 1%nat. cbn. split; [lia | auto].
      * destruct (attempt =? m - 1).
        -- exists 1%nat. cbn. split; [lia | auto].
        -- destruct (IH (attempt + 1) w1) as (k & Hk & Hlog' & Htr' & Has').
           exists (S k). split; [lia |]. rewrite Hlog', Htr', Has', Hlog.
           rewrite <- app_assoc. auto.
    + exists 1%nat. cbn. split; [lia | auto].
Qed.

(** With a judge whose answers never decode, the passes that remain
    are all made, and the last one returns the default structure. *)
Lemma attempts_undecodable (E : env) (prompt : string) (sys : option string)
    (m attempt : Z) (n : nat) (w : world) :
  undecodable E ->
  attempt + Z.of_nat n = m ->
  exists w',
    attempts E prompt sys m attempt n w
      = (Ok (VDict (match n with O => ∅ | S _ => parse_failure end)), w') /\
    judge_log w' = judge_log w ++ repeat (request prompt sys) n.
Proof.
  intros Hjudge. revert attempt w. induction n as [|n IH]; intros attempt w Hm.
  - exists w. cbn. rewrite app_nil_r. auto.
  - cbn [attempts]. unfold bind.
    destruct (Hjudge (now w) (request prompt sys)) as (text & Hchat & Hloads).
    unfold generate at 1. rewrite Hchat, Hloads.
    destruct (Z.eqb_spec attempt (m - 1)) as [Hlast | Hmore].
    + assert (n = 0%nat) as -> by lia. eexists. split; reflexivity.
    + destruct (IH (attempt + 1) (tick (log_request (request prompt sys) w)))
        as (w' & Hrun & Hlog); [lia |].
      exists w'. rewrite Hrun. destruct n; [lia |].
      split; [reflexivity |]. rewrite Hlog. cbn. rewrite <- app_assoc.
      reflexivity.
Qed.

Lemma generate_json_undecodable (E : env) (prompt : string)
    (sys : option string) (max_retries : Z) (w : world) :
  undecodable E -> 1 <= max_retries ->
  exists w',
    generate_json E prompt sys max_retries w = (Ok (VDict parse_failure), w') /\
    judge_log w'
      = judge_log w ++ repeat (request prompt sys) (Z.to_nat max_retries).
Proof.
  intros Hjudge Hmax. unfold generate_json.
  destruct (attempts_undecodable E prompt sys max_retries 0
              (Z.to_nat max_retries) w Hjudge) as (w' & Hrun & Hlog); [lia |].
  exists w'. rewrite Hrun. split; [| exact Hlog].
  destruct (Z.to_nat max_retries) eqn:Hn; [lia | reflexivity].
Qed.

(** C8, as the code has it: [max_retries] bounds the number of calls,
    not the number of repeated calls.  Whatever the judge does,
    [generate_json] sends the same request (same prompt, same system
    prompt) each time and at most [max_retries] times; with a judge whose
    answers never decode and [max_retries] at least 1 it sends the
    request exactly [max_retries] times (3 by default: the first call and
    two more) and then returns the parse-failure default. *)
Theorem generate_json_attempts (E : env) (prompt : string)
    (sys : option string) (max_retries : Z) (w : world) :
  (exists k, (Z.of_nat k <= Z.max 0 max_retries) /\
     judge_log (generate_json E prompt sys max_retries w).2
       = judge_log w ++ repeat (request prompt sys) k) /\
  (undecodable E -> 1 <= max_retries ->
   exists w',
     generate_json E prompt sys max_retries w
       = (Ok (VDict parse_failure), w') /\
     judge_log w'
       = judge_log w ++ repeat (request prompt sys) (Z.to_nat max_retries)).
Proof.
  split.
  - unfold generate_json.
    destruct (attempts_log E prompt sys max_retries 0
                (Z.to_nat max_retries) w) as (k & Hk & Hlog & _).
    exists k. split; [lia | exact Hlog].
  - apply generate_json_undecodable.
Qed.

(** A payload in a fenced block with the language tag, in a fenced
    block without it, and bare. *)
Example json_text_fences :
  json_text ("Here it is:" +:+ nl +:+ "```json" +:+ nl +:+ "{}" +:+ nl +:+ "```")
    = "{}" /\
  json_text ("```" +:+ nl +:+ "{}" +:+ nl +:+ "```") = "{}" /\
  json_text "  {} " = "{}".
Proof. vm_compute. repeat split. Qed.

Lemma rambling_undecodable : undecodable Example.rambling.
Proof. intros t msgs. exists "I cannot say.". split; reflexivity. Qed.

(** With the default of 3 the rambling judge is called 3 times, not 4. *)
Lemma retries_after_first_call_fails : ~ retries_after_first_call.
Proof.
  intros H.
  specialize (H Example.rambling "p" (Some "s") default_max_retries
                (Example.initial [] Missing) rambling_undecodable).
  vm_compute in H. destruct H as [_ H]; [discriminate | discriminate].
Qed.

Lemma generate_json_attempts_witness :
  exists w',
    generate_json Example.rambling "p" (Some "s") 3 (Example.initial [] Missing)
      = (Ok (VDict parse_failure), w') /\
    judge_log w' = repeat (request "p" (Some "s")) 3.
Proof.
  exact (proj2 (generate_json_attempts Example.rambling "p" (Some "s") 3
                  (Example.initial [] Missing))
           rambling_undecodable ltac:(lia)).
Defined.

End OllamaFacts.

(** ** Facts about the retriever *)

Section RetrieverFacts.
Import Retriever.

Lemma ordered_asym (l : list float) (x y : float) :
  ordered_scores l = true -> In x l -> In y l ->
  (x <? y)%float = true -> (y <? x)%float = false.
Proof.
  unfold ordered_scores. intros H Hx Hy Hlt.
  rewrite forallb_forall in H. specialize (H x Hx).
  rewrite forallb_forall in H. specialize (H y Hy).
  apply andb_prop in H as [H _]. rewrite Hlt in H. cbn in H.
  now apply negb_true_iff.
Qed.

Lemma ordered_between (l : list float) (x y z : float) :
  ordered_scores l = true -> In x l -> In y l -> In z l ->
  (x <? y)%float = false -> (y <? z)%float = false ->
  (x <? z)%float = false.
Proof.
  unfold ordered_scores. intros H Hx Hy Hz Hxy Hyz.
  rewrite forallb_forall in H. specialize (H x Hx).
  rewrite forallb_forall in H. specialize (H y Hy).
  apply andb_prop in H as [_ H].
  rewrite forallb_forall in H. specialize (H z Hz).
  rewrite Hxy, Hyz in H. destruct (x <? z)%float; [discriminate | reflexivity].
Qed.

Lemma insert_desc_perm (x : scored) (l : list scored) :
  Permutation (insert_desc x l) (x :: l).
Proof.
  induction l as [|y l IH]; cbn [insert_desc]; [reflexivity |].
  destruct (x.2 <? y.2)%float; [| reflexivity].
  rewrite IH. apply perm_swap.
Qed.

Lemma sort_desc_perm (l : list scored) : Permutation (sort_desc l) l.
Proof.
  induction l as [|x l IH]; [reflexivity |].
  cbn [sort_desc fold_right]. fold (sort_desc l).
  rewrite insert_desc_perm. now constructor.
Qed.

Lemma sort_desc_In (l : list scored) (x : scored) :
  In x (sort_desc l) <-> In x l.
Proof.
  split; apply Permutation_in;
    [apply sort_desc_perm | symmetry; apply sort_desc_perm].
Qed.

Section Ordered.
Variable scores : list float.
Hypothesis Hord : ordered_scores scores = true.

Lemma insert_desc_sorted (x : scored) (l : list scored) :
  In x.2 scores -> (forall y, In y l -> In y.2 scores) ->
  StronglySorted not_below l ->
  StronglySorted not_below (insert_desc x l).
Proof.
  intros Hx Hl Hs. induction Hs as [|y l Hs IH Hy].
  - repeat constructor.
  - cbn [insert_desc]. destruct (x.2 <? y.2)%float eqn:Hlt.
    + constructor.
      * apply IH. intros z Hz. apply Hl. now right.
      * apply List.Forall_forall. intros z Hz.
        apply (Permutation_in _ (insert_desc_perm x l)) in Hz.
        destruct Hz as [<- | Hz].
        -- unfold not_below.
           apply (ordered_asym scores); auto. apply Hl. now left.
        -- rewrite List.Forall_forall in Hy. now apply Hy.
    + constructor; [now constructor |].
      constructor; [exact Hlt |].
      apply List.Forall_forall. intros z Hz. rewrite List.Forall_forall in Hy.
      unfold not_below.
      apply (ordered_between scores _ y.2); auto.
      * apply Hl. now left.
      * apply Hl. now right.
      * now apply Hy.
Qed.

Lemma sort_desc_sorted (l : list scored) :
  (forall y, In y l -> In y.2 scores) ->
  StronglySorted not_below (sort_desc l).
Proof.
  induction l as [|x l IH]; intros Hl; [constructor |].
  cbn [sort_desc fold_right]. fold (sort_desc l).
  apply insert_desc_sorted.
  - apply Hl. now left.
  - intros y Hy. apply Hl. right. now apply sort_desc_In.
  - apply IH. intros y Hy. apply Hl. now right.
Qed.

(** Insertion puts [x] before every entry it ties with. *)
Lemma insert_desc_ties (s : float) (x : scored) (l : list scored) :
  In s scores -> In x.2 scores -> (forall y, In y l -> In y.2 scores) ->
  List.filter (ties s) (insert_desc x l) = List.filter (ties s) (x :: l).
Proof.
  intros Hs Hx Hl. induction l as [|y l IH]; [reflexivity |].
  cbn [insert_desc]. destruct (x.2 <? y.2)%float eqn:Hlt; [| reflexivity].
  cbn [List.filter]. rewrite IH by (intros z Hz; apply Hl; now right).
  cbn [List.filter].
  destruct (ties s x) eqn:Hsx; [| reflexivity].
  destruct (ties s y) eqn:Hsy; [| reflexivity].
  exfalso. unfold ties in Hsx, Hsy.
  apply andb_prop in Hsx as [_ Hxs]. apply andb_prop in Hsy as [Hsy _].
  apply negb_true_iff in Hxs, Hsy.
  assert (Hy : In y.2 scores) by (apply Hl; now left).
  pose proof (ordered_between scores x.2 s y.2 Hord Hx Hs Hy Hxs Hsy).
  congruence.
Qed.

Lemma sort_desc_ties (s : float) (l : list scored) :
  In s scores -> (forall y, In y l -> In y.2 scores) ->
  List.filter (ties s) (sort_desc l) = List.filter (ties s) l.
Proof.
  intros Hs. induction l as [|x l IH]; intros Hl; [reflexivity |].
  cbn [sort_desc fold_right]. fold (sort_desc l).
  rewrite insert_desc_ties; auto.
  - cbn [List.filter]. rewrite IH by (intros y Hy; apply Hl; now right).
    reflexivity.
  - apply Hl. now left.
  - intros y Hy. apply Hl. right. now apply sort_desc_In.
Qed.

End Ordered.

Lemma slice_from_zero {A : Type} (l : list A) (k : Z) :
  0 <= k -> Py.slice l 0 k = take (Z.to_nat k) l.
Proof.
  intros Hk. unfold Py.slice, Py.clamp_index.
  destruct (Z.ltb_spec k 0); [lia |]. cbn [Z.ltb Z.compare].
  rewrite (Z.min_l 0) by lia. change (Z.to_nat 0) with 0%nat.
  rewrite drop_0, Z.sub_0_r.
  destruct (Z.le_ge_cases k (Z.of_nat (List.length l))).
  - rewrite Z.min_l by lia. reflexivity.
  - rewrite Z.min_r by lia. rewrite Nat2Z.id.
    rewrite !firstn_all2 by lia. reflexivity.
Qed.

Lemma slice_In {A : Type} (l : list A) (a b : Z) (x : A) :
  In x (Py.slice l a b) -> In x l.
Proof.
  unfold Py.slice. intros H.
  apply list_elem_of_In in H. apply list_elem_of_In.
  apply elem_of_take in H as (i & H & _). rewrite lookup_drop in H.
  eapply list_elem_of_lookup_2. exact H.
Qed.

End RetrieverFacts.

Section RetrieverTheorems.
Import Retriever.

(** Every candidate passed the guard and carries the cosine of its
    chunk. *)
Lemma similarities_guard (E : env) (q : list float) (qn : float)
    (chunks : list (chunk_doc * list float)) (sims : list scored) :
  similarities E q qn chunks = Ok sims ->
  forall x, In x sims ->
    exists v d,
      In (x.1, v) chunks /\
      (0 <? np_norm E v)%float = true /\ (0 <? qn)%float = true /\
      np_dot E q v = Ok d /\
      x.2 = (d / (qn * np_norm E v))%float.
Proof.
  revert sims. induction chunks as [|[c v] rest IH]; intros sims H x Hx.
  - cbn in H. injection H as <-. destruct Hx.
  - cbn [similarities] in H.
    destruct ((0 <? np_norm E v)%float && (0 <? qn)%float) eqn:Hguard.
    + apply andb_prop in Hguard as [Hv Hq].
      destruct (np_dot E q v) as [d|] eqn:Hdot; [| discriminate].
      destruct (similarities E q qn rest) as [l|] eqn:Hrest; [| discriminate].
      injection H as <-. destruct Hx as [<- | Hx].
      * exists v, d. cbn. auto 6.
      * destruct (IH l eq_refl x Hx) as (v' & d' & Hin & Hrest').
        exists v', d'. split; [now right | exact Hrest'].
    + destruct (IH sims H x Hx) as (v' & d' & Hin & Hrest').
      exists v', d'. split; [now right | exact Hrest'].
Qed.


(** The candidates are in the order of the collection. *)
Lemma similarities_order (E : env) (q : list float) (qn : float)
    (coll : list chunk_doc) (sims : list scored) :
  similarities E q qn (with_embedding coll) = Ok sims ->
  sublist (List.map fst sims) coll.
Proof.
  unfold with_embedding. revert sims.
  induction coll as [|c coll IH]; intros sims H.
  - cbn in H. injection H as <-. constructor.
  - cbn [omap list_omap] in H. destruct (embedding c) as [v|].
    + cbn [similarities] in H.
      destruct ((0 <? np_norm E v)%float && (0 <? qn)%float).
      * destruct (np_dot E q v) as [d|]; [| discriminate].
        destruct (similarities E q qn _) as [l|] eqn:Hrest; [| discriminate].
        injection H as <-. cbn. apply sublist_skip. now apply IH.
      * apply sublist_cons. now apply IH.
    + apply sublist_cons. now apply IH.
Qed.

Lemma search_answer (E : env) (q : list float) (k : Z) (w : world) :
  mongo E (now w) = None ->
  cosine_similarity_search E q k w
    = (rank E q k (with_embedding (chunks_coll w)), tick w).
Proof.
  intros Hup. unfold cosine_similarity_search, bind, mongo_call.
  rewrite Hup. reflexivity.
Qed.

Lemma search_result (E : env) (q : list float) (k : Z) (w w' : world)
    (out : list retrieved) :
  cosine_similarity_search E q k w = (Ok out, w') ->
  rank E q k (with_embedding (chunks_coll w)) = Ok out.
Proof.
  unfold cosine_similarity_search, bind, mongo_call.
  destruct (mongo E (now w)); [discriminate |].
  cbn [fst snd]. intros H. now injection H.
Qed.

Lemma rank_candidates (E : env) (q : list float) (k : Z)
    (chunks : list (chunk_doc * list float)) (sims : list scored) :
  similarities E q (np_norm E q) chunks = Ok sims ->
  rank E q k chunks = Ok (List.map to_result (Py.slice (sort_desc sims) 0 k)).
Proof.
  intros H. unfold rank. destruct chunks as [|c chunks].
  - cbn in H. injection H as <-. unfold Py.slice. cbn [sort_desc fold_right].
    now rewrite drop_nil, take_nil.
  - rewrite H. reflexivity.
Qed.

(** C5: on an index whose vectors have the shape of the query and
    whose scores are numbers, the query with [k >= 0] returns at most
    [k] results, in descending order of score, and the results that tie
    on a score are, in the same order, the first of the candidates that
    tie on it; the candidates are in the order of the collection. *)
Theorem ranking_sorted_stable (E : env) (q : list float) (k : Z)
    (w : world) (sims : list scored) :
  0 <= k ->
  mongo E (now w) = None ->
  similarities E q (np_norm E q) (with_embedding (chunks_coll w)) = Ok sims ->
  ordered_scores (List.map snd sims) = true ->
  exists ranked,
    cosine_similarity_search E q k w
      = (Ok (List.map to_result ranked), tick w) /\
    Z.of_nat (List.length ranked) <= k /\
    StronglySorted not_below ranked /\
    (forall s, In s (List.map snd sims) ->
       List.filter (ties s) ranked `prefix_of` List.filter (ties s) sims) /\
    sublist (List.map fst sims) (chunks_coll w).
Proof.
  intros Hk Hup Hsims Hord.
  assert (Hscores : forall y : scored, In y sims -> In y.2 (List.map snd sims))
    by (intros y Hy; now apply in_map).
  exists (take (Z.to_nat k) (sort_desc sims)).
  split; [| split; [| split; [| split]]].
  - rewrite search_answer by exact Hup.
    rewrite (rank_candidates E q k _ sims Hsims).
    rewrite slice_from_zero by exact Hk. reflexivity.
  - rewrite length_take. lia.
  - pose proof (sort_desc_sorted _ Hord sims Hscores) as Hsorted.
    rewrite <- (take_drop (Z.to_nat k) (sort_desc sims)) in Hsorted.
    revert Hsorted. generalize (take (Z.to_nat k) (sort_desc sims)).
    intros l. induction l as [|x l IH]; intros H; [constructor |].
    cbn in H. apply StronglySorted_inv in H as [H1 H2].
    constructor; [now apply IH |].
    apply Forall_app in H2 as [H2 _]. exact H2.
  - intros s Hs.
    rewrite <- (sort_desc_ties _ Hord s sims Hs Hscores).
    rewrite <- (take_drop (Z.to_nat k) (sort_desc sims)) at 2.
    rewrite List.filter_app. now eexists.
  - now apply (similarities_order E q (np_norm E q)).
Qed.




End RetrieverTheorems.

(** ** Facts about the assessment agent *)

Section AgentFacts.
Import Agent.

Lemma bind_run {A B : Type} (m : M A) (k : A -> M B) (w : world) :
  bind m k w
  = match m w with
    | (Ok a, w') => k a w'
    | (Raise e, w') => (Raise e, w')
    end.
Proof. reflexivity. Qed.

(** Retrieval only advances the clock. *)
Lemma retrieve_frame (E : env) (text : string) (k : option Z) (w : world) :
  let w' := (Retriever.retrieve E text k w).2 in
  trace w' = trace w /\ judge_log w' = judge_log w /\
  assessments_coll w' = assessments_coll w.
Proof.
  unfold Retriever.retrieve, Retriever.embed_text,
    Retriever.cosine_similarity_search, bind, mongo_call. cbn zeta.
  destruct (embeddings E (now w) text); cbn; auto.
  destruct (mongo E (S (now w))); cbn; auto.
Qed.

(** The judge step of [assess_fact]: it returns whatever the judge
    does. *)
Lemma judge_step_returns (E : env) (f : fact) (prompt : string)
    (chunks : list Retriever.retrieved) (top : Retriever.retrieved)
    (w : world) :
  exists a w',
    try_except
      (let* assessment :=
         Ollama.generate_json E prompt (Some SYSTEM_PROMPT)
           Ollama.default_max_retries in
       add_metadata assessment (fact_number f) chunks top)
      (fun e => ret (default_assessment ("Error: " +:+ exn_msg e))) w
    = (Ok a, w') /\
    trace w' = trace w /\ assessments_coll w' = assessments_coll w.
Proof.
  unfold try_except, bind, Ollama.generate_json.
  destruct (attempts_log E prompt (Some SYSTEM_PROMPT)
              Ollama.default_max_retries 0
              (Z.to_nat Ollama.default_max_retries) w)
    as (k & _ & _ & Htr & Has).
  destruct (Ollama.attempts _ _ _ _ _ _ w) as [[v | e] w1];
    cbn [snd] in Htr, Has.
  - destruct v; cbn; eauto.
  - cbn. eauto.
Qed.

(** [assess_fact] raises exactly when the retrieval raises: an
    exception of the judge call does not leave it. *)
Lemma assess_fact_outcome (E : env) (f : fact) (w : world) :
  (exists e w1,
      Retriever.retrieve E (fact_text f) None w = (Raise e, w1) /\
      assess_fact E f w = (Raise e, w1))
  \/
  (exists chunks w1 a w',
      Retriever.retrieve E (fact_text f) None w = (Ok chunks, w1) /\
      assess_fact E f w = (Ok a, w')) .
Proof.
  unfold assess_fact, bind.
  destruct (Retriever.retrieve E (fact_text f) None w) as [[chunks | e] w1].
  - right. destruct chunks as [|top rest].
    + exists [], w1. eexists _, _. split; reflexivity.
    + destruct (judge_step_returns E f
                  (create_prompt (fact_number f) (fact_text f)
                     (build_context E (top :: rest)))
                  (top :: rest) top w1) as (a & w' & Hrun & _).
      exists (top :: rest), w1, a, w'. split; [reflexivity | exact Hrun].
  - left. exists e, w1. split; reflexivity.
Qed.

Lemma assess_fact_frame (E : env) (f : fact) (w : world) :
  trace (assess_fact E f w).2 = trace w /\
  assessments_coll (assess_fact E f w).2 = assessments_coll w.
Proof.
  unfold assess_fact. rewrite !bind_run.
  destruct (retrieve_frame E (fact_text f) None w) as (Htr & _ & Has).
  cbn zeta in Htr, Has.
  destruct (Retriever.retrieve E (fact_text f) None w) as [[chunks | e] w1];
    cbn [snd] in Htr, Has; [| cbn; auto].
  destruct chunks as [|top rest]; [cbn; auto |].
  destruct (judge_step_returns E f
              (create_prompt (fact_number f) (fact_text f)
                 (build_context E (top :: rest)))
              (top :: rest) top w1) as (a & w' & Hrun & Htr' & Has').
  rewrite Hrun. cbn [snd]. split; congruence.
Qed.

(** C7: a claim for which the retrieval returns no chunk gets the
    default assessment with score 0, confidence low and the evidence
    text saying that no relevant literature was found, and the judge is
    not called; a claim with retrieved chunks whose judge never answers
    with decodable text gets, after three calls, an assessment with
    score 50, confidence low and the evidence text saying that the
    response could not be parsed; the two differ in score and in
    evidence text. *)
Theorem fallback_distinction (E : env) (f : fact) (w : world) :
  let no_evidence := default_assessment "No relevant literature found" in
  (forall w1,
      Retriever.retrieve E (fact_text f) None w = (Ok [], w1) ->
      assess_fact E f w = (Ok no_evidence, w1) /\
      judge_log w1 = judge_log w) /\
  (no_evidence !! "score" = Some (VInt 0) /\
   no_evidence !! "confidence" = Some (VStr "low") /\
   no_evidence !! "key_evidence" = Some (VStr "No relevant literature found")) /\
  (forall top rest w1,
      Retriever.retrieve E (fact_text f) None w = (Ok (top :: rest), w1) ->
      undecodable E ->
      let a := with_metadata Ollama.parse_failure f (top :: rest) top in
      exists w2,
        assess_fact E f w = (Ok a, w2) /\
        List.length (judge_log w2) = (List.length (judge_log w) + 3)%nat /\
        a !! "score" = Some (VInt 50) /\
        a !! "confidence" = Some (VStr "low") /\
        a !! "key_evidence" = Some (VStr "Failed to parse LLM response") /\
        a !! "score" <> no_evidence !! "score" /\
        a !! "key_evidence" <> no_evidence !! "key_evidence").
Proof.
  cbn zeta. split; [| split].
  - intros w1 Hret.
    destruct (retrieve_frame E (fact_text f) None w) as (_ & Hlog & _).
    cbn zeta in Hlog. unfold assess_fact, bind. rewrite Hret in *. auto.
  - repeat split.
  - intros top rest w1 Hret Hjudge.
    destruct (retrieve_frame E (fact_text f) None w) as (_ & Hlog & _).
    cbn zeta in Hlog. rewrite Hret in Hlog. cbn [snd] in Hlog.
    unfold assess_fact, bind, try_except. rewrite Hret.
    destruct (generate_json_undecodable E
                (create_prompt (fact_number f) (fact_text f)
                   (build_context E (top :: rest)))
                (Some SYSTEM_PROMPT) Ollama.default_max_retries w1
                Hjudge ltac:(unfold Ollama.default_max_retries; lia))
      as (w2 & Hrun & Hlog2).
    rewrite Hrun. cbn [add_metadata ret].
    exists w2. split; [reflexivity |].
    split; [rewrite Hlog2, Hlog, length_app; reflexivity |].
    repeat split; try discriminate.
Qed.

End AgentFacts.

(** ** Facts about the review pipeline *)

(** Reads a key of a dict built by insertions under literal keys. *)
Ltac lookup_key :=
  repeat (rewrite lookup_insert_eq
          || (rewrite lookup_insert_ne by discriminate)).

Section PipelineFacts.
Import Pipeline.

Lemma upsert_frame (E : env) (n : Z) (a : dict) (t : float) (w : world) :
  trace (Assessments.upsert E n a t w).2 = trace w.
Proof.
  unfold Assessments.upsert, mongo_call. cbn.
  destruct (mongo E (S (now w))); reflexivity.
Qed.

Lemma update_fact_frame (E : env) (n : Z) (a : dict) (w : world) :
  trace (CsvUpdater.update_fact E n a w) = trace w.
Proof.
  unfold CsvUpdater.update_fact.
  destruct (existsb _ _); [| reflexivity].
  destruct (CsvUpdater.join_papers _); reflexivity.
Qed.

Lemma advanced_well_formed (E : env) (cp : dict) (n : Z) (success : bool)
    (c : Z) (l : list value) (w : world) :
  failed_list cp = Some l ->
  let cp' := advanced E cp n success c l w in
  well_formed cp' /\
  failed_list cp' = Some (if success then l else l ++ [VInt n]) /\
  cp' !! "last_completed_fact" = Some (VInt n).
Proof.
  intros Hl. unfold well_formed, failed_list, advanced in *. cbn zeta.
  destruct success; lookup_key; repeat split; eauto.
Qed.

Lemma retrieve_answers (E : env) (text : string) (k : option Z) (w : world) :
  services_answer E (chunks_coll w) ->
  exists chunks w', Retriever.retrieve E text k w = (Ok chunks, w').
Proof.
  intros (Hmongo & Hembed).
  unfold Retriever.retrieve. rewrite bind_run. unfold Retriever.embed_text.
  destruct (Hembed (now w) text) as (v & -> & Hdot).
  rewrite search_answer by apply Hmongo.
  assert (Hsims : forall qn chunks,
             (forall c u, In (c, u) chunks -> exists d, np_dot E v u = Ok d) ->
             exists sims, Retriever.similarities E v qn chunks = Ok sims).
  { intros qn chunks. induction chunks as [|[c u] rest IH]; intros Hin.
    - now exists [].
    - cbn [Retriever.similarities].
      destruct IH as [sims ->]; [intros c' u' H; apply (Hin c' u'); now right |].
      destruct (_ && _); [| eauto].
      destruct (Hin c u) as [d ->]; [now left | eauto]. }
  unfold Retriever.rank. cbn [tick chunks_coll].
  destruct (Retriever.with_embedding (chunks_coll w)) as [|c cs] eqn:Hcoll;
    [eauto |].
  destruct (Hsims (np_norm E v) (c :: cs)) as [sims ->]; [| eauto].
  intros c' u Hin. rewrite <- Hcoll in Hin.
  unfold Retriever.with_embedding in Hin. apply list_elem_of_In in Hin.
  apply list_elem_of_omap in Hin as (c0 & Hc0 & Hemb).
  destruct (embedding c0) as [u0|] eqn:Hu0; [| discriminate].
  injection Hemb as -> ->. apply list_elem_of_In in Hc0. eauto.
Qed.

(** The review never writes to the chunk collection. *)
Lemma attempts_index (E : env) (prompt : string) (sys : option string)
    (m attempt : Z) (n : nat) (w : world) :
  chunks_coll (Ollama.attempts E prompt sys m attempt n w).2 = chunks_coll w.
Proof.
  revert attempt w. induction n as [|n IH]; intros attempt w; [reflexivity |].
  cbn [Ollama.attempts]. rewrite bind_run.
  assert (Hgen : chunks_coll (Ollama.generate E prompt sys w).2 = chunks_coll w)
    by reflexivity.
  destruct (Ollama.generate E prompt sys w) as [[text | e] w1];
    cbn [snd] in Hgen; [| exact Hgen].
  destruct (json_loads E _); [exact Hgen |].
  destruct (attempt =? m - 1); [exact Hgen |]. now rewrite IH.
Qed.

Lemma assess_fact_index (E : env) (f : fact) (w : world) :
  chunks_coll (Agent.assess_fact E f w).2 = chunks_coll w.
Proof.
  unfold Agent.assess_fact. rewrite bind_run.
  assert (Hret : chunks_coll (Retriever.retrieve E (fact_text f) None w).2
                 = chunks_coll w).
  { unfold Retriever.retrieve, Retriever.embed_text,
      Retriever.cosine_similarity_search, bind, mongo_call.
    destruct (embeddings E (now w) (fact_text f)); cbn; [| reflexivity].
    destruct (mongo E (S (now w))); reflexivity. }
  destruct (Retriever.retrieve E (fact_text f) None w) as [[chunks | e] w1];
    cbn [snd] in Hret; [| exact Hret].
  destruct chunks as [|top rest]; [exact Hret |].
  unfold try_except. rewrite bind_run. unfold Ollama.generate_json.
  pose proof (attempts_index E
                (Agent.create_prompt (fact_number f) (fact_text f)
                   (Agent.build_context E (top :: rest)))
                (Some Agent.SYSTEM_PROMPT) Ollama.default_max_retries 0
                (Z.to_nat Ollama.default_max_retries) w1) as Hatt.
  destruct (Ollama.attempts _ _ _ _ _ _ w1) as [[v | e] w2];
    cbn [snd] in Hatt; [destruct v |]; cbn; congruence.
Qed.

Lemma update_checkpoint_index (E : env) (cp : dict) (n : Z) (success : bool)
    (w : world) :
  chunks_coll (Checkpoint.update_checkpoint E cp n success w).2 = chunks_coll w.
Proof.
  unfold Checkpoint.update_checkpoint.
  destruct (Checkpoint.increment _) as [cp1 | e]; [| reflexivity].
  destruct (if success then _ else _) as [cp2 [[] | e]]; [| reflexivity].
  unfold Checkpoint.save_checkpoint. cbn.
  destruct (disk E (S (now w))); reflexivity.
Qed.

Lemma process_fact_index (E : env) (f : fact) (cp : dict) (w : world) :
  chunks_coll (process_fact E f cp w).2 = chunks_coll w.
Proof.
  unfold process_fact, try_block, read_clock.
  set (w0 := emit (Assess (fact_number f)) (tick w)).
  pose proof (assess_fact_index E f w0) as H0.
  change (chunks_coll w0) with (chunks_coll w) in H0.
  destruct (Agent.assess_fact E f w0) as [[a | e] w1]; cbn [snd] in H0.
  - set (w2 := emit (Upsert (fact_number f)) (tick w1)).
    assert (H2 : forall t,
               chunks_coll (Assessments.upsert E (fact_number f) a t w2).2
               = chunks_coll w1).
    { intros t. unfold Assessments.upsert, mongo_call. cbn.
      destruct (mongo E _); reflexivity. }
    specialize (H2 (time_time E (now w1) - time_time E (now w))%float).
    destruct (Assessments.upsert E (fact_number f) a _ w2) as [[[] | e] w3];
      cbn [snd] in H2.
    + set (w4 := emit (Advance (fact_number f) true) _).
      assert (H4 : chunks_coll w4 = chunks_coll w3).
      { subst w4. cbn [emit chunks_coll]. unfold CsvUpdater.update_fact.
        destruct (existsb _ _); [| reflexivity].
        destruct (CsvUpdater.join_papers _); reflexivity. }
      pose proof (update_checkpoint_index E cp (fact_number f) true w4) as H5.
      destruct (Checkpoint.update_checkpoint E cp (fact_number f) true w4)
        as [[cp1 [[] | e]] w5]; cbn [snd] in H5.
      * cbn [snd]. congruence.
      * rewrite update_checkpoint_index. cbn [emit chunks_coll]. congruence.
    + rewrite update_checkpoint_index. cbn [emit chunks_coll]. congruence.
  - rewrite update_checkpoint_index. cbn [emit chunks_coll]. congruence.
Qed.

(** The [try] block on a checkpoint record either goes through, and
    then it has assessed, stored, mirrored and advanced the claim as a
    success, or it raises before the checkpoint is touched: in the
    assessment, or in the write to the collection. *)
Lemma try_block_spec (E : env) (f : fact) (cp : dict) (w : world)
    (c : Z) (l : list value) :
  cp !! "facts_processed" = Some (VInt c) ->
  (exists w4 w',
      try_block E f cp w
        = ((advanced E cp (fact_number f) true c l w4, Ok tt), w') /\
      trace w' = trace w ++ events_of (fact_number f) Completed)
  \/
  (exists e w1,
      try_block E f cp w = ((cp, Raise e), w1) /\
      (trace w1 = trace w ++ [Assess (fact_number f)] \/
       trace w1 = trace w ++ [Assess (fact_number f); Upsert (fact_number f)]) /\
      ~ services_answer E (chunks_coll w)).
Proof.
  intros Hc. unfold try_block, read_clock.
  set (n := fact_number f).
  set (w0 := emit (Assess n) (tick w)).
  destruct (assess_fact_frame E f w0) as [Htr0 _].
  destruct (Agent.assess_fact E f w0) as [[a | e] w1] eqn:Hassess;
    cbn [snd] in Htr0.
  - set (t := (time_time E (now w1) - time_time E (now w))%float).
    set (w2 := emit (Upsert n) (tick w1)).
    pose proof (upsert_frame E n a t w2) as Htr2.
    destruct (Assessments.upsert E n a t w2) as [[[] | e] w3] eqn:Hstore;
      cbn [snd] in Htr2.
    + left.
      set (w4 := emit (Advance n true)
                   (CsvUpdater.update_fact E n a (emit (Mirror n) w3))).
      destruct (update_checkpoint_returns E cp n true w4 c l Hc)
        as (w' & Hrun & Htr'); [now left |].
      exists w4, w'. split; [exact Hrun |].
      rewrite Htr'. subst w4. cbn [emit trace].
      rewrite update_fact_frame. cbn [emit trace]. rewrite Htr2.
      subst w2. cbn [emit trace tick]. rewrite Htr0. subst w0.
      cbn [emit trace tick events_of]. rewrite <- !app_assoc. reflexivity.
    + right. exists e, w3. split; [reflexivity |]. split.
      * right. rewrite Htr2. subst w2. cbn [emit trace tick].
        rewrite Htr0. subst w0. cbn [emit trace tick].
        rewrite <- !app_assoc. reflexivity.
      * intros (Hmongo & _).
        unfold Assessments.upsert, mongo_call in Hstore.
        rewrite Hmongo in Hstore. discriminate.
  - right. exists e, w1. split; [reflexivity |]. split.
    + left. rewrite Htr0. reflexivity.
    + intros Hserv.
      destruct (assess_fact_outcome E f w0)
        as [(e' & w1' & Hret & _) | (chunks & w1' & a & w'' & _ & Hok)];
        [| congruence].
      destruct (retrieve_answers E (fact_text f) None w0 Hserv)
        as (chunks & w'' & Hans). congruence.
Qed.

(** One pass of the loop on a checkpoint record: the handler never
    raises, so the pass returns; the calls made are those of its
    outcome, and the failed facts grow by the claim exactly when the
    outcome is a failure. *)
Lemma process_fact_spec (E : env) (f : fact) (cp : dict) (w : world)
    (l : list value) :
  well_formed cp -> failed_list cp = Some l ->
  exists o cp' w',
    process_fact E f cp w = ((cp', Ok tt), w') /\
    trace w' = trace w ++ events_of (fact_number f) o /\
    well_formed cp' /\
    failed_list cp' = Some (failed_after l (fact_number f) o) /\
    cp' !! "last_completed_fact" = Some (VInt (fact_number f)) /\
    (o <> Completed ->
     exists e w1, try_block E f cp w = ((cp, Raise e), w1)) /\
    (services_answer E (chunks_coll w) -> o = Completed) /\
    chunks_coll w' = chunks_coll w.
Proof.
  intros [[c Hc] _] Hl.
  pose proof (process_fact_index E f cp w) as Hindex. revert Hindex.
  unfold process_fact. intros Hindex.
  destruct (try_block_spec E f cp w c l Hc)
    as [(w4 & w' & Htry & Htr) | (e & w1 & Htry & Htr & Hserv)];
    rewrite Htry.
  - destruct (advanced_well_formed E cp (fact_number f) true c l w4 Hl)
      as (Hwf & Hfl & Hlc).
    exists Completed, (advanced E cp (fact_number f) true c l w4), w'.
    split; [reflexivity |]. split; [exact Htr |].
    split; [exact Hwf |]. split; [exact Hfl |]. split; [exact Hlc |].
    split; [intros H; now destruct H |]. split; [reflexivity |].
    rewrite Htry in Hindex. exact Hindex.
  - set (n := fact_number f) in *.
    set (w4 := emit (Advance n false) w1).
    destruct (update_checkpoint_returns E cp n false w4 c l Hc)
      as (w' & Hrun & Htr'); [now right |].
    rewrite Hrun.
    destruct (advanced_well_formed E cp n false c l w4 Hl) as (Hwf & Hfl & Hlc).
    assert (Hfailed : forall o, o <> Completed ->
              failed_after l n o = l ++ [VInt n])
      by (intros []; [congruence | reflexivity | reflexivity]).
    destruct Htr as [Htr | Htr];
      [exists AssessFailed | exists StoreFailed];
      exists (advanced E cp n false c l w4), w';
      (split; [reflexivity |]);
      (split; [rewrite Htr'; subst w4; cbn [emit trace]; rewrite Htr;
               rewrite <- !app_assoc; reflexivity |]);
      (split; [exact Hwf |]);
      (split; [rewrite Hfailed by discriminate; exact Hfl |]);
      (split; [exact Hlc |]);
      (split; [intros _; eauto |]);
      (split; [intros H; now destruct Hserv |]);
      rewrite Htry in Hindex; fold n w4 in Hindex; rewrite Hrun in Hindex;
      exact Hindex.
Qed.

End PipelineFacts.

Section PipelineTheorems.
Import Pipeline.

(** With an integer cursor the pending claims are the claims of the
    catalogue above the cursor, in catalogue order. *)
Lemma facts_to_process_int (E : env) (facts : list fact) (c : Z) :
  facts_to_process E facts (VInt c)
  = Ok (List.filter (fun f => c <? fact_number f) facts).
Proof.
  induction facts as [|f rest IH]; [reflexivity |].
  cbn [facts_to_process greater List.filter]. rewrite IH. reflexivity.
Qed.

Lemma map_filter_numbers (facts : list fact) (c : Z) :
  List.map fact_number (List.filter (fun f => c <? fact_number f) facts)
  = List.filter (fun n => c <? n) (List.map fact_number facts).
Proof.
  induction facts as [|f rest IH]; [reflexivity |].
  cbn [List.filter List.map]. destruct (c <? fact_number f); cbn; now rewrite IH.
Qed.

(** The loop on a checkpoint record returns, and its calls are those
    of the claims in order, each with its outcome; the cursor ends on
    the last claim. *)
Lemma review_loop_spec (E : env) (facts : list fact) (cp : dict) (w : world) :
  well_formed cp ->
  exists outs cp' w',
    review_loop E facts cp w = (Ok cp', w') /\
    List.length outs = List.length facts /\
    trace w'
      = trace w
        ++ concat (zip_with events_of (List.map fact_number facts) outs) /\
    well_formed cp' /\
    cp' !! "last_completed_fact"
      = match last facts with
        | Some f => Some (VInt (fact_number f))
        | None => cp !! "last_completed_fact"
        end /\
    (services_answer E (chunks_coll w) ->
     outs = repeat Completed (List.length facts)).
Proof.
  revert cp w. induction facts as [|f rest IH]; intros cp w Hwf.
  - exists [], cp, w. cbn. rewrite app_nil_r. repeat split; auto; apply Hwf.
  - destruct Hwf as [Hc [l Hl]].
    destruct (process_fact_spec E f cp w l (conj Hc (ex_intro _ l Hl)) Hl)
      as (o & cp1 & w1 & Hrun & Htr & Hwf1 & _ & Hlc & _ & Hserv & Hindex).
    destruct (IH cp1 w1 Hwf1)
      as (outs & cp' & w' & Hloop & Hlen & Htr' & Hwf' & Hlc' & Hserv').
    rewrite Hindex in Hserv'.
    exists (o :: outs), cp', w'. cbn [review_loop]. rewrite Hrun.
    split; [exact Hloop |]. split; [cbn; now rewrite Hlen |].
    split; [rewrite Htr', Htr; cbn; now rewrite <- app_assoc |].
    split; [exact Hwf' |]. split.
    + rewrite Hlc'. clear - Hlc. destruct rest as [|g rest]; [exact Hlc |].
      change (last (f :: g :: rest)) with (last (g :: rest)).
      destruct (proj2 (last_is_Some (g :: rest))) as [h ->];
        [discriminate | reflexivity].
    + intros H. cbn. now rewrite (Hserv H), (Hserv' H).
Qed.

(** C1: a run that loads a checkpoint record with
    [last_completed_fact = 5] on a catalogue listing the claims 1 to 10
    takes as pending the claims of the catalogue whose number is above
    5, and processes the claims 6, 7, 8, 9 and 10 in that order and no
    other: for each in turn it calls the assessment, the upsert of the
    result (and its mirror) and the advance of the checkpoint.  The
    upsert of a claim is left out only when its assessment raised, and
    the advance then records the failure; when the embedding service and
    the database answer, every claim gets all the calls and the run
    returns with the cursor on 10. *)
Theorem resume_after_five (E : env) (w : world) (cp : dict) (test_count : Z) :
  let catalogue := flat_map (FactLoader.facts_of_file E) (csv_dir w) in
  checkpoint_file w = Contents cp ->
  cp !! "last_completed_fact" = Some (VInt 5) ->
  well_formed cp ->
  List.map fact_number catalogue = [1; 2; 3; 4; 5; 6; 7; 8; 9; 10] ->
  exists pending outs r w',
    facts_to_process E catalogue (VInt 5) = Ok pending /\
    pending = List.filter (fun f => 5 <? fact_number f) catalogue /\
    List.map fact_number pending = [6; 7; 8; 9; 10] /\
    run E false test_count w = (r, w') /\
    List.length outs = 5%nat /\
    trace w'
      = trace w ++ concat (zip_with events_of [6; 7; 8; 9; 10] outs) /\
    (services_answer E (chunks_coll w) ->
     trace w'
       = trace w
         ++ flat_map (fun n => [Assess n; Upsert n; Mirror n; Advance n true])
              [6; 7; 8; 9; 10] /\
     exists cp', r = Ok cp' /\
                 cp' !! "last_completed_fact" = Some (VInt 10)).
Proof.
  intros catalogue Hfile Hcursor Hwf Hnumbers.
  set (pending := List.filter (fun f => 5 <? fact_number f) catalogue).
  assert (Hpending : List.map fact_number pending = [6; 7; 8; 9; 10]).
  { subst pending. rewrite map_filter_numbers, Hnumbers. reflexivity. }
  set (w0 := tick w).
  destruct (review_loop_spec E pending cp w0 Hwf)
    as (outs & cp' & w1 & Hloop & Hlen & Htr & Hwf' & Hlc & Hserv).
  assert (Hfive : List.length pending = 5%nat).
  { rewrite <- (length_map fact_number), Hpending. reflexivity. }
  assert (Hlast : exists f, last pending = Some f /\ fact_number f = 10).
  { destruct pending as [|f1 [|f2 [|f3 [|f4 [|f5 [|f6 rest]]]]]];
      try discriminate. exists f5. cbn in Hpending. split; [reflexivity |].
    congruence. }
  destruct Hlast as (f10 & Hlast & Hten). rewrite Hlast, Hten in Hlc.
  assert (Hrun : run E false test_count w
            = (match mongo E (S (now w1)) with
               | None => Ok cp'
               | Some e => Raise e
               end, tick (tick w1))).
  { unfold run. rewrite bind_run. unfold FactLoader.load_all_facts.
    fold catalogue. unfold run_on. rewrite bind_run.
    unfold Checkpoint.load_checkpoint. rewrite Hfile.
    rewrite bind_run. unfold ret at 1. rewrite Hcursor. cbn [default].
    cbv [id].
    rewrite facts_to_process_int. fold pending. cbn [can_add_one negb].
    rewrite bind_run. unfold read_clock at 1. cbv beta iota. fold w0.
    rewrite bind_run, Hloop. cbv beta iota.
    rewrite bind_run. unfold read_clock. cbv beta iota.
    destruct Hwf' as [_ [l Hl]]. unfold failed_count.
    unfold failed_list in Hl.
    destruct (cp' !! "failed_facts") as [[]|]; try discriminate;
      cbn [default]; cbv [id]; cbv beta iota; rewrite bind_run;
      unfold mongo_call; cbn [now tick];
      destruct (mongo E (S (now w1))); reflexivity. }
  exists pending, outs, (match mongo E (S (now w1)) with
                         | None => Ok cp'
                         | Some e => Raise e
                         end), (tick (tick w1)).
  split; [apply facts_to_process_int |]. split; [reflexivity |].
  split; [exact Hpending |]. split; [exact Hrun |].
  split; [now rewrite Hlen |].
  split; [cbn [tick trace]; rewrite Htr, Hpending; reflexivity |].
  intros Hanswer. split.
  - cbn [tick trace]. rewrite Htr, Hpending, (Hserv Hanswer), Hfive.
    reflexivity.
  - destruct Hanswer as (Hmongo & _). rewrite Hmongo. eauto.
Qed.


End PipelineTheorems.

(** ** The chunker: termination and boundary selection *)

Section ChunkerTheorems.
Import Chunker.

(** The loop returns whenever every pass moves [start] forward: what
    can keep it running is only a pass that does not. *)
Lemma loop_returns_on_progress (self : DocumentChunker) (txt : list ascii)
    (metadata : option dict) :
  (forall s, 0 <= s < Z.of_nat (List.length txt) -> s < next_start self txt s) ->
  forall (fuel : nat) (st : state),
    0 <= start st ->
    Z.of_nat (List.length txt) - start st <= Z.of_nat fuel ->
    exists r, loop fuel self txt metadata st = Some r.
Proof.
  intros Hprogress fuel. induction fuel as [|fuel IH]; intros st Hpos Hfuel.
  - cbn [loop]. destruct (Z.ltb_spec (start st) (Z.of_nat (List.length txt)));
      [lia | eauto].
  - cbn [loop]. destruct (Z.ltb_spec (start st) (Z.of_nat (List.length txt)));
      [| eauto].
    apply IH; cbn [step start];
      specialize (Hprogress (start st) ltac:(lia)); lia.
Qed.

(** C2 fails on the code: with size 10 and overlap 3 (overlap below
    size) the loop on [looping_text] never ends.  The first pass cuts at
    the sentence end at offset 8 and sets [start] to 6; from there every
    pass cuts at the same sentence end and sets [start] to 6 again, so no
    number of passes returns a list. *)
Theorem chunk_text_diverges (fuel : nat) (metadata : option dict) :
  chunk_overlap looping_chunker < chunk_size looping_chunker /\
  next_start looping_chunker (Py.chars looping_text) 6 = 6 /\
  chunk_text fuel looping_chunker looping_text metadata = None.
Proof.
  split; [reflexivity |]. split; [vm_compute; reflexivity |].
  unfold chunk_text, looping_text at 1. cbv iota.
  destruct fuel as [|fuel]; [reflexivity |].
  cbn [loop]. change (start initial <? _) with true. cbv iota.
  apply looping_fixpoint. vm_compute. reflexivity.
Qed.

(** The same with the default size 1000 and overlap 200: one sentence
    end at offset 1 in a text of 1203 characters sends [start] to -198 and
    then to -200 for ever. *)
Lemma chunk_text_diverges_default (fuel : nat) (metadata : option dict) :
  chunk_text fuel default one_early_sentence metadata = None.
Proof.
  unfold chunk_text.
  replace one_early_sentence
    with (String "a"%char (Py.str (Py.chars ". " ++ repeat "x"%char 1200)))
    by (vm_compute; reflexivity).
  cbv iota.
  replace (String "a"%char (Py.str (Py.chars ". " ++ repeat "x"%char 1200)))
    with one_early_sentence by (vm_compute; reflexivity).
  destruct fuel as [|fuel]; [vm_compute; reflexivity |].
  cbn [loop]. replace (start initial <? _) with true by (vm_compute; reflexivity).
  set (st1 := step default (Py.chars one_early_sentence) metadata initial).
  assert (H1 : start st1 = -198) by (vm_compute; reflexivity).
  destruct fuel as [|fuel]; cbn [loop]; rewrite H1.
  - vm_compute. reflexivity.
  - replace (-198 <? _) with true by (vm_compute; reflexivity).
    apply default_fixpoint. cbn [step start]. rewrite H1.
    vm_compute. reflexivity.
Qed.




End ChunkerTheorems.

(** ** The claims on concrete runs *)

Section Runs.
Import Pipeline.

Lemma after_five_well_formed : well_formed Example.after_five.
Proof. split; eexists; reflexivity. Qed.

Lemma services_always_answer (judge : nat -> result string) :
  services_answer (Example.services judge) Example.indexed.
Proof.
  split; [reflexivity |].
  intros t s. eexists. split; [reflexivity |].
  intros c u [<- | [<- | [<- | [<- | []]]]] Hu; injection Hu as <-;
    eexists; reflexivity.
Qed.

Lemma resume_after_five_witness :
  exists outs r w',
    run Example.fenced false 10 resumed = (r, w') /\
    List.length outs = 5%nat /\
    trace w' = concat (zip_with events_of [6; 7; 8; 9; 10] outs) /\
    exists cp', r = Ok cp' /\ cp' !! "last_completed_fact" = Some (VInt 10).
Proof.
  destruct (resume_after_five Example.fenced resumed Example.after_five 10
              eq_refl eq_refl after_five_well_formed eq_refl)
    as (pending & outs & r & w' & _ & _ & _ & Hrun & Hlen & Htr & Hall).
  exists outs, r, w'. repeat split; try assumption.
  apply Hall, services_always_answer.
Defined.



End Runs.

Section Witnesses.
Import Retriever.

Lemma ranking_sorted_stable_witness :
  exists ranked,
    cosine_similarity_search Example.rambling example_query 2 example_index
      = (Ok (List.map to_result ranked), tick example_index) /\
    Z.of_nat (List.length ranked) <= 2 /\
    StronglySorted not_below ranked /\
    (forall s, In s (List.map snd example_sims) ->
       List.filter (ties s) ranked `prefix_of` List.filter (ties s) example_sims) /\
    sublist (List.map fst example_sims) Example.indexed.
Proof.
  apply (ranking_sorted_stable Example.rambling example_query 2
           example_index example_sims);
    [lia | reflexivity | vm_compute; reflexivity | vm_compute; reflexivity].
Defined.


Lemma fallback_distinction_witness :
  Agent.assess_fact Example.rambling (Example.claim 6)
      (Example.initial [] Missing)
    = (Ok (Agent.default_assessment "No relevant literature found"),
       tick (tick (Example.initial [] Missing))) /\
  exists a w2,
    Agent.assess_fact Example.rambling (Example.claim 6) resumed = (Ok a, w2) /\
    List.length (judge_log w2) = 3%nat /\
    a !! "score" = Some (VInt 50) /\
    a !! "key_evidence" = Some (VStr "Failed to parse LLM response").
Proof.
  split.
  - apply (proj1 (fallback_distinction Example.rambling (Example.claim 6)
                    (Example.initial [] Missing))).
    reflexivity.
  - destruct (Retriever.retrieve Example.rambling (fact_text (Example.claim 6))
                None resumed) as [[[|top rest] | e] w1] eqn:Hret;
      try (vm_compute in Hret; discriminate).
    destruct (proj2 (proj2 (fallback_distinction Example.rambling
                              (Example.claim 6) resumed))
                top rest w1 Hret rambling_undecodable)
      as (w2 & Hrun & Hlog & Hscore & _ & Hevidence & _).
    exists (with_metadata Ollama.parse_failure (Example.claim 6) (top :: rest) top), w2.
    auto.
Defined.

Lemma upsert_twice_witness :
  exists w1 w2,
    Assessments.upsert Example.rambling 7
        (Agent.default_assessment "first") 0%float resumed = (Ok tt, w1) /\
    Assessments.upsert Example.rambling 7 Ollama.parse_failure 0%float w1
      = (Ok tt, w2) /\
    Assessments.count 7 (assessments_coll w2) = 1%nat /\
    forall doc, In doc (assessments_coll w2) -> Assessments.keyed 7 doc = true ->
                doc !! "assessment_result" = Some (VDict Ollama.parse_failure).
Proof.
  destruct (Assessments.upsert Example.rambling 7
              (Agent.default_assessment "first") 0%float resumed)
    as [[[] | e] w1] eqn:H1; [| vm_compute in H1; discriminate].
  destruct (Assessments.upsert Example.rambling 7 Ollama.parse_failure
              0%float w1) as [[[] | e] w2] eqn:H2;
    [| unfold Assessments.upsert, mongo_call in H2; cbn in H2; discriminate].
  exists w1, w2. split; [reflexivity |]. split; [exact H2 |].
  apply (upsert_twice Example.rambling 7 (Agent.default_assessment "first")
           Ollama.parse_failure 0%float 0%float resumed w1 w2);
    [cbn; lia | exact H1 | exact H2].
Defined.

Lemma update_checkpoint_frame_witness :
  exists cp' w',
    Checkpoint.update_checkpoint Example.rambling Example.after_five 6 false
        resumed = ((cp', Ok tt), w') /\
    cp' !! "last_completed_fact" = Some (VInt 6) /\
    cp' !! "facts_processed" = Some (VInt 6) /\
    cp' !! "failed_facts" = Some (VList [VInt 6]) /\
    cp' !! "total_facts" = Some (VInt 10) /\
    cp' !! "started_at" = Some (VStr "T0").
Proof.
  destruct (update_checkpoint_frame Example.rambling Example.after_five 6 false
              resumed 5 [] eq_refl (or_intror eq_refl))
    as (cp' & w' & Hrun & Hcursor & Hcount & Hfailed & _ & Htotal & Hstart & _).
  exists cp', w'. rewrite Htotal, Hstart. repeat split; assumption.
Defined.

End Witnesses.

(** * Further properties *)

(** ** The retry loop of the judge client *)

Section RetryFacts.
Import Ollama.

Lemma after_requests_zero (msgs : list message) (w : world) :
  after_requests msgs 0 w = w.
Proof.
  destruct w. unfold after_requests. cbn. rewrite app_nil_r, Nat.add_0_r.
  reflexivity.
Qed.

Lemma after_requests_succ (msgs : list message) (k : nat) (w : world) :
  after_requests msgs k (tick (log_request msgs w))
  = after_requests msgs (S k) w.
Proof.
  unfold after_requests. cbn. rewrite <- app_assoc. f_equal. lia.
Qed.

Lemma after_requests_next (msgs : list message) (k : nat) (w : world) :
  tick (log_request msgs (after_requests msgs k w))
  = after_requests msgs (S k) w.
Proof.
  unfold after_requests, tick, log_request. cbn [now judge_log chunks_coll
    assessments_coll csv_dir checkpoint_file trace].
  f_equal; [lia |]. rewrite <- app_assoc. f_equal.
  change [msgs] with (repeat msgs 1). rewrite <- repeat_app.
  f_equal. lia.
Qed.

(** Passes whose answers do not decode, short of the last one, lead to
    the next pass. *)
Lemma attempts_skip (E : env) (prompt : string) (sys : option string)
    (m attempt : Z) (n k : nat) (w : world) :
  (k < n)%nat ->
  attempt + Z.of_nat n = m ->
  undecodable_until E (request prompt sys) (now w) k ->
  attempts E prompt sys m attempt n w
  = attempts E prompt sys m (attempt + Z.of_nat k) (n - k)
      (after_requests (request prompt sys) k w).
Proof.
  revert attempt n w. induction k as [|k IH]; intros attempt n w Hk Hm Hjudge.
  - rewrite after_requests_zero, Z.add_0_r, Nat.sub_0_r. reflexivity.
  - destruct n as [|n]; [lia |].
    cbn [attempts]. rewrite bind_run.
    destruct (Hjudge 0%nat) as (text & Hchat & Hloads); [lia |].
    rewrite Nat.add_0_r in Hchat.
    unfold generate at 1. rewrite Hchat, Hloads.
    destruct (Z.eqb_spec attempt (m - 1)) as [Hlast | _]; [lia |].
    rewrite IH; [| lia | lia |].
    + rewrite after_requests_succ. f_equal. lia.
    + intros i Hi. destruct (Hjudge (S i)) as (t & Ht & Hl); [lia |].
      exists t. split; [| exact Hl]. cbn [now tick log_request].
      rewrite <- Ht. f_equal. lia.
Qed.

(** The pass that follows [k] answers that do not decode. *)
Lemma generate_json_pass (E : env) (prompt : string) (sys : option string)
    (max_retries : Z) (k : nat) (w : world) :
  Z.of_nat k < max_retries ->
  undecodable_until E (request prompt sys) (now w) k ->
  exists n,
    generate_json E prompt sys max_retries w
    = attempts E prompt sys max_retries (Z.of_nat k) (S n)
        (after_requests (request prompt sys) k w).
Proof.
  intros Hk Hjudge. unfold generate_json.
  rewrite (attempts_skip E prompt sys max_retries 0 (Z.to_nat max_retries) k w);
    [| lia | lia | exact Hjudge].
  destruct (Z.to_nat max_retries - k)%nat as [|n] eqn:Hn; [lia |].
  exists n. reflexivity.
Qed.

(** X1: [generate_json] returns the first answer of the judge that
    decodes, and stops calling there.  When the first [k] answers are
    texts that do not decode, [k] is below [max_retries], and answer
    [k+1] decodes to [v], the call returns [v] after exactly [k+1]
    requests; answers that would come later are never asked for. *)
Theorem generate_json_first_decodable (E : env) (prompt : string)
    (sys : option string) (max_retries : Z) (k : nat) (w : world)
    (text : string) (v : value) :
  Z.of_nat k < max_retries ->
  undecodable_until E (request prompt sys) (now w) k ->
  chat E (now w + k) (request prompt sys) = Ok text ->
  json_loads E (json_text text) = Some v ->
  generate_json E prompt sys max_retries w
  = (Ok v, after_requests (request prompt sys) (S k) w).
Proof.
  intros Hk Hjudge Hchat Hloads.
  destruct (generate_json_pass E prompt sys max_retries k w Hk Hjudge)
    as (n & ->).
  cbn [attempts]. rewrite bind_run. unfold generate at 1.
  cbn [now after_requests]. rewrite Hchat, Hloads.
  unfold ret. f_equal. apply (after_requests_next _ k w).
Qed.

Lemma generate_json_first_decodable_witness :
  generate_json (eventually 2 (Ok Example.verdict_text)) "p" None 3
    (Example.initial [] Missing)
  = (Ok Example.verdict,
     after_requests (request "p" None) 3 (Example.initial [] Missing)).
Proof.
  apply (generate_json_first_decodable
           (eventually 2 (Ok Example.verdict_text)) "p" None 3 2
           (Example.initial [] Missing) Example.verdict_text Example.verdict).
  - lia.
  - intros i Hi. exists "I cannot say.".
    destruct i as [|[|i]]; [split; reflexivity | split; reflexivity | lia].
  - reflexivity.
  - reflexivity.
Defined.



End RetryFacts.

(** ** What the agent makes of the judge's answer *)

Section VerdictFacts.
Import Agent.

(** X3: when the judge's answer decodes to an object, [assess_fact]
    returns that object with three keys written over it: the claim's
    number, the number of retrieved chunks and the similarity of the
    first chunk.  Values the judge gave under these keys are replaced;
    every other key is the judge's, unchecked: a score outside 1-100, or
    no score at all, is passed on as it is. *)
Theorem assess_fact_passes_verdict (E : env) (f : fact) (w w1 w2 : world)
    (top : Retriever.retrieved) (rest : list Retriever.retrieved) (d : dict) :
  Retriever.retrieve E (fact_text f) None w = (Ok (top :: rest), w1) ->
  judge_call E f (top :: rest) w1 = (Ok (VDict d), w2) ->
  exists a,
    assess_fact E f w = (Ok a, w2) /\
    a !! "fact_number" = Some (VInt (fact_number f)) /\
    a !! "retrieved_chunks_count"
      = Some (VInt (Z.of_nat (List.length (top :: rest)))) /\
    a !! "top_similarity_score"
      = Some (VFloat (Retriever.similarity_score top)) /\
    forall key, ~ In key retrieval_keys -> a !! key = d !! key.
Proof.
  intros Hret Hjudge. unfold judge_call, judge_prompt in Hjudge.
  eexists. split.
  - unfold assess_fact. rewrite bind_run, Hret.
    unfold try_except. rewrite bind_run, Hjudge. reflexivity.
  - split; [| split; [| split]]; [now lookup_key .. |].
    intros key Hkey. unfold retrieval_keys in Hkey. cbn [In] in Hkey.
    rewrite !lookup_insert_ne; [reflexivity | intros <-; tauto ..].
Qed.

Lemma assess_fact_passes_verdict_witness :
  exists a w2,
    assess_fact Example.fenced (Example.claim 6) resumed = (Ok a, w2) /\
    a !! "fact_number" = Some (VInt 6) /\
    a !! "retrieved_chunks_count" = Some (VInt 3) /\
    a !! "score" = Some (VInt 80).
Proof.
  edestruct (assess_fact_passes_verdict Example.fenced (Example.claim 6)
               resumed) as (a & Hrun & Hn & Hcount & _ & Hother).
  - vm_compute. reflexivity.
  - vm_compute. reflexivity.
  - exists a. eexists. split; [exact Hrun |]. split; [exact Hn |].
    split; [exact Hcount |].
    rewrite Hother; [reflexivity |].
    cbn. intros [H | [H | [H | []]]]; discriminate.
Defined.



End VerdictFacts.

(** ** The tabular report *)

Section CsvFacts.
Import CsvUpdater.

Lemma update_first_listed (n : Z) (g : csv_row -> csv_row)
    (rs : list csv_row) :
  (forall r, Number (g r) = Number r /\ fact_column (g r) = fact_column r) ->
  List.map (fun r => (Number r, fact_column r))
    (update_first n g (List.map ensure_columns rs))
  = List.map (fun r => (Number r, fact_column r)) rs.
Proof.
  intros Hg. induction rs as [|r rs IH]; [reflexivity |].
  cbn [List.map update_first]. cbn [ensure_columns Number].
  destruct (Number r =? n).
  - cbn [List.map]. destruct (Hg (ensure_columns r)) as [-> ->].
    cbn [ensure_columns Number fact_column]. f_equal.
    rewrite List.map_map. reflexivity.
  - cbn [List.map]. cbn [ensure_columns Number fact_column]. now rewrite IH.
Qed.

Lemma facts_of_rows (E : env) (f f' : csv_file) (rs rs' : list csv_row) :
  name f' = name f -> stem f' = stem f ->
  rows f = Some rs -> rows f' = Some rs' ->
  List.map (fun r => (Number r, fact_column r)) rs'
  = List.map (fun r => (Number r, fact_column r)) rs ->
  FactLoader.facts_of_file E f' = FactLoader.facts_of_file E f.
Proof.
  intros Hname Hstem Hrs Hrs' Hmap. unfold FactLoader.facts_of_file.
  rewrite Hname, Hstem, Hrs, Hrs'.
  destruct (String.eqb (name f) "README.md"); [reflexivity |].
  clear - Hmap. revert rs' Hmap.
  induction rs as [|r rs IH]; intros [|r' rs'] Hmap;
    try discriminate; [reflexivity |].
  cbn in Hmap. injection Hmap as Hn Hc Hmap. cbn [List.map].
  rewrite Hn, Hc. f_equal. now apply IH.
Qed.

Lemma update_dir_listed (E : env) (n : Z) (g : csv_row -> csv_row)
    (dir : list csv_file) :
  (forall r, Number (g r) = Number r /\ fact_column (g r) = fact_column r) ->
  listed E (update_dir n g dir) = listed E dir.
Proof.
  intros Hg. unfold listed. induction dir as [|f dir IH]; [reflexivity |].
  cbn [update_dir]. destruct (has_fact n f) eqn:Hhas.
  - cbn [flat_map]. f_equal.
    destruct (rows f) as [rs|] eqn:Hrs.
    + apply (facts_of_rows E f _ rs
               (update_first n g (List.map ensure_columns rs)));
        [reflexivity | reflexivity | exact Hrs | reflexivity |].
      apply update_first_listed, Hg.
    + unfold FactLoader.facts_of_file. cbn [name stem rows]. now rewrite Hrs.
  - cbn [flat_map]. now rewrite IH.
Qed.

Lemma update_fact_listed (E : env) (n : Z) (a : dict) (w : world) :
  listed E (csv_dir (update_fact E n a w)) = listed E (csv_dir w).
Proof.
  unfold update_fact. destruct (existsb _ _); [| reflexivity].
  destruct (join_papers _) as [papers|]; [| reflexivity].
  cbn [tick set_csv_dir csv_dir]. apply update_dir_listed.
  intros r. split; reflexivity.
Qed.

Lemma update_fact_kept (E : env) (n : Z) (a : dict) (w : world) :
  let w' := update_fact E n a w in
  chunks_coll w' = chunks_coll w /\
  assessments_coll w' = assessments_coll w /\
  checkpoint_file w' = checkpoint_file w /\
  judge_log w' = judge_log w.
Proof.
  cbn zeta. unfold update_fact. destruct (existsb _ _); [| auto].
  destruct (join_papers _); auto.
Qed.

(** X5: mirroring an assessment into the tables never changes the
    catalogue.  Whatever the assessment holds, after [update_fact] the
    tables list the same claims as before (same numbers, same texts,
    same sections and files, same order), so a later [load_all_facts]
    returns the list the run started from. *)
Theorem update_fact_keeps_catalogue (E : env) (n : Z) (a : dict) (w : world) :
  (FactLoader.load_all_facts E (update_fact E n a w)).1
  = (FactLoader.load_all_facts E w).1 /\
  List.map name (csv_dir (update_fact E n a w)) = List.map name (csv_dir w).
Proof.
  split.
  - unfold FactLoader.load_all_facts. cbn [fst]. f_equal.
    apply (update_fact_listed E n a w).
  - unfold update_fact. destruct (existsb _ _); [| reflexivity].
    destruct (join_papers _) as [papers|]; [| reflexivity].
    cbn [tick set_csv_dir csv_dir].
    generalize (write_cells a papers (strftime_now E (now w))). intros g.
    induction (csv_dir w) as [|f dir IH]; [reflexivity |].
    cbn [update_dir]. destruct (has_fact n f); cbn [List.map name]; congruence.
Qed.







End CsvFacts.

(** ** The review loop and its checkpoint *)

Section LoopFacts.
Import Pipeline.

Lemma kept_refl (w : world) : kept w w.
Proof. repeat split. Qed.

Lemma kept_trans (w1 w2 w3 : world) : kept w1 w2 -> kept w2 w3 -> kept w1 w3.
Proof.
  unfold kept. intros (? & ? & ? & ? & ?) (? & ? & ? & ? & ?).
  repeat split; congruence.
Qed.

Lemma attempts_kept (E : env) (prompt : string) (sys : option string)
    (m attempt : Z) (n : nat) (w : world) :
  kept w (Ollama.attempts E prompt sys m attempt n w).2.
Proof.
  revert attempt w. induction n as [|n IH]; intros attempt w;
    [apply kept_refl |].
  cbn [Ollama.attempts]. rewrite bind_run.
  assert (Hgen : kept w (Ollama.generate E prompt sys w).2)
    by (repeat split).
  destruct (Ollama.generate E prompt sys w) as [[text | e] w1];
    cbn [snd] in Hgen; [| exact Hgen].
  destruct (json_loads E _); [exact Hgen |].
  destruct (attempt =? m - 1); [exact Hgen |].
  exact (kept_trans _ _ _ Hgen (IH _ _)).
Qed.

Lemma assess_fact_kept (E : env) (f : fact) (w : world) :
  kept w (Agent.assess_fact E f w).2.
Proof.
  unfold Agent.assess_fact. rewrite bind_run.
  assert (Hret : kept w (Retriever.retrieve E (fact_text f) None w).2).
  { unfold Retriever.retrieve, Retriever.embed_text,
      Retriever.cosine_similarity_search, bind, mongo_call.
    destruct (embeddings E (now w) (fact_text f)); cbn; [| repeat split].
    destruct (mongo E (S (now w))); repeat split. }
  destruct (Retriever.retrieve E (fact_text f) None w) as [[chunks | e] w1];
    cbn [snd] in Hret; [| exact Hret].
  destruct chunks as [|top rest]; [exact Hret |].
  unfold try_except. rewrite bind_run. unfold Ollama.generate_json.
  pose proof (attempts_kept E
                (Agent.create_prompt (fact_number f) (fact_text f)
                   (Agent.build_context E (top :: rest)))
                (Some Agent.SYSTEM_PROMPT) Ollama.default_max_retries 0
                (Z.to_nat Ollama.default_max_retries) w1) as Hatt.
  destruct (Ollama.attempts _ _ _ _ _ _ w1) as [[v | e] w2];
    cbn [snd] in Hatt; [destruct v |]; cbn;
    exact (kept_trans _ _ _ Hret Hatt).
Qed.

Lemma upsert_kept (E : env) (n : Z) (a : dict) (t : float) (w : world) :
  let w' := (Assessments.upsert E n a t w).2 in
  chunks_coll w' = chunks_coll w /\ csv_dir w' = csv_dir w /\
  checkpoint_file w' = checkpoint_file w /\ trace w' = trace w.
Proof.
  cbn zeta. unfold Assessments.upsert, mongo_call. cbn.
  destruct (mongo E (S (now w))); repeat split.
Qed.

(** The [try] block either raises before the mirror, leaving the tables
    and the checkpoint as they were, or reaches the advance of the
    checkpoint. *)
Lemma try_block_cases (E : env) (f : fact) (cp : dict) (w : world) :
  let n := fact_number f in
  (exists a w3,
      try_block E f cp w
      = Checkpoint.update_checkpoint E cp n true
          (emit (Advance n true)
             (CsvUpdater.update_fact E n a (emit (Mirror n) w3))) /\
      trace w3 = trace w ++ [Assess n; Upsert n] /\
      chunks_coll w3 = chunks_coll w /\ csv_dir w3 = csv_dir w /\
      checkpoint_file w3 = checkpoint_file w)
  \/
  (exists e w1,
      try_block E f cp w = ((cp, Raise e), w1) /\
      (trace w1 = trace w ++ [Assess n] \/
       trace w1 = trace w ++ [Assess n; Upsert n]) /\
      chunks_coll w1 = chunks_coll w /\ csv_dir w1 = csv_dir w /\
      checkpoint_file w1 = checkpoint_file w /\
      ~ services_answer E (chunks_coll w)).
Proof.
  cbn zeta. unfold try_block, read_clock.
  set (n := fact_number f).
  set (w0 := emit (Assess n) (tick w)).
  destruct (assess_fact_kept E f w0) as (Hc0 & _ & Hd0 & Hf0 & Ht0).
  destruct (Agent.assess_fact E f w0) as [[a | e] w1] eqn:Hassess;
    cbn [snd] in Hc0, Hd0, Hf0, Ht0.
  - set (t := (time_time E (now w1) - time_time E (now w))%float).
    set (w2 := emit (Upsert n) (tick w1)).
    destruct (upsert_kept E n a t w2) as (Hc2 & Hd2 & Hf2 & Ht2).
    cbn zeta in Hc2, Hd2, Hf2, Ht2.
    destruct (Assessments.upsert E n a t w2) as [[[] | e] w3] eqn:Hstore;
      cbn [snd] in Hc2, Hd2, Hf2, Ht2.
    + left. exists a, w3. split; [reflexivity |].
      rewrite Ht2, Hc2, Hd2, Hf2. subst w2. cbn [emit tick trace chunks_coll
        csv_dir checkpoint_file]. rewrite Ht0, Hc0, Hd0, Hf0. subst w0.
      cbn [emit tick trace chunks_coll csv_dir checkpoint_file].
      rewrite <- !app_assoc. repeat split.
    + right. exists e, w3. split; [reflexivity |].
      rewrite Ht2, Hc2, Hd2, Hf2. subst w2. cbn [emit tick trace chunks_coll
        csv_dir checkpoint_file]. rewrite Ht0, Hc0, Hd0, Hf0. subst w0.
      cbn [emit tick trace chunks_coll csv_dir checkpoint_file].
      rewrite <- !app_assoc. split; [now right |]. repeat split.
      intros (Hmongo & _).
      unfold Assessments.upsert, mongo_call in Hstore.
      rewrite Hmongo in Hstore. discriminate.
  - right. exists e, w1. split; [reflexivity |].
    rewrite Ht0, Hc0, Hd0, Hf0. subst w0.
    cbn [emit tick trace chunks_coll csv_dir checkpoint_file].
    split; [now left |]. repeat split.
    intros Hserv.
    destruct (assess_fact_outcome E f (emit (Assess n) (tick w)))
      as [(e' & w1' & Hret & _) | (chunks & w1' & a & w'' & _ & Hok)];
      [| congruence].
    destruct (retrieve_answers E (fact_text f) None
                (emit (Assess n) (tick w)) Hserv)
      as (chunks & w'' & Hans). congruence.
Qed.

Lemma update_checkpoint_saves (E : env) (cp : dict) (n : Z)
    (success : bool) (w : world) (c : Z) (l : list value) :
  cp !! "facts_processed" = Some (VInt c) ->
  success = true \/ failed_list cp = Some l ->
  Checkpoint.update_checkpoint E cp n success w
  = ((advanced E cp n success c l w, Ok tt),
     saved E (advanced E cp n success c l w) w).
Proof.
  intros Hc Hl.
  unfold Checkpoint.update_checkpoint, Checkpoint.increment, advanced, saved.
  rewrite lookup_insert_ne by discriminate. rewrite Hc.
  destruct success.
  - unfold Checkpoint.save_checkpoint. cbn [now tick].
    destruct (disk E (S (now w))); reflexivity.
  - destruct Hl as [Hl | Hl]; [discriminate |].
    rewrite (record_failure_list _ n l).
    2:{ unfold failed_list in *.
        rewrite !lookup_insert_ne by discriminate. exact Hl. }
    unfold Checkpoint.save_checkpoint. cbn [now tick].
    destruct (disk E (S (now w))); reflexivity.
Qed.

Lemma saved_kept (E : env) (cp : dict) (w : world) :
  chunks_coll (saved E cp w) = chunks_coll w /\
  csv_dir (saved E cp w) = csv_dir w /\
  trace (saved E cp w) = trace w /\
  assessments_coll (saved E cp w) = assessments_coll w /\
  judge_log (saved E cp w) = judge_log w /\
  checkpoint_file (saved E cp w)
  = (if disk E (S (now w)) then Contents cp else checkpoint_file w).
Proof. unfold saved. destruct (disk E (S (now w))); repeat split. Qed.

(** One pass of the loop on a checkpoint record, in full: the dict it
    leaves, the world in which the checkpoint was saved, and what the
    pass kept. *)
Lemma process_fact_run (E : env) (f : fact) (cp : dict) (w : world)
    (c : Z) (l : list value) :
  cp !! "facts_processed" = Some (VInt c) ->
  failed_list cp = Some l ->
  let n := fact_number f in
  exists o w4,
    let cp' := advanced E cp n (completed o) c l w4 in
    process_fact E f cp w = ((cp', Ok tt), saved E cp' w4) /\
    trace w4 = trace w ++ events_of n o /\
    chunks_coll w4 = chunks_coll w /\
    listed E (csv_dir w4) = listed E (csv_dir w) /\
    checkpoint_file w4 = checkpoint_file w /\
    (services_answer E (chunks_coll w) -> o = Completed).
Proof.
  intros Hc Hl n. unfold process_fact.
  destruct (try_block_cases E f cp w)
    as [(a & w3 & Htry & Ht & Hch & Hd & Hf)
       | (e & w1 & Htry & Ht & Hch & Hd & Hf & Hserv)];
    fold n in Htry, Ht; rewrite Htry.
  - set (w4 := emit (Advance n true)
                 (CsvUpdater.update_fact E n a (emit (Mirror n) w3))).
    rewrite (update_checkpoint_saves E cp n true w4 c l Hc (or_introl eq_refl)).
    exists Completed, w4. cbn zeta. cbn [completed].
    split; [reflexivity |].
    destruct (update_fact_kept E n a (emit (Mirror n) w3))
      as (Hch' & _ & Hf' & _). cbn zeta in Hch', Hf'.
    subst w4. cbn [emit trace chunks_coll csv_dir checkpoint_file].
    rewrite update_fact_frame, Hch', Hf', update_fact_listed.
    cbn [emit trace chunks_coll csv_dir checkpoint_file].
    rewrite Ht, Hch, Hd, Hf. cbn [events_of]. rewrite <- !app_assoc.
    repeat split.
  - cbv beta iota. fold n.
    set (w4 := emit (Advance n false) w1).
    rewrite (update_checkpoint_saves E cp n false w4 c l Hc (or_intror Hl)).
    destruct Ht as [Ht | Ht]; [exists AssessFailed | exists StoreFailed];
      exists w4; cbn zeta; cbn [completed];
      (split; [reflexivity |]);
      subst w4; cbn [emit trace chunks_coll csv_dir checkpoint_file];
      rewrite Ht, Hch, Hd, Hf; cbn [events_of]; rewrite <- !app_assoc;
      repeat split; intros H; now destruct Hserv.
Qed.

Lemma advanced_fields (E : env) (cp : dict) (n : Z) (success : bool)
    (c : Z) (l : list value) (w : world) :
  failed_list cp = Some l ->
  let cp' := advanced E cp n success c l w in
  cp' !! "facts_processed" = Some (VInt (c + 1)) /\
  failed_list cp' = Some (if success then l else l ++ [VInt n]) /\
  cursor cp' = VInt n /\
  cp' !! "total_facts" = cp !! "total_facts" /\
  cp' !! "started_at" = cp !! "started_at".
Proof.
  intros Hl. unfold failed_list, advanced, cursor in *. cbn zeta.
  destruct success; lookup_key; repeat split; auto.
Qed.

(** The loop on a checkpoint record, in full. *)
Lemma review_loop_run (E : env) (facts : list fact) (cp : dict) (w : world)
    (c : Z) (l : list value) :
  cp !! "facts_processed" = Some (VInt c) ->
  failed_list cp = Some l ->
  exists outs cp' w',
    review_loop E facts cp w = (Ok cp', w') /\
    List.length outs = List.length facts /\
    trace w'
    = trace w ++ concat (zip_with events_of (List.map fact_number facts) outs) /\
    cp' !! "facts_processed"
    = Some (VInt (c + Z.of_nat (List.length facts))) /\
    failed_list cp'
    = Some (l ++ List.map VInt
                   (failed_numbers (List.map fact_number facts) outs)) /\
    cursor cp' = match last facts with
                 | Some f => VInt (fact_number f)
                 | None => cursor cp
                 end /\
    cp' !! "total_facts" = cp !! "total_facts" /\
    cp' !! "started_at" = cp !! "started_at" /\
    chunks_coll w' = chunks_coll w /\
    listed E (csv_dir w') = listed E (csv_dir w) /\
    ((forall t, disk E t = true) ->
     checkpoint_file w' = match facts with
                          | [] => checkpoint_file w
                          | _ :: _ => Contents cp'
                          end) /\
    ((forall t, disk E t = false) -> checkpoint_file w' = checkpoint_file w) /\
    (services_answer E (chunks_coll w) ->
     outs = repeat Completed (List.length facts)).
Proof.
  revert cp w c l. induction facts as [|f rest IH]; intros cp w c l Hc Hl.
  - exists [], cp, w. cbn. rewrite !app_nil_r, Z.add_0_r.
    repeat split; auto.
  - destruct (process_fact_run E f cp w c l Hc Hl)
      as (o & w4 & Hrun & Ht & Hch & Hd & Hf & Hserv).
    cbn zeta in Hrun.
    set (n := fact_number f) in *.
    set (cp1 := advanced E cp n (completed o) c l w4) in *.
    destruct (advanced_fields E cp n (completed o) c l w4 Hl)
      as (Hc1 & Hl1 & Hcur1 & Htot1 & Hst1). fold cp1 in Hc1, Hl1, Hcur1, Htot1, Hst1.
    destruct (saved_kept E cp1 w4) as (Hsch & Hsd & Hst & _ & _ & Hsf).
    destruct (IH cp1 (saved E cp1 w4) (c + 1) _ Hc1 Hl1)
      as (outs & cp' & w' & Hloop & Hlen & Htr & Hc' & Hl' & Hcur' & Htot'
          & Hst' & Hch' & Hd' & Hdisk & Hnodisk & Hserv').
    exists (o :: outs), cp', w'. cbn [review_loop]. rewrite Hrun.
    split; [exact Hloop |]. split; [cbn; now rewrite Hlen |].
    split.
    { rewrite Htr, Hst, Ht. cbn. fold n. now rewrite <- app_assoc. }
    split.
    { rewrite Hc'. do 2 f_equal. cbn [List.length]. lia. }
    split.
    { rewrite Hl'. f_equal. cbn [List.map failed_numbers]. fold n.
      destruct (completed o); cbn; [reflexivity |].
      now rewrite <- app_assoc. }
    split.
    { rewrite Hcur'. destruct rest as [|g rest]; [exact Hcur1 |].
      change (last (f :: g :: rest)) with (last (g :: rest)).
      destruct (proj2 (last_is_Some (g :: rest))) as [h ->];
        [discriminate | reflexivity]. }
    split; [congruence |]. split; [congruence |].
    split; [congruence |]. split; [congruence |].
    split.
    { intros Hall. rewrite (Hdisk Hall). destruct rest as [|g rest];
        [| reflexivity].
      cbn in Hloop. injection Hloop as <- <-. rewrite Hsf, Hall. reflexivity. }
    split.
    { intros Hnone. rewrite (Hnodisk Hnone), Hsf, Hnone. exact Hf. }
    intros H. cbn. rewrite (Hserv H). f_equal. apply Hserv'.
    rewrite Hsch, Hch. exact H.
Qed.

(** X7: the bookkeeping of the review loop.  On a checkpoint record the
    loop returns whatever the services do; [facts_processed] has grown by
    the number of claims handled, the failed ones included;
    [failed_facts] has grown by the numbers of the claims that failed, in
    the order they were handled, and by nothing else; [total_facts] and
    [started_at] are as they were. *)
Theorem review_loop_counts (E : env) (facts : list fact) (cp : dict)
    (w : world) (c : Z) (l : list value) :
  cp !! "facts_processed" = Some (VInt c) ->
  failed_list cp = Some l ->
  exists outs cp' w',
    review_loop E facts cp w = (Ok cp', w') /\
    List.length outs = List.length facts /\
    trace w'
    = trace w ++ concat (zip_with events_of (List.map fact_number facts) outs) /\
    cp' !! "facts_processed"
    = Some (VInt (c + Z.of_nat (List.length facts))) /\
    failed_list cp'
    = Some (l ++ List.map VInt
                   (failed_numbers (List.map fact_number facts) outs)) /\
    cp' !! "total_facts" = cp !! "total_facts" /\
    cp' !! "started_at" = cp !! "started_at".
Proof.
  intros Hc Hl.
  destruct (review_loop_run E facts cp w c l Hc Hl)
    as (outs & cp' & w' & Hloop & Hlen & Htr & Hc' & Hl' & _ & Htot & Hst & _).
  exists outs, cp', w'. auto 10.
Qed.

Lemma review_loop_counts_witness :
  exists outs cp' w',
    review_loop database_down [Example.claim 6; Example.claim 7]
      Example.after_five resumed = (Ok cp', w') /\
    List.length outs = 2%nat /\
    trace w' = concat (zip_with events_of [6; 7] outs) /\
    cp' !! "facts_processed" = Some (VInt 7) /\
    failed_list cp' = Some (List.map VInt (failed_numbers [6; 7] outs)) /\
    cp' !! "total_facts" = Some (VInt 10) /\
    cp' !! "started_at" = Some (VStr "T0").
Proof.
  exact (review_loop_counts database_down [Example.claim 6; Example.claim 7]
           Example.after_five resumed 5 [] eq_refl eq_refl).
Defined.

(** The world after the three calls a run makes around an empty or
    finished loop. *)
Lemma failed_count_list (cp : dict) (l : list value) :
  failed_list cp = Some l -> failed_count cp = Ok (Z.of_nat (List.length l)).
Proof.
  unfold failed_list, failed_count. intros H.
  destruct (cp !! "failed_facts") as [[]|]; try discriminate;
    injection H as <-; reflexivity.
Qed.

(** A run that finds a checkpoint record with cursor [c]. *)
Lemma run_with_checkpoint (E : env) (test_count : Z) (w w1 : world)
    (cp cp' : dict) (c : Z) (l : list value) :
  checkpoint_file w = Contents cp ->
  cursor cp = VInt c ->
  review_loop E (above c (listed E (csv_dir w))) cp (tick w) = (Ok cp', w1) ->
  failed_list cp' = Some l ->
  run E false test_count w
  = (match mongo E (S (now w1)) with
     | None => Ok cp'
     | Some e => Raise e
     end, tick (tick w1)).
Proof.
  intros Hfile Hcursor Hloop Hl. unfold cursor in Hcursor.
  unfold run. rewrite bind_run. unfold FactLoader.load_all_facts.
  fold (listed E (csv_dir w)). unfold run_on. rewrite bind_run.
  unfold Checkpoint.load_checkpoint. rewrite Hfile.
  rewrite bind_run. unfold ret at 1. rewrite Hcursor.
  rewrite facts_to_process_int. fold (above c (listed E (csv_dir w))).
  cbn [can_add_one negb].
  rewrite bind_run. unfold read_clock at 1. cbv beta iota.
  rewrite bind_run, Hloop. cbv beta iota.
  rewrite bind_run. unfold read_clock. cbv beta iota.
  rewrite (failed_count_list cp' l Hl). rewrite bind_run.
  unfold mongo_call. cbn [now tick].
  destruct (mongo E (S (now w1))); reflexivity.
Qed.

(** A run that finds no checkpoint it can load. *)
Lemma run_without_checkpoint (E : env) (test_count : Z) (w w1 : world)
    (cp' : dict) (l : list value) :
  checkpoint_file w = Missing \/ checkpoint_file w = Unreadable ->
  let catalogue := listed E (csv_dir w) in
  review_loop E (above 0 catalogue)
    (fresh_checkpoint E (Z.of_nat (List.length catalogue)) (now w))
    (tick (tick (tick w))) = (Ok cp', w1) ->
  failed_list cp' = Some l ->
  run E false test_count w
  = (match mongo E (S (now w1)) with
     | None => Ok cp'
     | Some e => Raise e
     end, tick (tick w1)).
Proof.
  intros Hfile catalogue Hloop Hl.
  unfold run. rewrite bind_run. unfold FactLoader.load_all_facts.
  fold (listed E (csv_dir w)). fold catalogue. unfold run_on. rewrite bind_run.
  assert (Hload : Checkpoint.load_checkpoint w = (Ok None, w))
    by (unfold Checkpoint.load_checkpoint; destruct Hfile as [-> | ->];
        reflexivity).
  rewrite Hload. rewrite bind_run.
  unfold Checkpoint.create_initial_checkpoint.
  fold (fresh_checkpoint E (Z.of_nat (List.length catalogue)) (now w)).
  replace (default (VInt 0)
             (fresh_checkpoint E (Z.of_nat (List.length catalogue)) (now w)
                !! "last_completed_fact")) with (VInt 0)
    by (unfold fresh_checkpoint; now lookup_key).
  rewrite facts_to_process_int. fold (above 0 catalogue).
  cbn [can_add_one negb].
  rewrite bind_run. unfold read_clock at 1. cbv beta iota.
  rewrite bind_run, Hloop. cbv beta iota.
  rewrite bind_run. unfold read_clock. cbv beta iota.
  rewrite (failed_count_list cp' l Hl). rewrite bind_run.
  unfold mongo_call. cbn [now tick].
  destruct (mongo E (S (now w1))); reflexivity.
Qed.

Lemma events_numbers (numbers : list Z) (outs : list outcome) (e : event) :
  In e (concat (zip_with events_of numbers outs)) ->
  In (event_number e) numbers.
Proof.
  revert outs. induction numbers as [|n numbers IH]; intros [|o outs];
    cbn; try tauto.
  intros H. apply in_app_or in H as [H | H]; [left | right; eauto].
  destruct o; cbn in H; intuition (subst; reflexivity).
Qed.

Lemma above_numbers (c : Z) (facts : list fact) (n : Z) :
  In n (List.map fact_number (above c facts)) ->
  c < n /\ In n (List.map fact_number facts).
Proof.
  unfold above. rewrite map_filter_numbers. intros H.
  apply List.filter_In in H as [Hin Hc]. split; [lia | exact Hin].
Qed.

(** X8: a run resumes strictly above the cursor, whatever the cursor
    and the catalogue.  A run that loads a checkpoint record with the
    integer cursor [c] handles the claims of the catalogue whose number
    is above [c], in catalogue order, each once per listing, and no
    other claim: every assessment the run makes is for a number above
    [c] that the catalogue lists.  When the embedding service and the
    database answer, every one of them completes and the run returns
    with the cursor on the last claim handled. *)
Theorem run_resumes_above_cursor (E : env) (test_count : Z) (w : world)
    (cp : dict) (c : Z) :
  checkpoint_file w = Contents cp ->
  cursor cp = VInt c ->
  well_formed cp ->
  let catalogue := listed E (csv_dir w) in
  let pending := above c catalogue in
  exists outs r w',
    run E false test_count w = (r, w') /\
    List.length outs = List.length pending /\
    trace w'
    = trace w ++ concat (zip_with events_of (List.map fact_number pending) outs) /\
    (forall n, In (Assess n) (trace w') ->
       In (Assess n) (trace w) \/
       (c < n /\ In n (List.map fact_number catalogue))) /\
    (services_answer E (chunks_coll w) ->
     outs = repeat Completed (List.length pending) /\
     exists cp',
       r = Ok cp' /\
       cursor cp' = match last pending with
                    | Some f => VInt (fact_number f)
                    | None => VInt c
                    end).
Proof.
  intros Hfile Hcursor [[c0 Hc0] [l Hl]] catalogue pending.
  destruct (review_loop_run E pending cp (tick w) c0 l Hc0 Hl)
    as (outs & cp' & w1 & Hloop & Hlen & Htr & _ & Hl' & Hcur & _ & _ & _
        & _ & _ & _ & Hserv).
  pose proof (run_with_checkpoint E test_count w w1 cp cp' c _
                Hfile Hcursor Hloop Hl') as Hrun.
  eexists outs, _, _. split; [exact Hrun |]. split; [exact Hlen |].
  cbn [tick trace] in *. split; [exact Htr |]. split.
  - intros n Hin. rewrite Htr in Hin.
    apply in_app_or in Hin as [Hin | Hin]; [now left | right].
    apply events_numbers in Hin. now apply above_numbers in Hin.
  - intros Hanswer. split; [apply Hserv, Hanswer |].
    destruct Hanswer as (Hmongo & _). rewrite Hmongo.
    exists cp'. split; [reflexivity |]. rewrite Hcur, Hcursor. reflexivity.
Qed.

Lemma run_resumes_above_cursor_witness :
  exists outs r w',
    run Example.fenced false 10 resumed = (r, w') /\
    List.length outs = 5%nat /\
    trace w' = concat (zip_with events_of [6; 7; 8; 9; 10] outs) /\
    (forall n, In (Assess n) (trace w') -> 5 < n).
Proof.
  destruct (run_resumes_above_cursor Example.fenced 10 resumed
              Example.after_five 5 eq_refl eq_refl after_five_well_formed)
    as (outs & r & w' & Hrun & Hlen & Htr & Hnever & _).
  exists outs, r, w'. split; [exact Hrun |]. split; [exact Hlen |].
  split; [exact Htr |].
  intros n Hin. destruct (Hnever n Hin) as [[] | [Hn _]]. exact Hn.
Defined.

Lemma fresh_checkpoint_fields (E : env) (total : Z) (t : nat) :
  fresh_checkpoint E total t !! "facts_processed" = Some (VInt 0) /\
  failed_list (fresh_checkpoint E total t) = Some [] /\
  fresh_checkpoint E total t !! "total_facts" = Some (VInt total) /\
  cursor (fresh_checkpoint E total t) = VInt 0.
Proof. unfold failed_list, cursor, fresh_checkpoint. now lookup_key. Qed.

(** X9: a run without a checkpoint starts from the top.  When the
    checkpoint file is missing, or is there but does not load, the run
    makes a new record whose [total_facts] is the size of the catalogue
    and handles the claims with a number above 0, in catalogue order; a
    claim numbered 0 or below is never handled.  When the embedding
    service and the database answer, the run returns a record in which
    [facts_processed] is the number of claims handled and no claim has
    failed. *)
Theorem run_fresh_start (E : env) (test_count : Z) (w : world) :
  checkpoint_file w = Missing \/ checkpoint_file w = Unreadable ->
  let catalogue := listed E (csv_dir w) in
  let pending := above 0 catalogue in
  exists outs r w',
    run E false test_count w = (r, w') /\
    List.length outs = List.length pending /\
    trace w'
    = trace w ++ concat (zip_with events_of (List.map fact_number pending) outs) /\
    (services_answer E (chunks_coll w) ->
     exists cp',
       r = Ok cp' /\
       cp' !! "total_facts" = Some (VInt (Z.of_nat (List.length catalogue))) /\
       cp' !! "facts_processed"
       = Some (VInt (Z.of_nat (List.length pending))) /\
       failed_list cp' = Some []).
Proof.
  intros Hfile catalogue pending.
  set (cp0 := fresh_checkpoint E (Z.of_nat (List.length catalogue)) (now w)).
  destruct (fresh_checkpoint_fields E (Z.of_nat (List.length catalogue)) (now w))
    as (Hc0 & Hl0 & Htot0 & _). fold cp0 in Hc0, Hl0, Htot0.
  destruct (review_loop_run E pending cp0 (tick (tick (tick w))) 0 [] Hc0 Hl0)
    as (outs & cp' & w1 & Hloop & Hlen & Htr & Hc' & Hl' & _ & Htot & _ & _
        & _ & _ & _ & Hserv).
  pose proof (run_without_checkpoint E test_count w w1 cp' _
                Hfile Hloop Hl') as Hrun.
  eexists outs, _, _. split; [exact Hrun |]. split; [exact Hlen |].
  cbn [tick trace] in *. split; [exact Htr |].
  intros Hanswer. pose proof (Hserv Hanswer) as Houts.
  destruct Hanswer as (Hmongo & _). rewrite Hmongo.
  exists cp'. split; [reflexivity |]. split; [congruence |].
  split; [exact Hc' |]. rewrite Hl', Houts. f_equal. cbn [app].
  clear. generalize (List.map fact_number pending).
  induction (List.length pending) as [|k IH]; intros [|n ns]; cbn; auto.
Qed.

Lemma run_fresh_start_witness :
  exists outs r w',
    run Example.fenced false 10 (Example.initial Example.indexed Unreadable)
    = (r, w') /\
    List.length outs = 10%nat /\
    trace w'
    = concat (zip_with events_of [1; 2; 3; 4; 5; 6; 7; 8; 9; 10] outs) /\
    exists cp',
      r = Ok cp' /\
      cp' !! "total_facts" = Some (VInt 10) /\
      cp' !! "facts_processed" = Some (VInt 10) /\
      failed_list cp' = Some [].
Proof.
  destruct (run_fresh_start Example.fenced 10
              (Example.initial Example.indexed Unreadable)
              (or_intror eq_refl))
    as (outs & r & w' & Hrun & Hlen & Htr & Hall).
  exists outs, r, w'. split; [exact Hrun |]. split; [exact Hlen |].
  split; [exact Htr |]. apply Hall, services_always_answer.
Defined.

(** X10: a checkpoint without its counter stops the run.  When the
    record lacks [facts_processed], [update_checkpoint] raises [KeyError]
    after it has set the cursor in memory, and writes nothing; in the
    loop the handler of a failed claim calls it again and raises too, so
    the first pending claim ends the loop with [KeyError]: the claim may
    have been assessed and stored, no later claim is handled, and the
    checkpoint file is as it was. *)
Theorem missing_counter_aborts (E : env) (f : fact) (rest : list fact)
    (cp : dict) (w : world) :
  cp !! "facts_processed" = None ->
  let missing := Exn "KeyError" "'facts_processed'" in
  (forall n success w0,
      Checkpoint.update_checkpoint E cp n success w0
      = ((<["last_completed_fact" := VInt n]> cp, Raise missing), w0)) /\
  exists evs w',
    review_loop E (f :: rest) cp w = (Raise missing, w') /\
    trace w' = trace w ++ evs /\
    Forall (fun e => event_number e = fact_number f) evs /\
    checkpoint_file w' = checkpoint_file w.
Proof.
  intros Hnone missing.
  assert (Hraise : forall cp0 n success w0,
             cp0 !! "facts_processed" = None ->
             Checkpoint.update_checkpoint E cp0 n success w0
             = ((<["last_completed_fact" := VInt n]> cp0, Raise missing), w0)).
  { intros cp0 n success w0 H0.
    unfold Checkpoint.update_checkpoint, Checkpoint.increment.
    rewrite lookup_insert_ne by discriminate. now rewrite H0. }
  split; [intros n success w0; now apply Hraise |].
  cbn [review_loop]. unfold process_fact.
  set (n := fact_number f).
  destruct (try_block_cases E f cp w)
    as [(a & w3 & Htry & Ht & _ & _ & Hf)
       | (e & w1 & Htry & Ht & _ & _ & Hf & _)];
    fold n in Htry, Ht; rewrite Htry.
  - rewrite (Hraise cp n true _ Hnone).
    rewrite Hraise by (now rewrite lookup_insert_ne by discriminate).
    eexists [Assess n; Upsert n; Mirror n; Advance n true; Advance n false], _.
    split; [reflexivity |].
    destruct (update_fact_kept E n a (emit (Mirror n) w3)) as (_ & _ & Hf' & _).
    cbn zeta in Hf'.
    cbn [emit trace checkpoint_file]. rewrite update_fact_frame, Hf'.
    cbn [emit trace checkpoint_file]. rewrite Ht, Hf, <- !app_assoc.
    split; [reflexivity |]. split; [| reflexivity].
    repeat constructor.
  - cbv beta iota. fold n. rewrite (Hraise cp n false _ Hnone).
    destruct Ht as [Ht | Ht]; eexists _, _; (split; [reflexivity |]);
      cbn [emit trace checkpoint_file]; rewrite Ht, Hf, <- !app_assoc;
      (split; [reflexivity |]); (split; [| reflexivity]);
      repeat constructor.
Qed.

Lemma missing_counter_aborts_witness :
  exists evs w',
    review_loop Example.fenced [Example.claim 1; Example.claim 2]
      (<["last_completed_fact" := VInt 0]> ∅)
      (Example.initial Example.indexed Missing)
    = (Raise (Exn "KeyError" "'facts_processed'"), w') /\
    trace w' = evs /\
    Forall (fun e => event_number e = 1) evs /\
    checkpoint_file w' = Missing.
Proof.
  exact (proj2 (missing_counter_aborts Example.fenced (Example.claim 1)
                  [Example.claim 2] (<["last_completed_fact" := VInt 0]> ∅)
                  (Example.initial Example.indexed Missing) eq_refl)).
Defined.

Lemma last_In {A : Type} (l : list A) (x : A) : last l = Some x -> In x l.
Proof.
  induction l as [|a [|b l] IH]; cbn; [discriminate | |].
  - intros [= ->]. now left.
  - intros H. right. apply IH. exact H.
Qed.

Lemma last_cons_cons {A : Type} (a b : A) (l : list A) :
  last (a :: b :: l) = last (b :: l).
Proof. reflexivity. Qed.

(** In an ascending catalogue no claim is numbered above the last of
    the pending ones. *)
Lemma ascending_last (c : Z) (facts : list fact) (fl : fact) :
  ascending (List.map fact_number facts) ->
  last (above c facts) = Some fl ->
  forall f, In f facts -> fact_number f <= fact_number fl.
Proof.
  unfold ascending. induction facts as [|g rest IH]; intros Hs Hlast f Hin;
    [destruct Hin |].
  cbn [List.map] in Hs. apply StronglySorted_inv in Hs as [Hs Hg].
  rewrite List.Forall_forall in Hg.
  assert (Hfl : c < fact_number fl).
  { apply last_In in Hlast. unfold above in Hlast.
    apply List.filter_In in Hlast as [_ H]. lia. }
  unfold above in Hlast. cbn [List.filter] in Hlast.
  fold (above c rest) in Hlast.
  destruct (Z.ltb_spec c (fact_number g)) as [Hc | Hc].
  - destruct (above c rest) as [|h pending] eqn:Hpending.
    + injection Hlast as <-. destruct Hin as [<- | Hin]; [lia |].
      assert (Hle : fact_number g <= fact_number f)
        by (apply Hg, List.in_map, Hin).
      assert (Hnot : In f (above c rest) -> False)
        by (rewrite Hpending; intros []).
      destruct (Z.ltb_spec c (fact_number f)) as [Hcf | Hcf]; [| lia].
      exfalso. apply Hnot. unfold above. apply List.filter_In.
      split; [exact Hin | lia].
    + rewrite last_cons_cons in Hlast.
      destruct Hin as [<- | Hin]; [| now apply IH].
      apply Hg, List.in_map. apply last_In in Hlast.
      rewrite <- Hpending in Hlast. unfold above in Hlast.
      now apply List.filter_In in Hlast as [H _].
  - destruct Hin as [<- | Hin]; [lia | now apply IH].
Qed.

Lemma above_nil (c : Z) (facts : list fact) :
  (forall f, In f facts -> fact_number f <= c) -> above c facts = [].
Proof.
  intros H. unfold above. induction facts as [|g rest IH]; [reflexivity |].
  cbn [List.filter].
  destruct (Z.ltb_spec c (fact_number g)) as [Hc | _].
  - specialize (H g (or_introl eq_refl)). lia.
  - apply IH. intros f Hin. apply H. now right.
Qed.

(** The cursor the loop leaves has no claim of an ascending catalogue
    above it. *)
Lemma nothing_above_last (c : Z) (facts : list fact) :
  ascending (List.map fact_number facts) ->
  above (match last (above c facts) with
         | Some f => fact_number f
         | None => c
         end) facts = [].
Proof.
  intros Hs. destruct (last (above c facts)) as [fl|] eqn:Hlast.
  - apply above_nil. now apply (ascending_last c).
  - apply last_None in Hlast. exact Hlast.
Qed.

(** A run that finds a checkpoint record with nothing above its
    cursor. *)
Lemma run_nothing_pending (E : env) (test_count : Z) (w : world)
    (cp : dict) (c : Z) (l : list value) :
  checkpoint_file w = Contents cp ->
  cursor cp = VInt c ->
  failed_list cp = Some l ->
  above c (listed E (csv_dir w)) = [] ->
  mongo E (S (S (now w))) = None ->
  run E false test_count w = (Ok cp, tick (tick (tick w))).
Proof.
  intros Hfile Hcursor Hl Hnil Hmongo.
  rewrite (run_with_checkpoint E test_count w (tick w) cp cp c l
             Hfile Hcursor); [| now rewrite Hnil | exact Hl].
  cbn [now tick]. now rewrite Hmongo.
Qed.

(** A run that finds no checkpoint and no claim above 0. *)
Lemma run_nothing_listed (E : env) (test_count : Z) (w : world) :
  checkpoint_file w = Missing \/ checkpoint_file w = Unreadable ->
  above 0 (listed E (csv_dir w)) = [] ->
  mongo E (S (S (S (S (now w))))) = None ->
  run E false test_count w
  = (Ok (fresh_checkpoint E (Z.of_nat (List.length (listed E (csv_dir w))))
           (now w)),
     tick (tick (tick (tick (tick w))))).
Proof.
  intros Hfile Hnil Hmongo.
  rewrite (run_without_checkpoint E test_count w (tick (tick (tick w)))
             (fresh_checkpoint E (Z.of_nat (List.length (listed E (csv_dir w))))
                (now w)) [] Hfile).
  - cbn [now tick]. now rewrite Hmongo.
  - now rewrite Hnil.
  - apply fresh_checkpoint_fields.
Qed.

(** After the loop, with a disk that takes every write, a second run
    finds nothing to handle. *)
Lemma rerun_after_loop (E : env) (test_count : Z) (w0 w1 : world)
    (cp0 cp1 : dict) (c c0 : Z) (l : list value) (catalogue : list fact) :
  (forall t, mongo E t = None) ->
  (forall t, disk E t = true) ->
  ascending (List.map fact_number catalogue) ->
  listed E (csv_dir w0) = catalogue ->
  cursor cp0 = VInt c ->
  cp0 !! "facts_processed" = Some (VInt c0) ->
  failed_list cp0 = Some l ->
  above c catalogue <> [] \/ checkpoint_file w0 = Contents cp0 ->
  review_loop E (above c catalogue) cp0 w0 = (Ok cp1, w1) ->
  run E false test_count (tick (tick w1))
  = (Ok cp1, tick (tick (tick (tick (tick w1))))).
Proof.
  intros Hmongo Hdisk Hasc Hcat Hcursor Hc0 Hl Hstart Hloop.
  destruct (review_loop_run E (above c catalogue) cp0 w0 c0 l Hc0 Hl)
    as (outs & cp' & w' & Hloop' & _ & _ & _ & Hl1 & Hcur1 & _ & _ & _
        & Hlisted & Hfile1 & _ & _).
  rewrite Hloop in Hloop'. injection Hloop' as <- <-.
  specialize (Hfile1 Hdisk).
  eapply (run_nothing_pending E test_count (tick (tick w1)) cp1
            (match last (above c catalogue) with
             | Some g => fact_number g
             | None => c
             end)).
  - cbn [tick checkpoint_file].
    destruct (above c catalogue) as [|f pending]; [| exact Hfile1].
    cbn in Hloop. injection Hloop as <- <-.
    destruct Hstart as [H | H]; [now destruct H | exact H].
  - rewrite Hcur1. destruct (last (above c catalogue)); [reflexivity |].
    exact Hcursor.
  - exact Hl1.
  - cbn [tick csv_dir]. rewrite Hlisted, Hcat.
    now apply nothing_above_last.
  - apply Hmongo.
Qed.

(** X11: running the review again after a run that came to its end
    does nothing.  Assume the catalogue lists the claims in ascending
    number order, the embedding service and the database answer, the
    disk takes every write, and the checkpoint file, if there is one that
    loads, holds a checkpoint record with an integer cursor.  Then the
    run returns, and a second run started where the first one ended
    returns too without handling any claim: the trace, the requests sent
    to the judge, the assessments, the tables and the checkpoint file
    are what the first run left. *)
Theorem second_run_handles_nothing (E : env) (test_count test_count' : Z)
    (w : world) :
  services_answer E (chunks_coll w) ->
  (forall t, disk E t = true) ->
  ascending (List.map fact_number (listed E (csv_dir w))) ->
  resumable w ->
  exists cp1 w1 cp2 w2,
    run E false test_count w = (Ok cp1, w1) /\
    run E false test_count' w1 = (Ok cp2, w2) /\
    trace w2 = trace w1 /\
    judge_log w2 = judge_log w1 /\
    assessments_coll w2 = assessments_coll w1 /\
    csv_dir w2 = csv_dir w1 /\
    checkpoint_file w2 = checkpoint_file w1.
Proof.
  intros Hanswer Hdisk Hasc Hres.
  pose proof Hanswer as (Hmongo & _).
  set (catalogue := listed E (csv_dir w)) in *.
  assert (Hfresh : checkpoint_file w = Missing \/ checkpoint_file w = Unreadable ->
            exists cp1 w1 cp2 w2,
              run E false test_count w = (Ok cp1, w1) /\
              run E false test_count' w1 = (Ok cp2, w2) /\
              trace w2 = trace w1 /\ judge_log w2 = judge_log w1 /\
              assessments_coll w2 = assessments_coll w1 /\
              csv_dir w2 = csv_dir w1 /\
              checkpoint_file w2 = checkpoint_file w1).
  { intros Hfile0.
    set (cp0 := fresh_checkpoint E (Z.of_nat (List.length catalogue)) (now w)).
    destruct (fresh_checkpoint_fields E (Z.of_nat (List.length catalogue)) (now w))
      as (Hc0 & Hl0 & _ & Hcur0). fold cp0 in Hc0, Hl0, Hcur0.
    destruct (above 0 catalogue) as [|f pending] eqn:Hpending.
    - eexists _, _, _, _.
      split; [apply (run_nothing_listed E test_count w Hfile0 Hpending), Hmongo |].
      split; [apply (run_nothing_listed E test_count');
              [exact Hfile0 | exact Hpending | apply Hmongo] |].
      repeat split.
    - destruct (review_loop_run E (above 0 catalogue) cp0 (tick (tick (tick w)))
                  0 [] Hc0 Hl0)
        as (outs & cp1 & w1 & Hloop & _ & _ & _ & Hl1 & _).
      pose proof (run_without_checkpoint E test_count w w1 cp1 _
                    Hfile0 Hloop Hl1) as Hrun1.
      rewrite Hmongo in Hrun1.
      eexists _, _, _, _. split; [exact Hrun1 |].
      split.
      + apply (rerun_after_loop E test_count' (tick (tick (tick w))) w1 cp0 cp1
                 0 0 [] catalogue); auto.
        left. rewrite Hpending. discriminate.
      + repeat split. }
  unfold resumable in Hres.
  destruct (checkpoint_file w) as [| |cp] eqn:Hfile; [auto | auto |].
  clear Hfresh. destruct Hres as [[c Hcursor] [[c0 Hc0] [l Hl]]].
  destruct (review_loop_run E (above c catalogue) cp (tick w) c0 l Hc0 Hl)
    as (outs & cp1 & w1 & Hloop & _ & _ & _ & Hl1 & _).
  pose proof (run_with_checkpoint E test_count w w1 cp cp1 c _
                Hfile Hcursor Hloop Hl1) as Hrun1.
  rewrite Hmongo in Hrun1.
  eexists _, _, _, _. split; [exact Hrun1 |].
  split.
  - apply (rerun_after_loop E test_count' (tick w) w1 cp cp1 c c0 l catalogue);
      auto.
  - repeat split.
Qed.

Lemma second_run_handles_nothing_witness :
  exists cp1 w1 cp2 w2,
    run Example.fenced false 10 resumed = (Ok cp1, w1) /\
    run Example.fenced false 10 w1 = (Ok cp2, w2) /\
    trace w2 = trace w1 /\
    judge_log w2 = judge_log w1 /\
    assessments_coll w2 = assessments_coll w1 /\
    csv_dir w2 = csv_dir w1 /\
    checkpoint_file w2 = checkpoint_file w1.
Proof.
  apply (second_run_handles_nothing Example.fenced 10 10 resumed).
  - apply services_always_answer.
  - reflexivity.
  - unfold ascending. cbn. repeat constructor; lia.
  - split; [now exists 5 | apply after_five_well_formed].
Defined.



End LoopFacts.

(** ** The retriever beyond the ranking *)

Section RetrieverCounts.
Import Retriever.

Lemma slice_length {A : Type} (l : list A) (k : Z) :
  Z.of_nat (List.length (Py.slice l 0 k))
  = if k <? 0 then Z.max 0 (Z.of_nat (List.length l) + k)
    else Z.min k (Z.of_nat (List.length l)).
Proof.
  unfold Py.slice, Py.clamp_index. cbn [Z.ltb Z.compare].
  replace (Z.min 0 (Z.of_nat (List.length l))) with 0 by lia.
  change (drop (Z.to_nat 0) l) with l. rewrite Z.sub_0_r.
  rewrite length_take. destruct (Z.ltb_spec k 0); lia.
Qed.

Lemma StronglySorted_app_inv {A : Type} (R : A -> A -> Prop) (l1 l2 : list A) :
  StronglySorted R (l1 ++ l2) ->
  forall x y, In x l1 -> In y l2 -> R x y.
Proof.
  induction l1 as [|a l1 IH]; intros Hs x y Hx Hy; [destruct Hx |].
  cbn in Hs. apply StronglySorted_inv in Hs as [Hs Ha].
  destruct Hx as [<- | Hx]; [| now apply IH].
  rewrite List.Forall_forall in Ha. apply Ha, in_or_app. now right.
Qed.

(** X13: how many chunks a search returns, for every [k].  The
    candidates are the indexed chunks that got a score; with [n] of them
    the search returns [min k n] entries when [k] is not negative, so
    none for [k = 0] and all of them for [k >= n]; a negative [k] is
    not refused: the slice then drops the last [-k] of the ranking and
    [max 0 (n + k)] entries are returned.  No more candidates exist than
    chunks with an embedding. *)
Theorem search_count (E : env) (q : list float) (k : Z) (w : world)
    (sims : list scored) :
  mongo E (now w) = None ->
  similarities E q (np_norm E q) (with_embedding (chunks_coll w)) = Ok sims ->
  let n := Z.of_nat (List.length sims) in
  exists out,
    cosine_similarity_search E q k w = (Ok out, tick w) /\
    Z.of_nat (List.length out)
    = (if k <? 0 then Z.max 0 (n + k) else Z.min k n) /\
    (List.length sims <= List.length (with_embedding (chunks_coll w)))%nat /\
    (List.length (with_embedding (chunks_coll w))
     <= List.length (chunks_coll w))%nat.
Proof.
  intros Hmongo Hsims n.
  exists (List.map to_result (Py.slice (sort_desc sims) 0 k)).
  split; [| split; [| split]].
  - rewrite search_answer by exact Hmongo. f_equal.
    now apply rank_candidates.
  - rewrite length_map, slice_length.
    rewrite (Permutation_length (sort_desc_perm sims)). reflexivity.
  - pose proof (similarities_order E q (np_norm E q) (chunks_coll w) sims Hsims)
      as Hsub.
    clear - Hsims. revert sims Hsims.
    induction (with_embedding (chunks_coll w)) as [|[c v] rest IH];
      intros sims Hsims; cbn [similarities] in Hsims.
    + injection Hsims as <-. cbn. lia.
    + destruct (_ && _).
      * destruct (np_dot E q v); [| discriminate].
        destruct (similarities E q (np_norm E q) rest) as [l|];
          [| discriminate].
        injection Hsims as <-. cbn [List.length]. specialize (IH l eq_refl). lia.
      * specialize (IH sims Hsims). cbn [List.length]. lia.
  - unfold with_embedding. clear.
    induction (chunks_coll w) as [|c rest IH]; [cbn; lia |].
    cbn [omap list_omap]. destruct (embedding c); cbn [List.length]; lia.
Qed.

Lemma search_count_witness :
  exists out,
    cosine_similarity_search Example.rambling example_query (-1) example_index
    = (Ok out, tick example_index) /\
    Z.of_nat (List.length out) = 2.
Proof.
  destruct (search_count Example.rambling example_query (-1) example_index
              example_sims eq_refl) as (out & Hrun & Hlen & _).
  - vm_compute. reflexivity.
  - exists out. split; [exact Hrun | exact Hlen].
Defined.

(** X14: the chunks returned are the best ones.  For [k] not negative,
    the ranking splits into the entries returned and the candidates left
    out; every candidate is in one of the two, and no entry returned has
    a score below that of a candidate left out (scores that order, as
    numbers do). *)
Theorem search_returns_best (E : env) (q : list float) (k : Z) (w : world)
    (sims : list scored) :
  0 <= k ->
  mongo E (now w) = None ->
  similarities E q (np_norm E q) (with_embedding (chunks_coll w)) = Ok sims ->
  ordered_scores (List.map snd sims) = true ->
  exists returned left_out,
    cosine_similarity_search E q k w
    = (Ok (List.map to_result returned), tick w) /\
    Permutation (returned ++ left_out) sims /\
    (forall x y, In x returned -> In y left_out -> not_below x y) /\
    (Z.of_nat (List.length sims) <= k -> left_out = []).
Proof.
  intros Hk Hmongo Hsims Hord.
  exists (take (Z.to_nat k) (sort_desc sims)), (drop (Z.to_nat k) (sort_desc sims)).
  split; [| split; [| split]].
  - rewrite search_answer by exact Hmongo. f_equal.
    rewrite (rank_candidates E q k _ sims Hsims).
    now rewrite slice_from_zero.
  - rewrite take_drop. apply sort_desc_perm.
  - apply StronglySorted_app_inv. rewrite take_drop.
    apply (sort_desc_sorted (List.map snd sims) Hord).
    intros y Hy. now apply List.in_map.
  - intros Hall. apply drop_ge.
    rewrite (Permutation_length (sort_desc_perm sims)). lia.
Qed.

Lemma search_returns_best_witness :
  exists returned left_out,
    cosine_similarity_search Example.rambling example_query 2 example_index
    = (Ok (List.map to_result returned), tick example_index) /\
    Permutation (returned ++ left_out) example_sims /\
    (forall x y, In x returned -> In y left_out -> not_below x y).
Proof.
  destruct (search_returns_best Example.rambling example_query 2 example_index
              example_sims) as (returned & left_out & Hrun & Hperm & Hbest & _);
    [lia | reflexivity | vm_compute; reflexivity | vm_compute; reflexivity |].
  exists returned, left_out. auto.
Defined.

End RetrieverCounts.

(** ** The assessments collection beyond the repeated write *)

Section UpsertFacts.
Import Assessments.

Lemma keyed_set_fields (n m : Z) (a : dict) (t : float) (s : string)
    (doc : dict) :
  m <> n -> keyed m (set_fields (fields n a t s) doc) = false.
Proof.
  intros Hne. unfold keyed, set_fields, fields. cbn. lookup_key.
  now apply Z.eqb_neq.
Qed.

Lemma update_one_others (n m : Z) (a : dict) (t : float) (s : string)
    (coll : list dict) :
  m <> n ->
  List.filter (keyed m) (update_one n (fields n a t s) coll)
  = List.filter (keyed m) coll.
Proof.
  intros Hne. induction coll as [|doc rest IH].
  - cbn [update_one List.filter]. now rewrite keyed_set_fields.
  - cbn [update_one]. destruct (keyed n doc) eqn:Hn.
    + cbn [List.filter]. rewrite keyed_set_fields by exact Hne.
      assert (keyed m doc = false) as ->; [| reflexivity].
      unfold keyed in *. destruct (doc !! "fact_number") as [[]|];
        try discriminate. apply Z.eqb_neq. apply Z.eqb_eq in Hn. lia.
    + cbn [List.filter]. now rewrite IH.
Qed.

Lemma update_one_length (n : Z) (fs : list (string * value))
    (coll : list dict) :
  List.length (update_one n fs coll)
  = (List.length coll + (if count n coll =? 0 then 1 else 0)%nat)%nat.
Proof.
  unfold count. induction coll as [|doc rest IH]; [reflexivity |].
  cbn [update_one List.filter]. destruct (keyed n doc).
  - cbn. lia.
  - cbn [List.length]. rewrite IH. lia.
Qed.

(** The document the write leaves for the claim, when one was there:
    the first match with the fields set. *)
Lemma update_one_first (n : Z) (fs : list (string * value))
    (before after : list dict) (doc : dict) :
  keyed n doc = true ->
  (forall d, In d before -> keyed n d = false) ->
  update_one n fs (before ++ doc :: after)
  = before ++ set_fields fs doc :: after.
Proof.
  intros Hdoc Hbefore. induction before as [|d before IH].
  - cbn. now rewrite Hdoc.
  - cbn [app update_one]. rewrite (Hbefore d (or_introl eq_refl)).
    f_equal. apply IH. intros d' Hin. apply Hbefore. now right.
Qed.

(** X15: the write of one assessment touches one document.  When
    [upsert] returns: the documents of every other claim are those that
    were there, in the same order; the collection has one document more
    when none was keyed by the claim and as many as before otherwise;
    and a document that was there keeps every field outside the five
    that are set (its [_id], say).  When the database raises, the
    collection is as it was. *)
Theorem upsert_touches_one (E : env) (n : Z) (a : dict) (t : float)
    (w w' : world) :
  (upsert E n a t w = (Ok tt, w') ->
   (forall m, m <> n ->
      List.filter (keyed m) (assessments_coll w')
      = List.filter (keyed m) (assessments_coll w)) /\
   List.length (assessments_coll w')
   = (List.length (assessments_coll w)
      + (if count n (assessments_coll w) =? 0 then 1 else 0)%nat)%nat /\
   (forall before doc after,
      assessments_coll w = before ++ doc :: after ->
      keyed n doc = true ->
      (forall d, In d before -> keyed n d = false) ->
      exists doc',
        assessments_coll w' = before ++ doc' :: after /\
        forall key,
          ~ In key (List.map fst (fields n a t EmptyString)) ->
          doc' !! key = doc !! key)) /\
  (forall e, upsert E n a t w = (Raise e, w') ->
             assessments_coll w' = assessments_coll w).
Proof.
  split.
  - intros Hrun. rewrite (upsert_returns E n a t w w' Hrun).
    split; [| split].
    + intros m Hm. now apply update_one_others.
    + apply update_one_length.
    + intros before doc after -> Hdoc Hbefore.
      rewrite (update_one_first n _ before after doc Hdoc Hbefore).
      eexists. split; [reflexivity |].
      intros key Hkey. cbn in Hkey. unfold set_fields, fields. cbn.
      rewrite !lookup_insert_ne; [reflexivity | intros <-; tauto ..].
  - intros e. unfold upsert, mongo_call. cbn.
    destruct (mongo E (S (now w))); [| discriminate].
    intros [= _ <-]. reflexivity.
Qed.

End UpsertFacts.

(** ** The sample of the catalogue *)

Section SampleFacts.
Import FactLoader.

Lemma omap_ext_In {A B : Type} (f g : A -> option B) (l : list A) :
  (forall x, In x l -> f x = g x) -> omap f l = omap g l.
Proof.
  induction l as [|a l IH]; intros H; [reflexivity |].
  cbn [omap list_omap]. rewrite (H a (or_introl eq_refl)).
  rewrite IH; [reflexivity |]. intros x Hx. apply H. now right.
Qed.

Lemma omap_map {A B C : Type} (f : B -> option C) (g : A -> B) (l : list A) :
  omap f (List.map g l) = omap (fun x => f (g x)) l.
Proof.
  induction l as [|a l IH]; [reflexivity |].
  cbn [List.map omap list_omap]. now rewrite IH.
Qed.

(** Reading a list at ascending positions gives a sublist. *)
Lemma sublist_lookups {A : Type} (positions : list nat) (l : list A)
    (off : nat) :
  StronglySorted lt positions ->
  List.Forall (fun j => off <= j)%nat positions ->
  omap (fun j => l !! (j - off)%nat) positions `sublist_of` l.
Proof.
  revert l off. induction positions as [|i rest IH]; intros l off Hs Hoff.
  - apply sublist_nil_l.
  - apply StronglySorted_inv in Hs as [Hs Hi].
    apply List.Forall_cons_iff in Hoff as [Hio Hoff].
    rewrite List.Forall_forall in Hi.
    cbn [omap list_omap].
    destruct (l !! (i - off)%nat) as [x|] eqn:Hx; [| now apply IH].
    assert (Hrest : omap (fun j => l !! (j - off)%nat) rest
                    = omap (fun j => drop (S (i - off)) l !! (j - S i)%nat) rest).
    { apply omap_ext_In. intros j Hj. specialize (Hi j Hj).
      rewrite lookup_drop. f_equal. lia. }
    rewrite Hrest. clear Hrest.
    set (d := drop (S (i - off)) l).
    rewrite <- (take_drop_middle l (i - off) x Hx). fold d.
    apply sublist_inserts_l, sublist_skip.
    apply IH; [exact Hs |].
    apply List.Forall_forall. intros j Hj. specialize (Hi j Hj). lia.
Qed.

Lemma sample_positions_sorted (n step : Z) :
  1 <= step -> StronglySorted lt (sample_positions n step).
Proof.
  intros Hstep. unfold sample_positions. generalize (Z.to_nat n) as m.
  generalize 0%nat as a. intros a m. revert a.
  induction m as [|m IH]; intros a; [constructor |].
  cbn [seq List.map]. constructor; [apply IH |].
  apply List.Forall_forall. intros p Hp.
  apply List.in_map_iff in Hp as (j & <- & Hj).
  apply List.in_seq in Hj. nia.
Qed.

Lemma sample_inside (len n : Z) (i : nat) :
  0 < n < len -> (i < Z.to_nat n)%nat ->
  0 <= Z.of_nat i * (len / n) < len.
Proof.
  intros Hn Hi.
  pose proof (Z.mul_div_le len n ltac:(lia)) as Hfloor.
  assert (1 <= len / n) by (apply Z.div_le_lower_bound; lia).
  nia.
Qed.

Lemma map_Some_omap {A B : Type} (f : A -> option B) (l : list A) :
  (forall x, In x l -> is_Some (f x)) ->
  List.map Some (omap f l) = List.map f l.
Proof.
  induction l as [|a l IH]; intros H; [reflexivity |].
  cbn [omap list_omap List.map].
  destruct (H a (or_introl eq_refl)) as [y Hy]. rewrite Hy.
  cbn [List.map]. f_equal. apply IH. intros x Hx. apply H. now right.
Qed.

(** X16: what [load_sample_facts] returns, for every [n].  With a
    catalogue of [len] claims: for [n >= len] the whole catalogue; for
    [0 < n < len] exactly [n] claims, those at the positions
    [0, step, 2 step, ..] with [step = len // n], so the first claim of
    the catalogue is always in, the order of the catalogue is kept and no
    position is read twice; for [n = 0] on a catalogue that is not empty
    the call raises [ZeroDivisionError]; for a negative [n] it returns
    the empty list. *)
Theorem load_sample_facts_cases (E : env) (n : Z) (w : world) :
  let all_facts := listed E (csv_dir w) in
  let len := Z.of_nat (List.length all_facts) in
  (len <= n -> load_sample_facts E n w = (Ok all_facts, w)) /\
  (0 < n < len ->
   exists sample,
     load_sample_facts E n w = (Ok sample, w) /\
     List.length sample = Z.to_nat n /\
     (forall i, (i < Z.to_nat n)%nat ->
        sample !! i = all_facts !! Z.to_nat (Z.of_nat i * (len / n))) /\
     sample `sublist_of` all_facts /\
     head sample = head all_facts) /\
  (n = 0 -> 0 < len ->
   load_sample_facts E n w
   = (Raise (Exn "ZeroDivisionError" "integer division or modulo by zero"), w)) /\
  (n < 0 -> load_sample_facts E n w = (Ok [], w)).
Proof.
  intros all_facts len.
  assert (Hrun : load_sample_facts E n w
            = (if len <=? n then ret all_facts
               else if n =? 0
               then raise (Exn "ZeroDivisionError"
                             "integer division or modulo by zero")
               else ret (omap (fun i => all_facts
                                        !! Z.to_nat (Z.of_nat i * (len / n)))
                           (seq 0 (Z.to_nat n)))) w) by reflexivity.
  rewrite Hrun. clear Hrun.
  split; [| split; [| split]].
  - intros H. now rewrite (proj2 (Z.leb_le _ _) H).
  - intros Hn.
    rewrite (proj2 (Z.leb_gt _ _) (proj2 Hn)).
    rewrite (proj2 (Z.eqb_neq _ _)) by lia.
    set (f := fun i : nat => all_facts !! Z.to_nat (Z.of_nat i * (len / n))).
    assert (Hsome : forall i, In i (seq 0 (Z.to_nat n)) -> is_Some (f i)).
    { intros i Hi. apply List.in_seq in Hi. apply lookup_lt_is_Some.
      pose proof (sample_inside len n i Hn ltac:(lia)). subst len. lia. }
    pose proof (map_Some_omap f _ Hsome) as Hmap.
    assert (Hlookup : forall i, (i < Z.to_nat n)%nat ->
                                omap f (seq 0 (Z.to_nat n)) !! i = f i).
    { intros i Hi.
      assert (H : List.map Some (omap f (seq 0 (Z.to_nat n))) !! i
                  = Some (f i)).
      { rewrite Hmap. change (List.map f ?l) with (f <$> l).
        rewrite list_lookup_fmap.
        rewrite (proj2 (lookup_seq 0 (Z.to_nat n) i i)) by auto.
        reflexivity. }
      change (List.map Some ?l) with (Some <$> l) in H.
      rewrite list_lookup_fmap in H.
      destruct (omap f (seq 0 (Z.to_nat n)) !! i); cbn in H; congruence. }
    exists (omap f (seq 0 (Z.to_nat n))).
    split; [reflexivity |]. split; [| split; [| split]].
    + rewrite <- (length_map Some), Hmap, length_map, length_seq. reflexivity.
    + exact Hlookup.
    + assert (Hstep : 1 <= len / n) by (apply Z.div_le_lower_bound; lia).
      pose proof (sublist_lookups (sample_positions n (len / n)) all_facts 0
                    (sample_positions_sorted n (len / n) Hstep)) as Hsub.
      unfold sample_positions in Hsub. rewrite omap_map in Hsub.
      erewrite (omap_ext_In f); [apply Hsub |].
      * apply List.Forall_forall. intros j _. lia.
      * intros i _. unfold f. now rewrite Nat.sub_0_r.
    + rewrite !head_lookup. rewrite Hlookup by lia. unfold f.
      reflexivity.
  - intros -> Hlen. rewrite (proj2 (Z.leb_gt _ _) Hlen). reflexivity.
  - intros Hn. rewrite (proj2 (Z.leb_gt _ _)) by lia.
    rewrite (proj2 (Z.eqb_neq _ _)) by lia.
    destruct n; try lia. reflexivity.
Qed.

End SampleFacts.

(** ** The chunks of the chunker *)

Section ChunkFacts.
Import Chunker.

Lemma chars_length (s : string) :
  List.length (Py.chars s) = String.length s.
Proof.
  induction s as [|a s IH]; [reflexivity |].
  unfold Py.chars in *. cbn [list_ascii_of_string List.length String.length].
  now rewrite IH.
Qed.

Lemma lstrip_head (s r : list ascii) (c : ascii) :
  Py.lstrip s = c :: r -> Py.isspace c = false.
Proof.
  induction s as [|a s IH]; [discriminate |]. cbn [Py.lstrip].
  destruct (Py.isspace a) eqn:Ha; [exact IH |]. now intros [= <- _].
Qed.

Lemma lstrip_snoc (s : list ascii) (c : ascii) :
  Py.isspace c = false -> Py.lstrip (s ++ [c]) = Py.lstrip s ++ [c].
Proof.
  intros Hc. induction s as [|a s IH]; cbn [app Py.lstrip].
  - now rewrite Hc.
  - destruct (Py.isspace a); [exact IH | reflexivity].
Qed.

Lemma strip_trimmed (s : list ascii) :
  Py.strip s <> [] -> trimmed (Py.strip s).
Proof.
  intros Hne. split; [exact Hne |]. revert Hne.
  unfold Py.strip, Py.rstrip.
  destruct (Py.lstrip s) as [|a y] eqn:Hy; [now intros [] |].
  pose proof (lstrip_head s y a Hy) as Ha.
  cbn [rev]. rewrite (lstrip_snoc _ a Ha), rev_app_distr. cbn [rev app].
  intros _. split.
  - cbn [head]. now intros c [= <-].
  - intros c Hc.
    destruct (Py.lstrip (rev y)) as [|b z] eqn:Hz.
    + cbn in Hc. now injection Hc as <-.
    + pose proof (lstrip_head _ _ _ Hz) as Hb.
      assert (Hlast : last (a :: rev (b :: z)) = Some b).
      { cbn [rev]. change (a :: (rev z ++ [b])) with ((a :: rev z) ++ [b]).
        apply last_snoc. }
      rewrite Hlast in Hc. now injection Hc as <-.
Qed.

(** What the loop appends to the chunks it starts with. *)
Lemma loop_emits (self : DocumentChunker) (txt : list ascii)
    (metadata : option dict) (fuel : nat) (st : state) (out : list chunk) :
  loop fuel self txt metadata st = Some out ->
  exists new,
    out = chunks st ++ new /\
    List.map chunk_id new
    = List.map (fun i => next_id st + Z.of_nat i) (seq 0 (List.length new)) /\
    List.Forall (pass_chunk self txt metadata) new.
Proof.
  revert st. induction fuel as [|fuel IH]; intros st; cbn [loop];
    destruct (start st <? Z.of_nat (List.length txt)); try discriminate;
    try (intros [= <-]; exists []; rewrite app_nil_r; repeat split; constructor).
  intros Hloop. destruct (IH _ Hloop) as (new & -> & Hids & Hall). clear IH Hloop.
  cbn [step chunks next_id] in *.
  destruct (Py.strip (Py.slice txt (start st) (chunk_end self txt (start st))))
    as [|a s] eqn:Hstrip.
  - exists new. auto.
  - eexists (_ :: new). rewrite <- app_assoc. split; [reflexivity |].
    split.
    + cbn [List.map List.length seq chunk_id]. f_equal; [lia |].
      rewrite Hids, <- seq_shift, List.map_map.
      apply List.map_ext. intros i. lia.
    + constructor; [| exact Hall].
      unfold pass_chunk. cbn [char_end char_start text Chunker.metadata].
      unfold Py.chars, Py.str. rewrite list_ascii_of_string_of_list_ascii.
      rewrite Hstrip. repeat split; try discriminate.
      * rewrite <- Hstrip. apply strip_trimmed. rewrite Hstrip. discriminate.
      * rewrite <- Hstrip. apply strip_trimmed. rewrite Hstrip. discriminate.
Qed.

(** X17: the chunks [chunk_text] returns, when it returns.  Their ids
    are 0, 1, 2, .. in the order of the list; the text of each is the
    window [char_start, char_end) of the input with the white space at
    both ends removed, and it is never empty (a window of white space
    gives no chunk and uses no id); its end is the end the boundary
    search chose for its start; and every chunk carries the metadata
    passed in, except that an empty dict is dropped like [None]. *)
Theorem chunk_text_chunks (fuel : nat) (self : DocumentChunker)
    (text : string) (metadata : option dict) (out : list chunk) :
  chunk_text fuel self text metadata = Some out ->
  List.map chunk_id out = List.map Z.of_nat (seq 0 (List.length out)) /\
  forall c, In c out -> pass_chunk self (Py.chars text) metadata c.
Proof.
  unfold chunk_text. destruct text as [|a text].
  - intros [= <-]. split; [reflexivity | intros c []].
  - intros Hloop. apply loop_emits in Hloop as (new & -> & Hids & Hall).
    cbn [initial chunks next_id app] in *. split.
    + rewrite Hids. apply List.map_ext. intros i. lia.
    + now apply List.Forall_forall.
Qed.

Lemma chunk_text_chunks_witness :
  exists out,
    chunk_text 10 {| chunk_size := 6; chunk_overlap := 1 |} "Ab. Cd. Ef" None
    = Some out /\
    List.map chunk_id out = [0; 1; 2] /\
    forall c, In c out ->
      pass_chunk {| chunk_size := 6; chunk_overlap := 1 |}
        (Py.chars "Ab. Cd. Ef") None c.
Proof.
  eexists. split; [vm_compute; reflexivity |].
  exact (chunk_text_chunks 10 {| chunk_size := 6; chunk_overlap := 1 |}
           "Ab. Cd. Ef" None _ eq_refl).
Defined.

(** X18: a text that fits in one window.  When the text is not empty
    and not longer than [chunk_size], one pass is made, whatever the
    overlap: the result is the one chunk with id 0 that starts at 0 and
    holds the stripped text, or no chunk when the text is white space
    only.  The chunk's [char_end] is [chunk_size], not the length of the
    text: the end of the window is not cut to the text. *)
Theorem chunk_text_one_window (fuel : nat) (self : DocumentChunker)
    (text : string) (metadata : option dict) :
  text <> EmptyString ->
  Py.len text <= chunk_size self ->
  chunk_text (S fuel) self text metadata
  = Some match Py.strip (Py.chars text) with
         | [] => []
         | stripped =>
             [ {| chunk_id := 0; Chunker.text := Py.str stripped;
                  char_start := 0; char_end := chunk_size self;
                  Chunker.metadata :=
                    if truthy metadata then metadata else None |} ]
         end.
Proof.
  intros Hne Hlen. unfold chunk_text. destruct text as [|a text]; [easy |].
  set (txt := Py.chars (String a text)).
  assert (Hl : Py.len (String a text) = Z.of_nat (List.length txt)).
  { unfold Py.len, txt. now rewrite chars_length. }
  rewrite Hl in Hlen.
  assert (Hpos : 0 < Z.of_nat (List.length txt)) by (subst txt; cbn; lia).
  cbn [loop initial start].
  rewrite (proj2 (Z.ltb_lt _ _) Hpos).
  assert (Hend : chunk_end self txt 0 = chunk_size self).
  { unfold chunk_end. cbv zeta. rewrite Z.add_0_l.
    now rewrite (proj2 (Z.ltb_ge _ _) Hlen). }
  assert (Hnext : next_start self txt 0 = chunk_size self).
  { unfold next_start. cbv zeta. rewrite Hend.
    now rewrite (proj2 (Z.ltb_ge _ _) Hlen). }
  assert (Hslice : Py.slice txt 0 (chunk_size self) = txt).
  { unfold Py.slice, Py.clamp_index. cbn [Z.ltb Z.compare].
    replace (Z.min 0 (Z.of_nat (List.length txt))) with 0 by lia.
    destruct (Z.ltb_spec (chunk_size self) 0); [lia |].
    rewrite Z.min_r by lia. rewrite Z.sub_0_r, Nat2Z.id.
    change (drop (Z.to_nat 0) txt) with txt. apply firstn_all. }
  assert (Hstop : forall st, start st = chunk_size self ->
            loop fuel self txt metadata st = Some (chunks st)).
  { intros st Hst. destruct fuel; cbn [loop]; rewrite Hst;
      now rewrite (proj2 (Z.ltb_ge _ _) Hlen). }
  rewrite Hstop by (cbn [step start initial]; exact Hnext).
  cbn [step chunks start next_id initial]. rewrite Hend, Hslice.
  destruct (Py.strip txt); reflexivity.
Qed.

Lemma chunk_text_one_window_witness :
  chunk_text 1 default "  A short note.  " None
  = Some [ {| chunk_id := 0; Chunker.text := "A short note.";
              char_start := 0; char_end := 1000;
              Chunker.metadata := None |} ].
Proof.
  exact (chunk_text_one_window 0 default "  A short note.  " None
           ltac:(discriminate) ltac:(vm_compute; discriminate)).
Defined.

Lemma break_at_moves (ms : list (list ascii)) (txt : list ascii)
    (start end_ : Z) :
  break_at ms txt start end_ = end_ \/ start + 2 <= break_at ms txt start end_.
Proof.
  induction ms as [|marker ms IH]; [now left |]. cbn [break_at].
  destruct (Z.ltb_spec start (Py.rfind txt marker start end_)); [right; lia |].
  exact IH.
Qed.

(** X19: when the chunker is sure to return.  With an overlap of at
    most 1 that is below the chunk size, every pass moves the start
    forward, so [chunk_text] returns for every text, after at most as
    many passes as the text has characters.  (With a larger overlap a
    sentence end early in the window can send the start back to where it
    was.) *)
Theorem chunk_text_returns (fuel : nat) (self : DocumentChunker)
    (text : string) (metadata : option dict) :
  chunk_overlap self <= 1 ->
  chunk_overlap self < chunk_size self ->
  (String.length text <= fuel)%nat ->
  exists out, chunk_text fuel self text metadata = Some out.
Proof.
  intros Hone Hsize Hfuel. unfold chunk_text.
  destruct text as [|a text]; [eauto |].
  set (txt := Py.chars (String a text)).
  assert (Hl : List.length txt = String.length (String a text))
    by (unfold txt; apply chars_length).
  apply loop_returns_on_progress.
  - intros s Hs. unfold next_start, chunk_end.
    destruct (Z.ltb_spec (s + chunk_size self) (Z.of_nat (List.length txt)))
      as [Hin | Hout].
    + destruct (break_at_moves markers txt s (s + chunk_size self))
        as [-> | Hmove].
      * rewrite (proj2 (Z.ltb_lt _ _) Hin). lia.
      * destruct (Z.ltb_spec (break_at markers txt s (s + chunk_size self))
                    (Z.of_nat (List.length txt))); lia.
    + rewrite (proj2 (Z.ltb_ge _ _) Hout). lia.
  - cbn. lia.
  - cbn [initial start]. lia.
Qed.

Lemma chunk_text_returns_witness :
  exists out,
    chunk_text 10 {| chunk_size := 6; chunk_overlap := 1 |} "Ab. Cd. Ef" None
    = Some out.
Proof.
  apply (chunk_text_returns 10 {| chunk_size := 6; chunk_overlap := 1 |}
           "Ab. Cd. Ef" None); cbn; lia.
Defined.

End ChunkFacts.

(** ** The text the judge client decodes *)

Section FenceFacts.
Import Ollama.

Lemma scan_spec (sub s : list ascii) (lo : Z) (n : nat) :
  let r := Py.scan sub s lo n in
  (r = -1 /\
   forall i, lo <= i < lo + Z.of_nat n -> Py.occurs_at sub s i = false)
  \/
  (lo <= r < lo + Z.of_nat n /\ Py.occurs_at sub s r = true /\
   forall i, lo <= i < r -> Py.occurs_at sub s i = false).
Proof.
  revert lo. induction n as [|n IH]; intros lo; cbn [Py.scan].
  - left. split; [reflexivity | intros i Hi; lia].
  - destruct (Py.occurs_at sub s lo) eqn:Hlo.
    + right. split; [lia |]. split; [exact Hlo | intros i Hi; lia].
    + destruct (IH (lo + 1)) as [[Hr Hnone] | (Hr & Hocc & Hnone)].
      * left. split; [exact Hr |]. intros i Hi.
        destruct (Z.eq_dec i lo) as [-> | Hne]; [exact Hlo | apply Hnone; lia].
      * right. split; [lia |]. split; [exact Hocc |]. intros i Hi.
        destruct (Z.eq_dec i lo) as [-> | Hne]; [exact Hlo | apply Hnone; lia].
Qed.

Lemma occurs_at_end (sub s : list ascii) (i : Z) :
  sub <> [] -> Z.of_nat (List.length s) < i + Z.of_nat (List.length sub) ->
  Py.occurs_at sub s i = false.
Proof.
  intros Hsub Hi. unfold Py.occurs_at.
  destruct (Z.leb_spec 0 i) as [Hpos | Hneg]; [| reflexivity]. cbn [andb].
  assert (Hm : (0 < List.length sub)%nat)
    by (destruct sub; [easy | cbn; lia]).
  assert (Hlen : (List.length (drop (Z.to_nat i) s) < List.length sub)%nat)
    by (rewrite length_drop; lia).
  clear Hm.
  revert Hlen. generalize (drop (Z.to_nat i) s). clear - Hsub.
  induction sub as [|c sub IH]; [easy |]. intros [|d l] Hlen; [reflexivity |].
  cbn [Py.starts_with]. destruct (Ascii.eqb c d); [| reflexivity].
  cbn [andb]. destruct sub as [|c' sub]; [cbn in Hlen; lia |].
  apply IH; [discriminate | cbn in *; lia].
Qed.

(** [s.find(sub, start)] for a start inside the string. *)
Lemma find_spec (s sub : list ascii) (start : Z) :
  sub <> [] -> 0 <= start ->
  let r := Py.find s sub start in
  (r = -1 /\ forall i, start <= i -> Py.occurs_at sub s i = false)
  \/
  (start <= r /\ Py.occurs_at sub s r = true /\
   forall i, start <= i < r -> Py.occurs_at sub s i = false).
Proof.
  intros Hsub Hstart. unfold Py.find, Py.adjust_start.
  rewrite (proj2 (Z.ltb_ge _ _) Hstart). cbv zeta.
  set (len := Z.of_nat (List.length s)).
  set (m := Z.of_nat (List.length sub)).
  destruct (scan_spec sub s start (Z.to_nat (len - start - m + 1)))
    as [[Hr Hnone] | (Hr & Hocc & Hnone)]; cbv zeta in *.
  - left. split; [exact Hr |]. intros i Hi.
    destruct (Z.lt_ge_cases len (i + m)) as [Hout | Hin].
    + now apply occurs_at_end.
    + apply Hnone. lia.
  - right. split; [lia |]. split; [exact Hocc | exact Hnone].
Qed.

Lemma find_first (s sub : list ascii) (start p : Z) :
  sub <> [] -> 0 <= start <= p ->
  Py.occurs_at sub s p = true ->
  (forall i, start <= i < p -> Py.occurs_at sub s i = false) ->
  Py.find s sub start = p.
Proof.
  intros Hsub Hp Hocc Hnone.
  destruct (find_spec s sub start Hsub ltac:(lia))
    as [[_ Hno] | (Hr & Hocc' & Hbefore)]; cbv zeta in *.
  - rewrite Hno in Hocc by lia. discriminate.
  - destruct (Z.lt_trichotomy (Py.find s sub start) p) as [Hlt | [Heq | Hgt]];
      [| exact Heq |].
    + rewrite Hnone in Hocc' by lia. discriminate.
    + rewrite Hbefore in Hocc by lia. discriminate.
Qed.

Lemma find_none (s sub : list ascii) (start : Z) :
  sub <> [] -> 0 <= start ->
  (forall i, start <= i -> Py.occurs_at sub s i = false) ->
  Py.find s sub start = -1.
Proof.
  intros Hsub Hstart Hnone.
  destruct (find_spec s sub start Hsub Hstart)
    as [[Hr _] | (Hr & Hocc & _)]; cbv zeta in *; [exact Hr |].
  rewrite Hnone in Hocc by lia. discriminate.
Qed.

Lemma starts_with_app (sub rest : list ascii) :
  Py.starts_with sub (sub ++ rest) = true.
Proof.
  induction sub as [|c sub IH]; [reflexivity |].
  cbn. now rewrite Ascii.eqb_refl.
Qed.

Lemma occurs_at_here (sub pre post : list ascii) :
  Py.occurs_at sub (pre ++ sub ++ post) (Z.of_nat (List.length pre)) = true.
Proof.
  unfold Py.occurs_at. rewrite (proj2 (Z.leb_le _ _)) by lia.
  rewrite Nat2Z.id, drop_app_length. apply starts_with_app.
Qed.

(** An occurrence of a text that starts with [c] has [c] under it. *)
Lemma occurs_at_char (c : ascii) (sub s : list ascii) (i : Z) :
  Py.occurs_at (c :: sub) s i = true ->
  0 <= i /\ s !! Z.to_nat i = Some c.
Proof.
  unfold Py.occurs_at. intros H. apply andb_prop in H as [Hi H].
  split; [lia |]. rewrite <- (Nat.add_0_r (Z.to_nat i)), <- lookup_drop.
  destruct (drop (Z.to_nat i) s) as [|d l]; [discriminate |].
  cbn in H. apply andb_prop in H as [H _].
  apply Ascii.eqb_eq in H. now subst.
Qed.

(** No fence starts where there is no backtick. *)
Lemma no_occurrence (sub s : list ascii) (i : Z) :
  (forall c, s !! Z.to_nat i = Some c -> c <> backtick) ->
  Py.occurs_at (backtick :: sub) s i = false.
Proof.
  intros H. destruct (Py.occurs_at (backtick :: sub) s i) eqn:Hocc;
    [| reflexivity].
  apply occurs_at_char in Hocc as [_ Hc]. now destruct (H _ Hc).
Qed.

Lemma no_backtick_lookup (l : list ascii) (i : nat) (c : ascii) :
  no_backtick l -> l !! i = Some c -> c <> backtick.
Proof.
  intros Hl Hc ->. apply Hl. apply list_elem_of_In.
  now apply list_elem_of_lookup_2 in Hc.
Qed.

Lemma no_backtick_check (l : list ascii) :
  forallb (fun c => negb (Ascii.eqb c backtick)) l = true -> no_backtick l.
Proof.
  intros H Hin. rewrite forallb_forall in H. specialize (H _ Hin).
  now rewrite Ascii.eqb_refl in H.
Qed.

(** The payload between an opening fence [open] at the start of the
    text after [pre] and the next closing fence. *)
Lemma fenced_payload (opening pre body post : list ascii) :
  no_backtick pre -> no_backtick body ->
  let s := pre ++ (backtick :: opening) ++ body ++ fence ++ post in
  let start := Z.of_nat (List.length pre)
               + Z.of_nat (List.length (backtick :: opening)) in
  Py.find s (backtick :: opening) 0 = Z.of_nat (List.length pre) /\
  Py.find s fence start = start + Z.of_nat (List.length body) /\
  Py.slice s start (start + Z.of_nat (List.length body)) = body.
Proof.
  intros Hpre Hbody s start.
  assert (Hlen : Z.of_nat (List.length s)
                 = start + Z.of_nat (List.length body)
                   + 3 + Z.of_nat (List.length post)).
  { subst s start. rewrite !length_app. cbn [List.length fence Py.chars
      list_ascii_of_string]. lia. }
  split; [| split].
  - apply find_first; [discriminate | lia | apply occurs_at_here |].
    intros i Hi. apply no_occurrence. intros c Hc.
    subst s. rewrite lookup_app_l in Hc by lia.
    now apply (no_backtick_lookup pre (Z.to_nat i)).
  - apply find_first; [discriminate | lia | |].
    + subst s start.
      replace (pre ++ (backtick :: opening) ++ body ++ fence ++ post)
        with ((pre ++ (backtick :: opening) ++ body) ++ fence ++ post)
        by (now rewrite <- !app_assoc).
      replace (Z.of_nat (List.length pre)
               + Z.of_nat (List.length (backtick :: opening))
               + Z.of_nat (List.length body))
        with (Z.of_nat (List.length (pre ++ (backtick :: opening) ++ body)))
        by (rewrite !length_app; lia).
      apply occurs_at_here.
    + intros i Hi. apply (no_occurrence [backtick; backtick]).
      intros c Hc. subst s start.
      rewrite lookup_app_r in Hc by lia.
      rewrite lookup_app_r in Hc by lia.
      rewrite lookup_app_l in Hc by lia.
      now apply (no_backtick_lookup body _ c Hbody Hc).
  - unfold Py.slice, Py.clamp_index.
    rewrite !(proj2 (Z.ltb_ge _ _)) by lia.
    rewrite !Z.min_l by lia.
    replace (Z.to_nat (start + Z.of_nat (List.length body) - start))
      with (List.length body) by lia.
    subst s start.
    replace (Z.to_nat (Z.of_nat (List.length pre)
                       + Z.of_nat (List.length (backtick :: opening))))
      with (List.length (pre ++ (backtick :: opening))) by (rewrite length_app; lia).
    rewrite (app_assoc pre), drop_app_length, take_app_length. reflexivity.
Qed.

Lemma chars_str (l : list ascii) : Py.chars (Py.str l) = l.
Proof. apply list_ascii_of_string_of_list_ascii. Qed.

Lemma contains_found (s sub : list ascii) (p : Z) :
  0 <= p -> Py.find s sub 0 = p -> contains s sub = true.
Proof.
  intros Hp Hfind. unfold contains. rewrite Hfind.
  destruct (Z.eqb_spec p (-1)); [lia | reflexivity].
Qed.

(** A text without a fence has no tagged fence either. *)
Lemma contains_fence_json (s : list ascii) :
  contains s fence = false -> contains s fence_json = false.
Proof.
  unfold contains. intros H. apply negb_false_iff, Z.eqb_eq in H.
  apply negb_false_iff, Z.eqb_eq.
  destruct (find_spec s fence 0 ltac:(discriminate) ltac:(lia))
    as [[_ Hnone] | (Hr & _)]; cbv zeta in *; [| lia].
  apply find_none; [discriminate | lia |].
  intros i Hi. specialize (Hnone i Hi).
  unfold Py.occurs_at in *. destruct (0 <=? i); [| reflexivity].
  cbn [andb] in *. revert Hnone. generalize (drop (Z.to_nat i) s).
  intros l. unfold fence, fence_json, Py.chars. cbn [list_ascii_of_string].
  destruct l as [|a [|b [|c l]]]; cbn [Py.starts_with];
    repeat (destruct (Ascii.eqb _ _); cbn [andb]); try reflexivity;
    try discriminate.
Qed.

(** X20: what [json_text] hands to the decoder.  For a response made
    of prose without backticks, a fence, a payload without backticks and
    the closing fence (anything may follow): when the fence carries the
    tag [json], the result is the payload with the white space around it
    removed; the same holds for a fence without the tag, provided the
    response has no tagged fence anywhere; and a response without any
    fence is handed over whole, stripped.  So the three ways of wrapping
    one payload give the same text. *)
Theorem json_text_extracts (pre body post : list ascii) :
  no_backtick pre -> no_backtick body ->
  json_text (Py.str (pre ++ fence_json ++ body ++ fence ++ post))
  = Py.str (Py.strip body) /\
  (contains (pre ++ fence ++ body ++ fence ++ post) fence_json = false ->
   json_text (Py.str (pre ++ fence ++ body ++ fence ++ post))
   = Py.str (Py.strip body)) /\
  json_text (Py.str body) = Py.str (Py.strip body).
Proof.
  intros Hpre Hbody. split; [| split].
  - destruct (fenced_payload (Py.chars "``json") pre body post Hpre Hbody)
      as (Hopen & Hclose & Hslice). cbv zeta in *.
    change (backtick :: Py.chars "``json") with fence_json in *.
    unfold json_text. rewrite chars_str.
    rewrite (contains_found _ _ (Z.of_nat (List.length pre)) ltac:(lia) Hopen), Hopen.
    change 7 with (Z.of_nat (List.length fence_json)).
    now rewrite Hclose, Hslice.
  - intros Hplain.
    destruct (fenced_payload (Py.chars "``") pre body post Hpre Hbody)
      as (Hopen & Hclose & Hslice). cbv zeta in *.
    change (backtick :: Py.chars "``") with fence in *.
    unfold json_text. rewrite chars_str, Hplain.
    rewrite (contains_found _ _ (Z.of_nat (List.length pre)) ltac:(lia) Hopen), Hopen.
    change 3 with (Z.of_nat (List.length fence)).
    now rewrite Hclose, Hslice.
  - unfold json_text. rewrite chars_str.
    assert (Hnone : contains body fence = false).
    { unfold contains. apply negb_false_iff, Z.eqb_eq.
      apply find_none; [discriminate | lia |].
      intros i Hi. apply (no_occurrence [backtick; backtick]).
      intros c Hc. now apply (no_backtick_lookup body _ c Hbody Hc). }
    now rewrite (contains_fence_json _ Hnone), Hnone.
Qed.

Lemma json_text_extracts_witness :
  json_text ("Here it is:" +:+ nl +:+ "```json" +:+ nl +:+ "{}" +:+ nl
             +:+ "```" +:+ nl +:+ "Done.")
  = "{}".
Proof.
  refine (proj1 (json_text_extracts
                   (Py.chars ("Here it is:" +:+ nl))
                   (Py.chars (nl +:+ "{}" +:+ nl))
                   (Py.chars (nl +:+ "Done.")) _ _)).
  - now apply no_backtick_check.
  - now apply no_backtick_check.
Defined.

(** X21: a fence that is never closed costs the payload its last
    character.  When the response is prose without backticks, an opening
    fence with the tag [json], and a rest without backticks, the search
    for the closing fence gives -1 and the slice ends one short of the
    end: the decoder gets the rest without its last character
    (stripped), so a JSON object loses its closing brace. *)
Theorem json_text_unclosed (pre rest : list ascii) :
  no_backtick pre -> no_backtick rest ->
  json_text (Py.str (pre ++ fence_json ++ rest))
  = Py.str (Py.strip (removelast rest)).
Proof.
  intros Hpre Hrest.
  set (s := pre ++ fence_json ++ rest).
  set (start := Z.of_nat (List.length pre) + 7).
  assert (Hlen : Z.of_nat (List.length s)
                 = start + Z.of_nat (List.length rest)).
  { subst s start. rewrite !length_app. cbn [List.length fence_json Py.chars
      list_ascii_of_string]. lia. }
  assert (Hopen : Py.find s fence_json 0 = Z.of_nat (List.length pre)).
  { apply find_first; [discriminate | lia | |].
    - replace s with (pre ++ fence_json ++ rest ++ [])
        by (now rewrite app_nil_r).
      apply occurs_at_here.
    - intros i Hi. apply (no_occurrence (Py.chars "``json")).
      intros c Hc. subst s. rewrite lookup_app_l in Hc by lia.
      now apply (no_backtick_lookup pre (Z.to_nat i)). }
  assert (Hclose : Py.find s fence start = -1).
  { apply find_none; [discriminate | lia |].
    intros i Hi. apply (no_occurrence [backtick; backtick]).
    intros c Hc. subst s start.
    rewrite lookup_app_r in Hc by lia.
    rewrite lookup_app_r in Hc
      by (cbn [List.length fence_json Py.chars list_ascii_of_string]; lia).
    now apply (no_backtick_lookup rest _ c Hrest Hc). }
  unfold json_text. rewrite chars_str. fold s.
  rewrite (contains_found _ _ (Z.of_nat (List.length pre)) ltac:(lia) Hopen), Hopen. fold start.
  rewrite Hclose. do 2 f_equal.
  unfold Py.slice, Py.clamp_index.
  rewrite (proj2 (Z.ltb_ge start 0)) by lia.
  rewrite (proj2 (Z.ltb_lt (-1) 0)) by lia.
  rewrite Z.min_l by lia.
  replace (Z.to_nat start) with (List.length (pre ++ fence_json))
    by (rewrite length_app; subst start;
        cbn [List.length fence_json Py.chars list_ascii_of_string]; lia).
  subst s. rewrite (app_assoc pre), drop_app_length.
  rewrite removelast_firstn_len. f_equal. rewrite <- app_assoc. lia.
Qed.

Lemma json_text_unclosed_witness :
  json_text ("```json" +:+ nl +:+ Example.verdict_text)
  = "{" +:+ dq +:+ "score" +:+ dq +:+ ": 80".
Proof.
  refine (json_text_unclosed [] (Py.chars (nl +:+ Example.verdict_text)) _ _).
  - now apply no_backtick_check.
  - now apply no_backtick_check.
Defined.

End FenceFacts.

(** ** Phase 2: the embeddings *)

Section EmbeddingFacts.
Import Corpus Indexing.

Lemma bindL_run {A B : Type} (m : L A) (k : A -> L B) (s : library) :
  Corpus.bind m k s
  = match m s with
    | (Ok a, s') => k a s'
    | (Raise e, s') => (Raise e, s')
    end.
Proof. reflexivity. Qed.

Lemma later_zero (s : library) : later 0 s = s.
Proof. destruct s. unfold later. cbn. now rewrite Nat.add_0_r. Qed.

Lemma later_tick (k : nat) (s : library) :
  later k (Corpus.tick s) = later (S k) s.
Proof. unfold later, Corpus.tick. cbn. f_equal. lia. Qed.

Lemma later_later (j k : nat) (s : library) :
  later k (later j s) = later (j + k) s.
Proof. unfold later. cbn. f_equal. lia. Qed.

Lemma vectors_from_app (E : env) (t : nat) (l1 l2 : list string) :
  vectors_from E t (l1 ++ l2)
  = vectors_from E t l1 ++ vectors_from E (t + List.length l1) l2.
Proof.
  revert t. induction l1 as [|x l1 IH]; intros t; cbn.
  - now rewrite Nat.add_0_r.
  - rewrite IH. do 3 f_equal. lia.
Qed.

Lemma vectors_from_length (E : env) (t : nat) (texts : list string) :
  List.length (vectors_from E t texts) = List.length texts.
Proof. revert t. induction texts as [|x l IH]; intros t; cbn; auto. Qed.

Lemma vectors_from_lookup (E : env) (t : nat) (texts : list string)
    (i : nat) (text : string) :
  texts !! i = Some text ->
  vectors_from E t texts !! i = Some (answer E (t + i) text).
Proof.
  revert t i. induction texts as [|x l IH]; intros t [|i] H;
    try discriminate.
  - injection H as ->. cbn [vectors_from]. now rewrite Nat.add_0_r.
  - change (l !! i = Some text) in H. cbn [vectors_from].
    change (vectors_from E (S t) l !! i = Some (answer E (t + S i) text)).
    rewrite (IH (S t) i H). do 2 f_equal. lia.
Qed.

Lemma embed_into_spec (E : env) (batch : list string)
    (acc : list (list float)) (s : library) :
  embed_into E batch acc s
  = (Ok (acc ++ vectors_from E (clock s) batch), later (List.length batch) s).
Proof.
  revert acc s. induction batch as [|text rest IH]; intros acc s.
  - cbn. now rewrite app_nil_r, later_zero.
  - cbn [embed_into vectors_from List.length]. unfold embed_text, answer.
    destruct (embeddings E (clock s) text); rewrite IH;
      cbn [Corpus.tick clock]; rewrite <- app_assoc, later_tick; reflexivity.
Qed.

Lemma embed_batches_spec (E : env) (texts : list string) (b : Z)
    (starts : list Z) (acc : list (list float)) (s : library) :
  let all := concat (List.map (fun i => Py.slice texts i (i + b)) starts) in
  embed_batches E texts b starts acc s
  = (Ok (acc ++ vectors_from E (clock s) all), later (List.length all) s).
Proof.
  revert acc s. induction starts as [|i rest IH]; intros acc s; cbn zeta.
  - cbn. now rewrite app_nil_r, later_zero.
  - cbn [embed_batches List.map concat]. rewrite bindL_run, embed_into_spec.
    cbn zeta in IH. rewrite IH. cbn [later clock].
    rewrite vectors_from_app, length_app, later_later, <- app_assoc.
    reflexivity.
Qed.

Lemma slice_window {A : Type} (l : list A) (a b : Z) :
  0 <= a -> 0 <= b ->
  Py.slice l a (a + b) = take (Z.to_nat b) (drop (Z.to_nat a) l).
Proof.
  intros Ha Hb. unfold Py.slice, Py.clamp_index.
  rewrite !(proj2 (Z.ltb_ge _ _)) by lia.
  set (len := Z.of_nat (List.length l)).
  destruct (Z.le_gt_cases a len) as [Hin | Hout].
  - rewrite (Z.min_l a) by lia.
    destruct (Z.le_gt_cases (a + b) len) as [Hin' | Hout'].
    + rewrite Z.min_l by lia. f_equal. lia.
    + rewrite Z.min_r by lia.
      rewrite !take_ge; [reflexivity | |]; rewrite length_drop; lia.
  - rewrite !Z.min_r by lia. rewrite !drop_ge by lia. now rewrite !take_nil.
Qed.

(** Windows of [b] elements, one after the other, cover the list. *)
Lemma windows_cover {A : Type} (l : list A) (b c : nat) :
  (List.length l <= c * b)%nat ->
  concat (List.map (fun k => take b (drop (k * b) l)) (seq 0 c)) = l.
Proof.
  revert l. induction c as [|c IH]; intros l Hlen.
  - destruct l; [reflexivity | cbn in Hlen; lia].
  - cbn [seq List.map concat]. rewrite <- seq_shift, List.map_map.
    transitivity (take b l ++ drop b l); [| apply take_drop].
    cbn [Nat.mul Nat.add drop]. f_equal.
    transitivity (concat (List.map (fun k => take b (drop (k * b) (drop b l)))
                            (seq 0 c)));
      [| apply IH; rewrite length_drop; lia].
    f_equal. apply List.map_ext. intros k. now rewrite drop_drop.
Qed.

Lemma batches_cover {A : Type} (l : list A) (b : Z) (starts : list Z) :
  1 <= b ->
  py_range 0 (Z.of_nat (List.length l)) b = Ok starts ->
  concat (List.map (fun i => Py.slice l i (i + b)) starts) = l.
Proof.
  intros Hb. unfold py_range.
  rewrite (proj2 (Z.eqb_neq _ _)) by lia.
  rewrite (proj2 (Z.ltb_lt _ _)) by lia.
  intros [= <-]. rewrite List.map_map.
  set (len := Z.of_nat (List.length l)).
  set (c := Z.to_nat ((len - 0 + b - 1) / b)).
  transitivity (concat (List.map (fun k => take (Z.to_nat b)
                                          (drop (k * Z.to_nat b) l))
                          (seq 0 c))); [| apply windows_cover].
  - f_equal. apply List.map_ext. intros k.
    rewrite slice_window by lia. do 2 f_equal. lia.
  - subst c len.
    pose proof (Z.mod_pos_bound (Z.of_nat (List.length l) - 0 + b - 1) b
                  ltac:(lia)) as Hmod.
    pose proof (Z.div_mod (Z.of_nat (List.length l) - 0 + b - 1) b
                  ltac:(lia)) as Hdiv.
    nia.
Qed.

(** [embed_batch] with a batch size of at least 1. *)
Lemma embed_batch_ok (E : env) (texts : list string) (b : Z) (s : library) :
  1 <= b ->
  embed_batch E texts b s
  = (Ok (vectors_from E (clock s) texts), later (List.length texts) s).
Proof.
  intros Hb. unfold embed_batch.
  destruct (py_range 0 (Z.of_nat (List.length texts)) b) as [starts | e] eqn:Hr.
  - pose proof (embed_batches_spec E texts b starts [] s) as Hrun.
    cbn zeta in Hrun. rewrite (batches_cover texts b starts Hb Hr) in Hrun.
    exact Hrun.
  - unfold py_range in Hr. rewrite (proj2 (Z.eqb_neq b 0)) in Hr by lia.
    discriminate.
Qed.

(** X22: [embed_batch] gives one vector per text, in order, and never
    raises for a batch size of at least 1: the vector of a text is the
    answer of the embedding service at the time of its call, or 768
    zeros when that call raises; the batch size does not change the
    result.  A batch size of 0 raises [ValueError] before any call; a
    negative one makes no call and returns the empty list, whatever the
    texts. *)
Theorem embed_batch_vectors (E : env) (texts : list string) (b : Z)
    (s : library) :
  (1 <= b ->
   embed_batch E texts b s
   = (Ok (vectors_from E (clock s) texts), later (List.length texts) s)) /\
  List.length (vectors_from E (clock s) texts) = List.length texts /\
  (forall i text,
      texts !! i = Some text ->
      vectors_from E (clock s) texts !! i
      = Some (match embeddings E (clock s + i) text with
              | Ok v => v
              | Raise _ => zero_vector
              end)) /\
  (b = 0 ->
   embed_batch E texts b s
   = (Raise (Exn "ValueError" "range() arg 3 must not be zero"), s)) /\
  (b < 0 -> embed_batch E texts b s = (Ok [], s)).
Proof.
  split; [apply embed_batch_ok |]. split; [apply vectors_from_length |].
  split; [intros i text; apply vectors_from_lookup |]. split.
  - intros ->. reflexivity.
  - intros Hb. unfold embed_batch, py_range.
    rewrite (proj2 (Z.eqb_neq _ _)) by lia.
    rewrite (proj2 (Z.ltb_ge _ _)) by lia.
    assert (Hcount : (0 - Z.of_nat (List.length texts) - b - 1) / - b <= 0).
    { apply Z.lt_succ_r. apply Z.div_lt_upper_bound; lia. }
    replace (Z.to_nat _) with 0%nat by lia. reflexivity.
Qed.

End EmbeddingFacts.

Section ChunkEmbeddingFacts.
Import Corpus Indexing.


Lemma assign_app (coll : list stored_chunk)
    (l1 l2 : list (stored_chunk * list float)) :
  assign coll (l1 ++ l2) = assign (assign coll l1) l2.
Proof. apply fold_left_app. Qed.

(** Assignments to other [_id]s leave the first chunk alone. *)
Lemma assign_skip (c : stored_chunk) (rest : list stored_chunk)
    (l : list (stored_chunk * list float)) :
  (forall ce, In ce l -> oid ce.1 <> oid c) ->
  assign (c :: rest) l = c :: assign rest l.
Proof.
  revert rest. induction l as [|ce l IH]; intros rest Hne; [reflexivity |].
  cbn [assign fold_left set_vector].
  rewrite (proj2 (Nat.eqb_neq _ _)).
  - apply IH. intros ce' Hin. apply Hne. now right.
  - intros Heq. apply (Hne ce (or_introl eq_refl)). now symmetry.
Qed.

Lemma filter_pending_oids (coll : list stored_chunk) (c : stored_chunk) :
  In c (List.filter pending coll) -> In (oid c) (List.map oid coll).
Proof. intros H. apply List.filter_In in H as [H _]. now apply List.in_map. Qed.

(** With [_id]s that differ, updating the chunks without an embedding
    one by one by [_id] fills them in the order of the collection. *)
Lemma assign_fill (coll : list stored_chunk) (vs : list (list float)) :
  NoDup (List.map oid coll) ->
  assign coll (zip (List.filter pending coll) vs) = fill coll vs.
Proof.
  revert vs. induction coll as [|c rest IH]; intros vs Hnd; [reflexivity |].
  cbn [List.map] in Hnd. apply NoDup_cons in Hnd as [Hc Hnd].
  assert (Hother : forall vs' (ce : stored_chunk * list float),
             In ce (zip (List.filter pending rest) vs') -> oid ce.1 <> oid c).
  { intros vs' [c' v] Hin Heq. cbn [fst] in Heq.
    apply list_elem_of_In, elem_of_zip_l in Hin. cbn [fst] in Hin.
    apply list_elem_of_In, filter_pending_oids in Hin.
    apply Hc. apply list_elem_of_In. now rewrite <- Heq. }
  cbn [List.filter fill]. destruct (pending c) eqn:Hp.
  - destruct vs as [|v vs]; [reflexivity |].
    cbn [zip zip_with assign fold_left fst snd set_vector].
    rewrite Nat.eqb_refl.
    change (fold_left _ ?l ?coll0) with (assign coll0 l).
    rewrite assign_skip; [now rewrite IH |].
    intros ce Hin. cbn [oid]. now apply (Hother vs).
  - rewrite assign_skip; [now rewrite IH |]. apply Hother.
Qed.

Lemma fill_shape (coll : list stored_chunk) (vs : list (list float)) :
  Forall2 (fun c c' =>
             oid c' = oid c /\ body c' = body c /\
             (pending c = false -> c' = c))
          coll (fill coll vs).
Proof.
  revert vs. induction coll as [|c rest IH]; intros vs; [constructor |].
  cbn [fill]. destruct (pending c) eqn:Hp.
  - destruct vs as [|v vs].
    + apply Forall2_same_length_lookup_2; [reflexivity |].
      intros i x y Hx Hy. rewrite Hx in Hy. injection Hy as <-. auto.
    + constructor; [| apply IH]. cbn. repeat split. congruence.
  - constructor; [| apply IH]. auto.
Qed.

Lemma fill_all (coll : list stored_chunk) (vs : list (list float)) :
  (List.length (List.filter pending coll) <= List.length vs)%nat ->
  forall c', In c' (fill coll vs) -> vector c' <> None.
Proof.
  revert vs. induction coll as [|c rest IH]; intros vs Hlen c' Hin;
    [destruct Hin |].
  cbn [List.filter fill] in *. destruct (pending c) eqn:Hp.
  - destruct vs as [|v vs]; [cbn in Hlen; lia |].
    destruct Hin as [<- | Hin]; [discriminate |].
    apply (IH vs); [cbn in Hlen; lia | exact Hin].
  - destruct Hin as [<- | Hin]; [| now apply (IH vs)].
    unfold pending in Hp. now destruct (vector c).
Qed.


Lemma for_each_update (E : env) (l : list (stored_chunk * list float))
    (s s' : library) :
  for_each l (fun ce => update_vector E (oid ce.1) ce.2) s = (Ok tt, s') ->
  embedded s s' l.
Proof.
  revert s. induction l as [|ce l IH]; intros s.
  - intros [= <-]. repeat split.
  - cbn [for_each]. rewrite bindL_run. unfold update_vector at 1.
    rewrite bindL_run. unfold db.
    destruct (mongo E (clock s)); [discriminate |].
    intros Hrun. apply IH in Hrun as (Hc & Hd & Hf & Hn & Hu).
    cbn [set_chunks Corpus.tick chunks documents facts next_oid
           unique_doc_id] in *.
    repeat split; assumption.
Qed.


Lemma vectors_from_answers (E : env) (t : nat) (batch : list stored_chunk) :
  answers E batch (vectors_from E t (List.map chunk_text_of batch)).
Proof.
  revert t. induction batch as [|c batch IH]; intros t; [constructor |].
  cbn [List.map vectors_from]. constructor; [now exists t | apply IH].
Qed.

Lemma embed_chunks_ok (E : env) (todo : list stored_chunk) (b i : Z)
    (s s' : library) :
  embed_chunks E todo b i s = (Ok tt, s') ->
  exists vs,
    answers E (Py.slice todo i (i + b)) vs /\
    embedded s s' (zip (Py.slice todo i (i + b)) vs).
Proof.
  unfold embed_chunks. cbv zeta. rewrite bindL_run.
  rewrite embed_batch_ok by lia.
  set (batch := Py.slice todo i (i + b)).
  intros Hrun. apply for_each_update in Hrun as (Hc & Hd & Hf & Hn & Hu).
  exists (vectors_from E (clock s) (List.map chunk_text_of batch)).
  split; [apply vectors_from_answers |].
  repeat split; assumption.
Qed.

Lemma zip_app_same {A B : Type} (l1 l2 : list A) (k1 k2 : list B) :
  List.length l1 = List.length k1 ->
  zip (l1 ++ l2) (k1 ++ k2) = zip l1 k1 ++ zip l2 k2.
Proof. intros H. now apply zip_with_app. Qed.

Lemma for_each_embed_chunks (E : env) (todo : list stored_chunk) (b : Z)
    (starts : list Z) (s s' : library) :
  for_each starts (embed_chunks E todo b) s = (Ok tt, s') ->
  exists vs,
    let covered :=
      concat (List.map (fun i => Py.slice todo i (i + b)) starts) in
    answers E covered vs /\ embedded s s' (zip covered vs).
Proof.
  revert s. induction starts as [|i rest IH]; intros s.
  - intros [= <-]. exists []. cbn. split; [constructor | repeat split].
  - cbn [for_each]. rewrite bindL_run.
    destruct (embed_chunks E todo b i s) as [[[] | e] s1] eqn:Hone;
      [| discriminate].
    intros Hrest.
    apply embed_chunks_ok in Hone as (vs1 & Hans1 & Hc1 & Hd1 & Hf1 & Hn1 & Hu1).
    apply IH in Hrest as (vs2 & Hans2 & Hc2 & Hd2 & Hf2 & Hn2 & Hu2).
    exists (vs1 ++ vs2). cbn [List.map concat]. cbv zeta. split.
    + now apply Forall2_app.
    + rewrite zip_app_same by (now apply Forall2_length in Hans1).
      unfold embedded. rewrite assign_app, <- Hc1.
      repeat split; congruence.
Qed.

(** X23: [generate_chunk_embeddings] gives every chunk an embedding.
    With a batch size of at least 1 and [_id]s that differ, when the call
    returns: the chunks that had no embedding have one each, in the order
    of the collection, which is the answer of the embedding service for
    the chunk's text or 768 zeros when that call raised; the chunks that
    had an embedding are as they were; no chunk is added, removed or
    moved, and the documents and facts are untouched. *)
Theorem generate_chunk_embeddings_all (E : env) (batch_size : Z)
    (s s' : library) :
  1 <= batch_size ->
  NoDup (List.map oid (chunks s)) ->
  generate_chunk_embeddings E batch_size s = (Ok tt, s') ->
  exists vs,
    answers E (List.filter pending (chunks s)) vs /\
    chunks s' = fill (chunks s) vs /\
    (forall c', In c' (chunks s') -> vector c' <> None) /\
    Forall2 (fun c c' =>
               oid c' = oid c /\ body c' = body c /\
               (pending c = false -> c' = c))
            (chunks s) (chunks s') /\
    documents s' = documents s /\ facts s' = facts s.
Proof.
  intros Hb Hnd. unfold generate_chunk_embeddings. rewrite bindL_run.
  unfold db. destruct (mongo E (clock s)); [discriminate |].
  cbn [Corpus.tick chunks].
  destruct (List.filter pending (chunks s)) as [|c0 todo0] eqn:Htodo.
  - intros [= <-]. exists []. cbn [Corpus.tick chunks documents facts].
    assert (Hfill : fill (chunks s) [] = chunks s).
    { clear. induction (chunks s) as [|c rest IH]; [reflexivity |].
      cbn [fill]. destruct (pending c); [reflexivity | now rewrite IH]. }
    rewrite Hfill. split; [constructor |]. split; [reflexivity |].
    split.
    + intros c' Hin Hnone.
      assert (Hp : In c' (List.filter pending (chunks s))).
      { apply List.filter_In. split; [exact Hin |].
        unfold pending. now rewrite Hnone. }
      rewrite Htodo in Hp. destruct Hp.
    + split; [| auto]. rewrite <- Hfill at 2. apply fill_shape.
  - rewrite <- Htodo. set (todo := List.filter pending (chunks s)).
    destruct (py_range 0 (Z.of_nat (List.length todo)) batch_size)
      as [starts | e] eqn:Hrange; [| discriminate].
    intros Hrun.
    apply for_each_embed_chunks in Hrun as (vs & Hans & Hc & Hd & Hf & _).
    cbv zeta in Hans, Hc.
    rewrite (batches_cover todo batch_size starts Hb Hrange) in Hans, Hc.
    cbn [Corpus.tick chunks documents facts] in *.
    unfold todo in Hc. rewrite (assign_fill _ vs Hnd) in Hc.
    exists vs. split; [exact Hans |]. split; [exact Hc |].
    split; [| split; [| auto]].
    + rewrite Hc. apply fill_all. apply Forall2_length in Hans.
      fold todo. lia.
    + rewrite Hc. apply fill_shape.
Qed.

Lemma generate_chunk_embeddings_all_witness :
  exists s',
    generate_chunk_embeddings embedding_down 50 half_embedded = (Ok tt, s') /\
    chunks s' = fill (chunks half_embedded) [zero_vector] /\
    forall c', In c' (chunks s') -> vector c' <> None.
Proof.
  eexists. split; [vm_compute; reflexivity |].
  edestruct (generate_chunk_embeddings_all embedding_down 50 half_embedded)
    as (vs & _ & Hc & Hall & _).
  - lia.
  - apply NoDup_ListNoDup. cbn.
    constructor; [intros [H | []]; discriminate |].
    constructor; [intros [] | constructor].
  - vm_compute. reflexivity.
  - split; [| exact Hall]. vm_compute. reflexivity.
Defined.

End ChunkEmbeddingFacts.

(** ** Phase 2: the chunks of the documents *)

Section ChunkingFacts.
Import Corpus Indexing.

Lemma metadata_truthy (d : document) :
  Chunker.truthy (Some (metadata_of d)) = true.
Proof.
  unfold Chunker.truthy. apply negb_true_iff, bool_decide_eq_false.
  intros H. assert (Hl : metadata_of d !! "doc_id" = Some (VStr (doc_id d)))
    by (unfold metadata_of; now lookup_key).
  rewrite H in Hl. discriminate.
Qed.

Lemma chunk_text_emits (fuel : nat) (self : Chunker.DocumentChunker)
    (text : string) (metadata : option dict) (out : list Chunker.chunk) :
  Chunker.chunk_text fuel self text metadata = Some out ->
  List.map Chunker.chunk_id out = List.map Z.of_nat (seq 0 (List.length out)) /\
  forall c, In c out -> pass_chunk self (Py.chars text) metadata c.
Proof.
  unfold Chunker.chunk_text. destruct text as [|a text].
  - intros [= <-]. split; [reflexivity | intros c []].
  - intros Hloop. apply loop_emits in Hloop as (new & -> & Hids & Hall).
    cbn [Chunker.initial Chunker.chunks Chunker.next_id app] in *. split.
    + rewrite Hids. apply List.map_ext. intros i. lia.
    + now apply List.Forall_forall.
Qed.

(** X24: the chunks of a document.  A document without text gives no
    chunk.  Otherwise, when the chunker returns, the chunks are those of
    [chunk_text] on the document's text, numbered 0, 1, 2, ..; each has
    the document's [doc_id] and carries the metadata made of the
    document's [doc_id], [filename], [filepath] and [page_count], which
    is never dropped. *)
Theorem chunk_document_chunks (fuel : nat) (self : Chunker.DocumentChunker)
    (d : document) (out : list doc_chunk) :
  chunk_document fuel self d = Some out ->
  (extracted_text d = EmptyString -> out = []) /\
  List.map (fun c => Chunker.chunk_id (piece c)) out
  = List.map Z.of_nat (seq 0 (List.length out)) /\
  (forall c, In c out ->
     chunk_of_document d c /\
     pass_chunk self (Py.chars (extracted_text d)) (Some (metadata_of d))
       (piece c)) /\
  metadata_of d !! "filename" = Some (VStr (filename d)) /\
  metadata_of d !! "filepath" = Some (VStr (filepath d)) /\
  metadata_of d !! "page_count" = Some (VInt (page_count d)).
Proof.
  unfold chunk_document. intros Hrun.
  assert (Hkeys : metadata_of d !! "filename" = Some (VStr (filename d)) /\
                  metadata_of d !! "filepath" = Some (VStr (filepath d)) /\
                  metadata_of d !! "page_count" = Some (VInt (page_count d)))
    by (unfold metadata_of; now lookup_key).
  destruct (extracted_text d) as [|a text] eqn:Htext.
  - injection Hrun as <-. split; [reflexivity |]. split; [reflexivity |].
    split; [intros c [] | exact Hkeys].
  - destruct (Chunker.chunk_text fuel self (String a text)
                (Some (metadata_of d))) as [cs|] eqn:Hcs; [| discriminate].
    injection Hrun as <-.
    apply chunk_text_emits in Hcs as [Hids Hpass].
    split; [discriminate |]. split.
    + rewrite List.map_map, length_map. cbn [piece]. exact Hids.
    + split; [| exact Hkeys]. intros c Hin.
      apply List.in_map_iff in Hin as (c0 & <- & Hin). cbn [piece owner].
      specialize (Hpass c0 Hin). split; [| exact Hpass].
      split; [reflexivity |].
      destruct Hpass as (_ & _ & _ & Hmeta).
      now rewrite metadata_truthy in Hmeta.
Qed.

Lemma chunk_document_chunks_witness :
  exists out,
    chunk_document 1 Chunker.default (short_paper "/files/a/one.pdf" "a")
    = Some out /\
    List.map (fun c => Chunker.chunk_id (piece c)) out = [0] /\
    forall c, In c out ->
      chunk_of_document (short_paper "/files/a/one.pdf" "a") c.
Proof.
  eexists. split; [vm_compute; reflexivity |].
  destruct (chunk_document_chunks 1 Chunker.default
              (short_paper "/files/a/one.pdf" "a") _ eq_refl)
    as (_ & Hids & Hall & _).
  split; [exact Hids |]. intros c Hin. now apply Hall.
Defined.

Lemma chunk_document_owner (fuel : nat) (self : Chunker.DocumentChunker)
    (d : document) (out : list doc_chunk) :
  chunk_document fuel self d = Some out ->
  forall c, In c out -> chunk_of_document d c.
Proof.
  unfold chunk_document. intros Hrun c Hin.
  destruct (extracted_text d) as [|a text] eqn:Htext.
  - injection Hrun as <-. destruct Hin.
  - destruct (Chunker.chunk_text fuel self (String a text)
                (Some (metadata_of d))) as [cs|] eqn:Hcs; [| discriminate].
    injection Hrun as <-.
    apply chunk_text_emits in Hcs as [_ Hpass].
    apply List.in_map_iff in Hin as (c0 & <- & Hin). cbn [piece owner].
    split; [reflexivity |].
    destruct (Hpass c0 Hin) as (_ & _ & _ & Hmeta).
    now rewrite metadata_truthy in Hmeta.
Qed.

Lemma chunked_app (id : string) (s : library) (more : list stored_chunk)
    (n : nat) :
  chunked id (set_chunks (chunks s ++ more) n s)
  = chunked id s || existsb (fun c => String.eqb (owner (body c)) id) more.
Proof. unfold chunked. cbn [set_chunks chunks]. apply existsb_app. Qed.

Lemma fresh_spec (new : list doc_chunk) (s : library) :
  List.map oid (fresh new s) = seq (next_oid s) (List.length new) /\
  List.map body (fresh new s) = new /\
  forall c, In c (fresh new s) -> vector c = None.
Proof.
  unfold fresh. generalize (next_oid s). intros n.
  revert n. induction new as [|c new IH]; intros n.
  - repeat split. intros c [].
  - cbn [imap List.map seq List.length oid body].
    assert (Hshift : imap ((fun i c0 => {| oid := n + i; body := c0;
                                           vector := None |}) ∘ S) new
                     = imap (fun i c0 => {| oid := S n + i; body := c0;
                                            vector := None |}) new).
    { apply imap_ext. intros i x _. cbn. f_equal. lia. }
    rewrite Hshift. destruct (IH (S n)) as (Ho & Hb & Hv).
    rewrite Ho, Hb, Nat.add_0_r. repeat split.
    intros c' [<- | Hin]; [reflexivity | now apply Hv].
Qed.

(** What the loop over the documents adds. *)
Lemma chunk_each_adds (E : env) (fuel : nat) (self : Chunker.DocumentChunker)
    (docs : list document) (s s' : library) :
  chunk_each E fuel self docs s = Some (Ok tt, s') ->
  exists added,
    chunks s' = chunks s ++ added /\
    List.map oid added = seq (next_oid s) (List.length added) /\
    next_oid s' = (next_oid s + List.length added)%nat /\
    (forall c, In c added ->
       vector c = None /\ chunked (owner (body c)) s = false /\
       exists d, In d docs /\ chunk_of_document d (body c)) /\
    (forall c1 c2, In c1 added -> In c2 added ->
       owner (body c1) = owner (body c2) ->
       Chunker.metadata (piece (body c1)) = Chunker.metadata (piece (body c2))) /\
    documents s' = documents s /\ facts s' = facts s /\
    unique_doc_id s' = unique_doc_id s.
Proof.
  revert s. induction docs as [|d rest IH]; intros s.
  - intros [= <-]. exists []. rewrite app_nil_r, Nat.add_0_r.
    split; [reflexivity |]. split; [reflexivity |]. split; [reflexivity |].
    split; [intros c [] |]. split; [intros c1 c2 [] | auto].
  - cbn [chunk_each]. unfold db.
    destruct (mongo E (clock s)); [discriminate |].
    assert (Hskip : forall s1,
               chunks s1 = chunks s -> next_oid s1 = next_oid s ->
               documents s1 = documents s -> facts s1 = facts s ->
               unique_doc_id s1 = unique_doc_id s ->
               chunk_each E fuel self rest s1 = Some (Ok tt, s') ->
               exists added,
                 chunks s' = chunks s ++ added /\
                 List.map oid added = seq (next_oid s) (List.length added) /\
                 next_oid s' = (next_oid s + List.length added)%nat /\
                 (forall c, In c added ->
                    vector c = None /\ chunked (owner (body c)) s = false /\
                    exists d0, In d0 (d :: rest) /\
                               chunk_of_document d0 (body c)) /\
                 (forall c1 c2, In c1 added -> In c2 added ->
                    owner (body c1) = owner (body c2) ->
                    Chunker.metadata (piece (body c1))
                    = Chunker.metadata (piece (body c2))) /\
                 documents s' = documents s /\ facts s' = facts s /\
                 unique_doc_id s' = unique_doc_id s).
    { intros s1 Hc Hn Hd Hf Hu Hrun.
      apply IH in Hrun as (added & Hc' & Ho & Hn' & Hall & Hsame & Hd' & Hf' & Hu').
      exists added. rewrite <- Hc, <- Hn, <- Hd, <- Hf, <- Hu.
      split; [exact Hc' |]. split; [exact Ho |]. split; [exact Hn' |].
      split; [| auto].
      intros c Hin. destruct (Hall c Hin) as (Hv & Hch & d0 & Hd0 & Hof).
      split; [exact Hv |]. split.
      - unfold chunked in *. now rewrite <- Hc.
      - exists d0. split; [now right | exact Hof]. }
    destruct (chunked (doc_id d) (Corpus.tick s)) eqn:Hchunked;
      [now apply Hskip |].
    destruct (chunk_document fuel self d) as [[|c0 new]|] eqn:Hdoc;
      [now apply Hskip | | discriminate].
    unfold insert_chunks. rewrite bindL_run. unfold db.
    destruct (mongo E (clock (Corpus.tick s))); [discriminate |].
    cbn [Corpus.tick chunks next_oid].
    set (s2 := set_chunks _ _ _). intros Hrun.
    apply IH in Hrun as (added & Hc' & Ho & Hn' & Hall & Hsame & Hd' & Hf' & Hu').
    set (new0 := c0 :: new) in *.
    change (imap _ new0) with (fresh new0 s) in s2.
    destruct (fresh_spec new0 s) as (Hfo & Hfb & Hfv).
    assert (Hnew : forall c, In c (fresh new0 s) ->
                             chunk_of_document d (body c)).
    { intros c Hin. apply (chunk_document_owner fuel self d new0 Hdoc).
      rewrite <- Hfb. now apply List.in_map. }
    assert (Hlen : List.length (fresh new0 s) = List.length new0)
      by (rewrite <- (length_map oid), Hfo, length_seq; reflexivity).
    assert (Hnow : forall id, chunked id s2
                   = chunked id s
                     || existsb (fun c => String.eqb (owner (body c)) id)
                          (fresh new0 s)).
    { intros id. unfold chunked, s2. cbn [set_chunks chunks Corpus.tick].
      apply existsb_app. }
    exists (fresh new0 s ++ added).
    subst s2. cbn [set_chunks chunks next_oid documents facts unique_doc_id
                     Corpus.tick] in Hc', Ho, Hn', Hd', Hf', Hu'.
    split; [now rewrite Hc', app_assoc |].
    split.
    { rewrite List.map_app, Hfo, Ho, length_app, Hlen.
      now rewrite seq_app. }
    split; [rewrite Hn', length_app, Hlen; lia |].
    split.
    { intros c Hin. apply in_app_or in Hin as [Hin | Hin].
      - split; [now apply Hfv |]. split.
        + destruct (Hnew c Hin) as [-> _]. exact Hchunked.
        + exists d. split; [now left | now apply Hnew].
      - destruct (Hall c Hin) as (Hv & Hch & d0 & Hd0 & Hof).
        split; [exact Hv |]. rewrite Hnow in Hch.
        apply orb_false_iff in Hch as [Hch _]. split; [exact Hch |].
        exists d0. split; [now right | exact Hof]. }
    split; [| auto].
    intros c1 c2 H1 H2 Hown.
    assert (Hcross : forall a b, In a (fresh new0 s) -> In b added ->
                                 owner (body a) <> owner (body b)).
    { intros a b Ha Hb Heq. destruct (Hall b Hb) as (_ & Hch & _).
      rewrite Hnow in Hch. apply orb_false_iff in Hch as [_ Hch].
      rewrite <- not_true_iff_false in Hch. apply Hch.
      apply existsb_exists. exists a. split; [exact Ha |].
      now apply String.eqb_eq. }
    apply in_app_or in H1 as [H1 | H1]; apply in_app_or in H2 as [H2 | H2].
    + destruct (Hnew c1 H1) as [_ ->]. now destruct (Hnew c2 H2) as [_ ->].
    + now destruct (Hcross c1 c2 H1 H2).
    + now destruct (Hcross c2 c1 H2 H1).
    + now apply Hsame.
Qed.

(** X25: what [chunk_documents] adds.  When the run returns, the
    chunks that were there are untouched and the new ones come after
    them, each with the next [_id] in turn and no embedding.  A new chunk
    belongs to a successfully extracted document whose [doc_id] had no
    chunk before the run, and carries that document's metadata.  At most
    one document per [doc_id] is chunked: the new chunks under one
    [doc_id] all carry the same metadata, so of two documents that share
    a [doc_id] (two papers in one folder) only one is indexed. *)
Theorem chunk_documents_adds (E : env) (fuel : nat)
    (self : Chunker.DocumentChunker) (s s' : library) :
  chunk_documents E fuel self s = Some (Ok tt, s') ->
  exists added,
    chunks s' = chunks s ++ added /\
    List.map oid added = seq (next_oid s) (List.length added) /\
    (forall c, In c added ->
       vector c = None /\ chunked (owner (body c)) s = false /\
       exists d, In d (documents s) /\ Extraction.succeeded d = true /\
                 chunk_of_document d (body c)) /\
    (forall c1 c2, In c1 added -> In c2 added ->
       owner (body c1) = owner (body c2) ->
       Chunker.metadata (piece (body c1)) = Chunker.metadata (piece (body c2))) /\
    documents s' = documents s /\ facts s' = facts s.
Proof.
  unfold chunk_documents, db.
  destruct (mongo E (clock s)); [discriminate |]. intros Hrun.
  apply chunk_each_adds in Hrun
    as (added & Hc & Ho & _ & Hall & Hsame & Hd & Hf & _).
  exists added. cbn [Corpus.tick chunks next_oid documents facts] in *.
  split; [exact Hc |]. split; [exact Ho |]. split; [| auto].
  intros c Hin. destruct (Hall c Hin) as (Hv & Hch & d & Hd0 & Hof).
  split; [exact Hv |]. split; [exact Hch |].
  apply List.filter_In in Hd0 as [Hd0 Hok]. eauto.
Qed.

Lemma chunk_documents_adds_witness :
  exists s' added,
    chunk_documents Example.rambling 1 Chunker.default two_in_one_folder
    = Some (Ok tt, s') /\
    chunks s' = added /\
    List.map oid added = seq 0 (List.length added) /\
    forall c1 c2, In c1 added -> In c2 added ->
      owner (body c1) = owner (body c2) ->
      Chunker.metadata (piece (body c1)) = Chunker.metadata (piece (body c2)).
Proof.
  eexists.
  edestruct (chunk_documents_adds Example.rambling 1 Chunker.default
               two_in_one_folder) as (added & Hc & Ho & _ & Hsame & _).
  - vm_compute. reflexivity.
  - exists added. split; [reflexivity |]. split; [exact Hc |].
    split; [exact Ho | exact Hsame].
Defined.

(** Two papers of one folder: the second is skipped. *)
Example second_paper_skipped :
  exists s',
    chunk_documents Example.rambling 1 Chunker.default two_in_one_folder
    = Some (Ok tt, s') /\
    List.map (fun c => Chunker.metadata (piece (body c)) ≫= (.!! "filepath"))
      (chunks s')
    = [Some (VStr "/files/a/one.pdf")].
Proof. eexists. split; vm_compute; reflexivity. Qed.

Lemma chunked_later (id : string) (k : nat) (s : library) :
  chunked id (later k s) = chunked id s.
Proof. reflexivity. Qed.

(** Documents that have chunks, or give none, cost a count each. *)
Lemma chunk_each_settled (E : env) (fuel : nat)
    (self : Chunker.DocumentChunker) (docs : list document) (s : library) :
  (forall t, mongo E t = None) ->
  (forall d, In d docs ->
     chunked (doc_id d) s = true \/ chunk_document fuel self d = Some []) ->
  chunk_each E fuel self docs s = Some (Ok tt, later (List.length docs) s).
Proof.
  intros Hmongo. revert s. induction docs as [|d rest IH]; intros s Hall.
  - cbn. now rewrite later_zero.
  - cbn [chunk_each List.length]. unfold db. rewrite Hmongo.
    change (chunked (doc_id d) (Corpus.tick s)) with (chunked (doc_id d) s).
    rewrite <- later_tick.
    destruct (Hall d (or_introl eq_refl)) as [-> | Hnone].
    + apply IH. intros d' Hin. apply Hall. now right.
    + rewrite Hnone. destruct (chunked (doc_id d) s);
        apply IH; intros d' Hin; apply Hall; now right.
Qed.

Lemma chunked_mono (id : string) (s s' : library) (added : list stored_chunk) :
  chunks s' = chunks s ++ added ->
  chunked id s = true -> chunked id s' = true.
Proof.
  unfold chunked. intros -> H. rewrite existsb_app, H. reflexivity.
Qed.

Lemma chunk_each_settles (E : env) (fuel : nat)
    (self : Chunker.DocumentChunker) (docs : list document) (s s' : library) :
  chunk_each E fuel self docs s = Some (Ok tt, s') ->
  forall d, In d docs ->
    chunked (doc_id d) s' = true \/ chunk_document fuel self d = Some [].
Proof.
  revert s. induction docs as [|d rest IH]; intros s Hrun d' Hin;
    [destruct Hin |].
  cbn [chunk_each] in Hrun. unfold db in Hrun.
  destruct (mongo E (clock s)); [discriminate |].
  destruct (chunked (doc_id d) (Corpus.tick s)) eqn:Hchunked.
  - destruct Hin as [<- | Hin]; [| now apply (IH _ Hrun)].
    left. apply chunk_each_adds in Hrun as (added & Hc & _).
    now apply (chunked_mono _ (Corpus.tick s) s' added).
  - destruct (chunk_document fuel self d) as [[|c0 new]|] eqn:Hdoc;
      [| | discriminate].
    + destruct Hin as [<- | Hin]; [now right | now apply (IH _ Hrun)].
    + unfold insert_chunks in Hrun. rewrite bindL_run in Hrun.
      unfold db in Hrun.
      destruct (mongo E (clock (Corpus.tick s))); [discriminate |].
      destruct Hin as [<- | Hin]; [| now apply (IH _ Hrun)].
      left. pose proof Hrun as Hrun'.
      apply chunk_each_adds in Hrun' as (added & Hc & _).
      apply (chunked_mono _ _ s' added Hc).
      unfold chunked. cbn [set_chunks chunks Corpus.tick].
      rewrite existsb_app. apply orb_true_iff. right.
      cbn [imap existsb body owner].
      destruct (chunk_document_owner fuel self d _ Hdoc c0 (or_introl eq_refl))
        as [-> _].
      now rewrite String.eqb_refl.
Qed.

(** X26: chunking again adds nothing.  When the database answers and
    a run of [chunk_documents] has returned, a second run returns too and
    leaves the library as the first one left it: only the clock has
    moved, by one count per successfully extracted document. *)
Theorem chunk_documents_again (E : env) (fuel : nat)
    (self : Chunker.DocumentChunker) (s s1 : library) :
  (forall t, mongo E t = None) ->
  chunk_documents E fuel self s = Some (Ok tt, s1) ->
  exists k, chunk_documents E fuel self s1 = Some (Ok tt, later k s1).
Proof.
  intros Hmongo. unfold chunk_documents, db. rewrite !Hmongo. intros Hrun.
  pose proof (chunk_each_settles E fuel self _ _ _ Hrun) as Hsettled.
  apply chunk_each_adds in Hrun as (added & _ & _ & _ & _ & _ & Hd & _).
  cbn [Corpus.tick documents] in *. rewrite Hd.
  exists (S (List.length (List.filter Extraction.succeeded (documents s)))).
  rewrite <- later_tick. apply chunk_each_settled; [exact Hmongo |].
  exact Hsettled.
Qed.

Lemma chunk_documents_again_witness :
  exists s1 k,
    chunk_documents Example.rambling 1 Chunker.default two_in_one_folder
    = Some (Ok tt, s1) /\
    chunk_documents Example.rambling 1 Chunker.default s1
    = Some (Ok tt, later k s1).
Proof.
  eexists.
  edestruct (chunk_documents_again Example.rambling 1 Chunker.default
               two_in_one_folder) as (k & Hagain).
  - reflexivity.
  - vm_compute. reflexivity.
  - exists k. split; [reflexivity | exact Hagain].
Defined.

End ChunkingFacts.

(** ** Phase 2: the embeddings of the claims *)

Section FactIndexFacts.
Import Corpus Indexing.

Lemma upsert_fact_keeps (f : fact) (v : list float) (coll : list stored_fact) :
  (forall g0, find_fact (fact_number f) coll = Some g0 ->
              fact_vector g0 = None) ->
  forall g, In g coll -> fact_vector g <> None -> In g (upsert_fact f v coll).
Proof.
  unfold find_fact. induction coll as [|g0 rest IH]; intros Hfirst g Hin Hv;
    [destruct Hin |].
  cbn [upsert_fact List.find] in *.
  destruct (fact_number (indexed g0) =? fact_number f).
  - destruct Hin as [<- | Hin]; [| now right].
    now rewrite (Hfirst g0 eq_refl) in Hv.
  - destruct Hin as [<- | Hin]; [now left | right]. now apply IH.
Qed.

Lemma upsert_fact_has (f : fact) (v : list float) (coll : list stored_fact) :
  In {| indexed := f; fact_vector := Some v |} (upsert_fact f v coll).
Proof.
  induction coll as [|g0 rest IH]; [now left |]. cbn [upsert_fact].
  destruct (fact_number (indexed g0) =? fact_number f); [now left | now right].
Qed.

(** One pass of the loop that returns. *)
Lemma index_fact_ok (E : env) (f : fact) (s s' : library) :
  index_fact E f s = (Ok tt, s') ->
  fact_indexed (fact_number f) (facts s') /\
  (forall g, In g (facts s) -> fact_vector g <> None -> In g (facts s')) /\
  chunks s' = chunks s /\ documents s' = documents s.
Proof.
  unfold index_fact. rewrite bindL_run. unfold db.
  destruct (mongo E (clock s)); [discriminate |].
  cbn [Corpus.tick facts].
  destruct (find_fact (fact_number f) (facts s)) as [[g0 [v0|]]|] eqn:Hfind.
  - intros [= <-]. cbn [Corpus.tick facts chunks documents].
    split; [| auto]. unfold find_fact in Hfind.
    apply List.find_some in Hfind as [Hin Hn].
    eexists. split; [exact Hin |]. cbn [indexed fact_vector].
    split; [now apply Z.eqb_eq | discriminate].
  - rewrite bindL_run. unfold embed_text.
    destruct (embeddings E _ _) as [v | e]; [| discriminate].
    rewrite bindL_run. unfold db.
    destruct (mongo E _); [discriminate |].
    intros [= <-]. cbn [set_facts Corpus.tick facts chunks documents].
    split; [| split; [| auto]].
    + eexists. split; [apply upsert_fact_has |]. cbn. split; [reflexivity |].
      discriminate.
    + intros g Hin Hv. apply upsert_fact_keeps; [| exact Hin | exact Hv].
      intros g1 Hg1. rewrite Hfind in Hg1. now injection Hg1 as <-.
  - rewrite bindL_run. unfold embed_text.
    destruct (embeddings E _ _) as [v | e]; [| discriminate].
    rewrite bindL_run. unfold db.
    destruct (mongo E _); [discriminate |].
    intros [= <-]. cbn [set_facts Corpus.tick facts chunks documents].
    split; [| split; [| auto]].
    + eexists. split; [apply upsert_fact_has |]. cbn. split; [reflexivity |].
      discriminate.
    + intros g Hin Hv. apply upsert_fact_keeps; [| exact Hin | exact Hv].
      intros g1 Hg1. rewrite Hfind in Hg1. discriminate.
Qed.

Lemma fact_indexed_kept (n : Z) (coll coll' : list stored_fact) :
  (forall g, In g coll -> fact_vector g <> None -> In g coll') ->
  fact_indexed n coll -> fact_indexed n coll'.
Proof. intros Hkept (g & Hin & Hn & Hv). exists g. auto. Qed.

(** X27: the index of the claims.  When [index_facts] returns, every
    claim of the catalogue has a document with an embedding in the facts
    collection, and every document that had an embedding before is there
    unchanged: a claim that is already indexed is not embedded again.
    Unlike the chunks, a claim whose embedding call raises gets no
    placeholder: with the database answering, the exception leaves
    [index_facts] at that claim, and the claims after it are not
    indexed. *)
Theorem index_facts_indexes (E : env) (catalogue : list fact) (s : library) :
  (forall s',
      index_facts E catalogue s = (Ok tt, s') ->
      (forall f, In f catalogue -> fact_indexed (fact_number f) (facts s')) /\
      (forall g, In g (facts s) -> fact_vector g <> None -> In g (facts s')) /\
      chunks s' = chunks s /\ documents s' = documents s) /\
  (forall f rest e,
      catalogue = f :: rest ->
      mongo E (clock s) = None ->
      ~ fact_indexed (fact_number f) (facts s) ->
      embeddings E (S (clock s)) (fact_text f) = Raise e ->
      index_facts E catalogue s = (Raise e, later 2 s)).
Proof.
  split.
  - revert s. induction catalogue as [|f rest IH]; intros s s'.
    + intros [= <-]. repeat split; auto. intros f [].
    + unfold index_facts. cbn [for_each]. rewrite bindL_run.
      destruct (index_fact E f s) as [[[] | e] s1] eqn:Hone; [| discriminate].
      intros Hrest. apply index_fact_ok in Hone as (Hf & Hk1 & Hc1 & Hd1).
      apply IH in Hrest as (Hall & Hk2 & Hc2 & Hd2).
      split; [| split; [| split; congruence]].
      * intros f' [<- | Hin]; [| now apply Hall].
        now apply (fact_indexed_kept _ (facts s1)).
      * intros g Hin Hv. auto.
  - intros f rest e -> Hmongo Hnot Hraise.
    unfold index_facts. cbn [for_each]. rewrite bindL_run.
    unfold index_fact. rewrite bindL_run. unfold db. rewrite Hmongo.
    cbn [Corpus.tick facts].
    assert (Hfind : forall g0 v0,
               find_fact (fact_number f) (facts s)
               <> Some {| indexed := g0; fact_vector := Some v0 |}).
    { intros g0 v0 Hfind. apply Hnot. unfold find_fact in Hfind.
      apply List.find_some in Hfind as [Hin Hn].
      eexists. split; [exact Hin |]. cbn. split; [now apply Z.eqb_eq |].
      discriminate. }
    destruct (find_fact (fact_number f) (facts s)) as [[g0 [v0|]]|];
      [now destruct (Hfind g0 v0) | |];
      rewrite bindL_run; unfold embed_text; cbn [Corpus.tick clock];
      rewrite Hraise; rewrite <- (later_zero (Corpus.tick (Corpus.tick s)));
      rewrite !later_tick; reflexivity.
Qed.

Lemma index_facts_indexes_witness :
  exists s',
    index_facts (Example.services (fun _ => Ok "unused"))
      [Example.claim 1; Example.claim 2] empty_library = (Ok tt, s') /\
    fact_indexed 1 (facts s') /\ fact_indexed 2 (facts s').
Proof.
  eexists. split; [vm_compute; reflexivity |].
  edestruct (proj1 (index_facts_indexes (Example.services (fun _ => Ok "unused"))
                      [Example.claim 1; Example.claim 2] empty_library))
    as (Hall & _).
  - vm_compute. reflexivity.
  - split; [apply (Hall (Example.claim 1)) | apply (Hall (Example.claim 2))];
      cbn; auto.
Defined.

End FactIndexFacts.

(** ** Phase 1: extraction *)

Section ExtractionFacts.
Import Corpus Extraction.

Lemma extract_text_extracted (E : env) (R : reader) (p : pdf_path)
    (s : library) :
  extract_text E R p s
  = (extracted R p (isoformat_now E (clock s)), Corpus.tick s).
Proof. reflexivity. Qed.

Lemma read_pages_all (texts : list string) (n : Z) :
  read_pages (List.map Ok texts) n
  = Ok (omap id (imap (fun i text =>
                         if blank text then None
                         else Some (page_part (n + Z.of_nat i) text)) texts)).
Proof.
  revert n. induction texts as [|text rest IH]; intros n; [reflexivity |].
  cbn [List.map read_pages imap]. rewrite IH.
  assert (Hshift : imap ((fun i text0 =>
                            if blank text0 then None
                            else Some (page_part (n + Z.of_nat i) text0)) ∘ S)
                     rest
                   = imap (fun i text0 =>
                             if blank text0 then None
                             else Some (page_part (n + 1 + Z.of_nat i) text0))
                       rest).
  { apply imap_ext. intros i x _. cbn. destruct (blank x); [reflexivity |].
    do 2 f_equal. lia. }
  rewrite Hshift, Z.add_0_r.
  cbn [omap list_omap]. destruct (blank text); reflexivity.
Qed.

Lemma read_pages_ok (pages : list (result string)) (n : Z)
    (parts : list string) :
  read_pages pages n = Ok parts ->
  exists texts, pages = List.map Ok texts.
Proof.
  revert n parts. induction pages as [|[text | e] rest IH]; intros n parts.
  - now exists [].
  - cbn [read_pages].
    destruct (read_pages rest (n + 1)) as [ps|] eqn:Hrest; [| discriminate].
    destruct (IH _ _ Hrest) as [texts ->]. intros _. now exists (text :: texts).
  - discriminate.
Qed.

(** X28: what [extract_text] returns.  It takes the path's string,
    name and folder name as [filepath], [filename] and [doc_id], and
    ends in one of two ways.  Success: the file opened and every page
    could be read; [page_count] counts all pages, and the text is the
    parts of the pages that are not blank, joined by an empty line, each
    headed by the page's own number, so a blank page leaves a gap in the
    numbers and a file of blank pages succeeds with an empty text.
    Failure: opening or reading raised; the text is empty whatever was
    read before, and the message is kept.  The status is never
    "pending". *)
Theorem extract_text_outcome (E : env) (R : reader) (p : pdf_path)
    (s : library) :
  let d := (extract_text E R p s).1 in
  filepath d = path_str p /\ filename d = path_name p /\
  doc_id d = parent_name p /\
  ((exists texts,
       readable R p texts /\
       extraction_status d = Success /\
       page_count d = Z.of_nat (List.length texts) /\
       extracted_text d = join (nl +:+ nl) (labelled texts) /\
       error_message d = None)
   \/
   ((forall texts, ~ readable R p texts) /\
    extraction_status d = Failed /\
    extracted_text d = EmptyString /\
    exists message, error_message d = Some message)).
Proof.
  cbn zeta. rewrite extract_text_extracted. cbn [fst].
  unfold extracted, readable. cbv zeta.
  destruct (R (path_str p)) as [pages | e] eqn:Hopen.
  - destruct (read_pages pages 1) as [parts | e] eqn:Hread.
    + destruct (read_pages_ok _ _ _ Hread) as [texts ->].
      rewrite read_pages_all in Hread. injection Hread as <-.
      cbn [filepath filename doc_id extraction_status page_count
             extracted_text error_message].
      repeat split. left. exists texts. rewrite length_map.
      repeat split. f_equal. unfold labelled. f_equal.
      apply imap_ext. intros i x _. unfold labelled_page.
      destruct (blank x); [reflexivity |]. do 2 f_equal. lia.
    + cbn. repeat split. right. split.
      * intros texts [= ->]. rewrite read_pages_all in Hread. discriminate.
      * repeat split. eauto.
  - cbn. repeat split. right. split; [intros texts; discriminate |].
    repeat split. eauto.
Qed.

Lemma extract_text_outcome_witness :
  let d := (extract_text Example.rambling shelf one_pdf empty_library).1 in
  extraction_status d = Success /\ page_count d = 3 /\
  extracted_text d
  = "[Page 1]" +:+ nl +:+ "Growth." +:+ nl +:+ nl
    +:+ "[Page 3]" +:+ nl +:+ "Reserve.".
Proof.
  destruct (extract_text_outcome Example.rambling shelf one_pdf empty_library)
    as (_ & _ & _ & [(texts & Hread & Hstatus & Hcount & Htext & _)
                    | (Hnone & _)]).
  - assert (Htexts : texts = ["Growth."; "  "; "Reserve."]%string).
    { unfold readable in Hread. vm_compute in Hread.
      injection Hread as Hmap.
      destruct texts as [|a [|b [|c [|]]]]; try discriminate.
      injection Hmap as <- <- <-. vm_compute. reflexivity. }
    subst texts. cbv zeta. split; [exact Hstatus |].
    split; [exact Hcount |]. rewrite Htext. vm_compute. reflexivity.
  - exfalso. apply (Hnone ["Growth."; "  "; "Reserve."]%string).
    vm_compute. reflexivity.
Defined.

Lemma succeeded_extracted (R : reader) (p : pdf_path) (stamp : string) :
  succeeded (extracted R p stamp) = extracts R p.
Proof.
  unfold extracts, extracted. cbv zeta.
  destruct (R (path_str p)) as [pages |]; [| reflexivity].
  destruct (read_pages pages 1); reflexivity.
Qed.

Lemma filepath_extracted (R : reader) (p : pdf_path) (stamp : string) :
  filepath (extracted R p stamp) = path_str p.
Proof.
  unfold extracted. cbv zeta.
  destruct (R (path_str p)) as [pages |]; [| reflexivity].
  destruct (read_pages pages 1); reflexivity.
Qed.

Lemma db_ok (E : env) (s s' : library) (u : unit) :
  db E s = (Ok u, s') -> s' = Corpus.tick s.
Proof.
  unfold db. destruct (mongo E (clock s)); [discriminate |]. now intros [= _ <-].
Qed.

Lemma insert_ordered_ok (batch : list document) (s s' : library) :
  insert_ordered batch s = (Ok tt, s') ->
  s' = set_documents (documents s ++ batch) s.
Proof.
  revert s. induction batch as [|d rest IH]; intros s; cbn [insert_ordered].
  - intros [= <-]. destruct s. unfold set_documents. cbn.
    now rewrite app_nil_r.
  - destruct (unique_doc_id s && _); [discriminate |].
    intros Hrun. apply IH in Hrun. subst s'. unfold set_documents. cbn.
    now rewrite <- app_assoc.
Qed.

Lemma insert_many_ok (E : env) (batch : list document) (s s' : library) :
  insert_many E batch s = (Ok tt, s') ->
  s' = set_documents (documents s ++ batch) (Corpus.tick s).
Proof.
  destruct batch as [|d rest]; [discriminate |].
  unfold insert_many. rewrite bindL_run.
  destruct (db E s) as [[[] | e] s1] eqn:Hdb; [| discriminate].
  apply db_ok in Hdb. subst s1. intros Hrun.
  apply insert_ordered_ok in Hrun. exact Hrun.
Qed.

Lemma to_store_documents (R : reader) (s s2 : library)
    (extra : list document) (paths : list pdf_path) :
  documents s2 = documents s ++ extra ->
  List.Forall (fun d => ~ In (filepath d) (List.map path_str paths)) extra ->
  to_store R s2 paths = to_store R s paths.
Proof.
  intros Hdocs Hextra. unfold to_store. apply List.filter_ext_in.
  intros p Hp. f_equal. f_equal. unfold stored. rewrite Hdocs, existsb_app.
  destruct (existsb _ extra) eqn:Hfound; [| apply orb_false_r].
  apply existsb_exists in Hfound as (d & Hd & Heq).
  apply String.eqb_eq in Heq.
  rewrite List.Forall_forall in Hextra. destruct (Hextra d Hd).
  rewrite Heq. now apply in_map.
Qed.

Lemma store_loop_spec (E : env) (R : reader) (batch_size : Z)
    (paths : list pdf_path) :
  forall (batch : list document) (s s' : library) (out : list document),
    Z.of_nat (List.length batch) < batch_size ->
    List.NoDup (List.map path_str paths) ->
    List.Forall (fun d => ~ In (filepath d) (List.map path_str paths)) batch ->
    store_loop E R paths batch_size batch s = (Ok out, s') ->
    exists flushed new,
      documents s' = documents s ++ flushed /\
      flushed ++ out = batch ++ new /\
      Forall2 (fun p d => exists stamp, d = extracted R p stamp)
        (to_store R s paths) new /\
      chunks s' = chunks s /\ facts s' = facts s.
Proof.
  induction paths as [|p rest IH]; intros batch s s' out Hsmall Hnodup Hbatch.
  - cbn [store_loop]. intros [= <- <-]. exists [], [].
    rewrite !app_nil_r. repeat split. constructor.
  - cbn [store_loop]. rewrite bindL_run.
    destruct (db E s) as [[[] | e] s1] eqn:Hdb; [| discriminate].
    apply db_ok in Hdb. subst s1.
    cbn [List.map] in Hnodup. apply List.NoDup_cons_iff in Hnodup as [Hp Hrest].
    assert (Hbatch' : List.Forall
                        (fun d => ~ In (filepath d) (List.map path_str rest))
                        batch).
    { eapply List.Forall_impl; [| exact Hbatch]. cbn. intros d Hd Hin.
      apply Hd. now right. }
    change (stored p (Corpus.tick s)) with (stored p s).
    unfold to_store. cbn [List.filter]. fold (to_store R s rest).
    destruct (stored p s) eqn:Hstored; cbn [negb andb].
    + intros Hrun. apply IH in Hrun; [| assumption ..].
      destruct Hrun as (flushed & new & Hdocs & Hout & Hnew & Hc & Hf).
      exists flushed, new. repeat split; assumption.
    + rewrite extract_text_extracted.
      set (d := extracted R p _).
      rewrite (succeeded_extracted R p _ : succeeded d = extracts R p).
      destruct (extracts R p) eqn:Hextracts.
      * assert (Hd : ~ In (filepath d) (List.map path_str rest)).
        { unfold d. now rewrite filepath_extracted. }
        destruct (batch_size <=? Z.of_nat (List.length (batch ++ [d])))
          eqn:Hfull.
        -- rewrite bindL_run.
           destruct (insert_many E (batch ++ [d]) _) as [[[] | e] s3] eqn:Hins;
             [| discriminate].
           apply insert_many_ok in Hins. intros Hrun.
           apply IH in Hrun; [| cbn; lia | assumption | constructor].
           destruct Hrun as (flushed & new & Hdocs & Hout & Hnew & Hc & Hf).
           rewrite (to_store_documents R s s3 (batch ++ [d]) rest) in Hnew.
           2: { subst s3. reflexivity. }
           2: { apply List.Forall_app. split; [assumption |].
                constructor; [assumption | constructor]. }
           subst s3. cbn in Hdocs, Hc, Hf.
           exists ((batch ++ [d]) ++ flushed), (d :: new).
           split; [now rewrite Hdocs, <- !app_assoc |].
           split; [cbn in Hout; rewrite <- !app_assoc, Hout; reflexivity |].
           split; [constructor; [now exists (isoformat_now E (clock (Corpus.tick s))) | assumption] |].
           split; assumption.
        -- intros Hrun.
           apply IH in Hrun;
             [| apply Z.leb_gt in Hfull; exact Hfull | assumption
              | apply List.Forall_app; split;
                [assumption | constructor; [assumption | constructor]]].
           destruct Hrun as (flushed & new & Hdocs & Hout & Hnew & Hc & Hf).
           exists flushed, (d :: new).
           split; [exact Hdocs |].
           split; [rewrite Hout, <- app_assoc; reflexivity |].
           split; [constructor; [now exists (isoformat_now E (clock (Corpus.tick s))) | assumption] |].
           split; assumption.
      * destruct (batch_size <=? Z.of_nat (List.length batch)) eqn:Hfull;
          [apply Z.leb_le in Hfull; lia |].
        intros Hrun. apply IH in Hrun; [| assumption ..].
        destruct Hrun as (flushed & new & Hdocs & Hout & Hnew & Hc & Hf).
        exists flushed, new. repeat split; assumption.
Qed.

(** X29: what a run of [extract_and_store] leaves in the database, and
    the batch size it cannot run with.  When the batch size is at least
    1, no path occurs twice and the run returns, the collection of the
    documents has grown, at its end and in the order of the paths, by
    one document for each path that was not stored before and whose
    extraction succeeds: the document [extract_text] makes of it.  This
    does not depend on the batch size.  The documents of failed
    extractions are not stored, and the chunks and the claims are not
    touched.  With a batch size of 0 or less, the test after each
    extraction holds also for an empty batch: when the first path is
    new and its extraction fails, the run ends in the TypeError of
    [insert_many] on an empty list. *)
Theorem extract_and_store_stores (E : env) (R : reader)
    (paths : list pdf_path) (batch_size : Z) (s : library) :
  (forall s',
      1 <= batch_size ->
      List.NoDup (List.map path_str paths) ->
      extract_and_store E R paths batch_size s = (Ok tt, s') ->
      exists added,
        documents s' = documents s ++ added /\
        Forall2 (fun p d => exists stamp, d = extracted R p stamp)
          (to_store R s paths) added /\
        chunks s' = chunks s /\ facts s' = facts s) /\
  (forall p rest,
      batch_size <= 0 ->
      paths = p :: rest ->
      mongo E (clock s) = None ->
      stored p s = false ->
      extracts R p = false ->
      extract_and_store E R paths batch_size s
      = (Raise (Exn "TypeError" "documents must be a non-empty list"),
         later 2 s)).
Proof.
  split.
  - intros s' Hsize Hnodup. unfold extract_and_store. rewrite bindL_run.
    destruct (store_loop E R paths batch_size [] s) as [[out | e] s1] eqn:Hloop;
      [| discriminate].
    apply store_loop_spec in Hloop; [| cbn; lia | assumption | constructor].
    destruct Hloop as (flushed & new & Hdocs & Hout & Hnew & Hc & Hf).
    cbn [app] in Hout. rewrite bindL_run.
    destruct out as [|d out].
    + cbn [Corpus.ret]. intros Hdb. apply db_ok in Hdb. subst s'.
      exists new. rewrite app_nil_r in Hout. subst flushed.
      repeat split; assumption.
    + destruct (insert_many E (d :: out) s1) as [[[] | e] s2] eqn:Hins;
        [| discriminate].
      apply insert_many_ok in Hins. intros Hdb. apply db_ok in Hdb.
      subst s' s2. cbn. exists new. rewrite Hdocs, <- app_assoc, Hout.
      repeat split; assumption.
  - intros p rest Hsize -> Hmongo Hstored Hextracts.
    unfold extract_and_store. rewrite bindL_run. cbn [store_loop].
    rewrite bindL_run. unfold db at 1. rewrite Hmongo.
    change (stored p (Corpus.tick s)) with (stored p s). rewrite Hstored.
    rewrite extract_text_extracted, succeeded_extracted, Hextracts.
    cbn [List.length Z.of_nat].
    destruct (batch_size <=? 0) eqn:Hfull; [| apply Z.leb_gt in Hfull; lia].
    rewrite bindL_run. cbn [insert_many Corpus.raise].
    rewrite <- (later_zero (Corpus.tick (Corpus.tick s))).
    rewrite !later_tick. change (Z.of_nat 0) with 0. now rewrite Hfull.
Qed.

Lemma extract_and_store_stores_witness :
  exists s',
    extract_and_store (Example.services (fun _ => Ok "unused")) shelf
      [one_pdf; broken_pdf] 1 empty_library = (Ok tt, s') /\
    exists stamp, documents s' = [extracted shelf one_pdf stamp].
Proof.
  eexists. split; [vm_compute; reflexivity |].
  edestruct (proj1 (extract_and_store_stores
                      (Example.services (fun _ => Ok "unused")) shelf
                      [one_pdf; broken_pdf] 1 empty_library))
    as (added & Hdocs & Hadded & _).
  - lia.
  - cbn. repeat constructor; cbn; intuition discriminate.
  - vm_compute. reflexivity.
  - rewrite Hdocs.
    change (to_store shelf empty_library [one_pdf; broken_pdf])
      with [one_pdf] in Hadded.
    inversion Hadded as [| p d ps ds [stamp Hd] Hrest]; subst.
    inversion Hrest; subst. exists stamp. reflexivity.
Defined.

End ExtractionFacts.

(** ** Phases 2 and 3: the vector of a failed call *)

Section PlaceholderFacts.
Import Corpus Indexing Retriever.

Lemma with_embedding_In (coll : list chunk_doc) (c : chunk_doc)
    (v : list float) :
  In (c, v) (with_embedding coll) -> In c coll /\ embedding c = Some v.
Proof.
  unfold with_embedding. intros H. apply list_elem_of_In in H.
  apply list_elem_of_omap in H as (c0 & Hc0 & Hsome).
  destruct (embedding c0) as [v0|] eqn:Hv; [| discriminate].
  injection Hsome as <- <-. split; [now apply list_elem_of_In | exact Hv].
Qed.

(** X30: the vector [embed_batch] keeps for a failed call takes the
    chunk out of every search.  When the index searched is the chunk
    collection of the library and the norm of 768 zeros is not above 0,
    each entry a search returns is made of a stored chunk whose vector
    is not that placeholder: the guard on the norms drops the chunks of
    failed calls before any score is computed, whatever the query and
    [top_k] are. *)
Theorem placeholder_not_retrieved (E : env) (s : library) (q : list float)
    (k : Z) (w w' : world) (out : list retrieved) :
  searches w s ->
  (0 <? np_norm E zero_vector)%float = false ->
  cosine_similarity_search E q k w = (Ok out, w') ->
  forall r, In r out ->
    exists c v,
      In c (chunks s) /\ vector c = Some v /\ v <> zero_vector /\
      entry_of r c.
Proof.
  intros Hcoll Hzero Hrun r Hr. apply search_result in Hrun.
  rewrite Hcoll in Hrun. unfold rank in Hrun.
  destruct (with_embedding (List.map as_chunk_doc (chunks s)))
    as [|c0 rest] eqn:Hwith.
  { injection Hrun as <-. destruct Hr. }
  rewrite <- Hwith in Hrun. clear Hwith c0 rest.
  destruct (similarities E q (np_norm E q) _) as [sims|] eqn:Hsims;
    [| discriminate].
  injection Hrun as <-.
  apply in_map_iff in Hr as (x & <- & Hx). apply slice_In in Hx.
  apply (Permutation_in _ (sort_desc_perm sims)) in Hx.
  destruct (similarities_guard _ _ _ _ _ Hsims x Hx)
    as (v & d & Hin & Hnorm & _).
  apply with_embedding_In in Hin as [Hin Hv].
  apply in_map_iff in Hin as (c & Hc & Hin).
  exists c, v. split; [exact Hin |].
  split; [rewrite <- Hv, <- Hc; reflexivity |].
  split; [intros ->; congruence |].
  unfold entry_of, to_result. cbn. rewrite <- Hc. repeat split.
Qed.

Lemma placeholder_not_retrieved_witness :
  exists r w',
    cosine_similarity_search embedding_down [1%float; 0%float] 5
      (Example.initial (List.map as_chunk_doc (chunks one_placeholder)) Missing)
    = (Ok [r], w') /\
    r_text r = "second"%string.
Proof.
  eexists. eexists. split; [vm_compute; reflexivity |].
  edestruct (placeholder_not_retrieved embedding_down one_placeholder
               [1%float; 0%float] 5
               (Example.initial
                  (List.map as_chunk_doc (chunks one_placeholder)) Missing))
    as (c & v & Hc & Hv & Hnot & _ & _ & Htext).
  - reflexivity.
  - vm_compute. reflexivity.
  - vm_compute. reflexivity.
  - left. reflexivity.
  - destruct Hc as [<- | [<- | []]].
    + injection Hv as <-. now destruct Hnot.
    + exact Htext.
Defined.

End PlaceholderFacts.
